(** * The Note: session lifecycle and real-time streaming layer

    A shallow embedding of the client-side session layer:
    - [src/context/SessionContext.tsx]: the session provider (session state,
      event stream with reconnect, audio frame submission);
    - [src/api/client.ts]: [resolveWebSocketUrl];
    - [src/hooks/useVoiceRenderer.ts] (the part defining
      [useLiveAudioCapture]): the live capture pipeline;
    - [src/components/visualization/ConsciousnessVisualizer.tsx]: the
      visualizer's own stream with its keep-alive ping.

    React state and refs are fields of an explicit world record, browser
    objects (sockets, timers) live in finite maps keyed by handle, and
    callbacks are functions in a small state-and-exception monad. *)

From Stdlib Require Import ZArith QArith Qabs Ascii String.
From Stdlib Require Import Floats.SpecFloat.
From stdpp Require Import gmap strings list fin_maps pretty.

Set Warnings "-register-all".

Local Open Scope string_scope.
Local Open Scope list_scope.

(** ** JavaScript numbers

    A JS [number] is an IEEE 754 binary64 value; the operations are the
    specification-level ones of the standard library, which round to
    nearest, ties to even. *)

Module Number.

Definition number : Type := spec_float.

Definition prec : Z := 53.
Definition emax : Z := 1024.

Definition of_Z (z : Z) : number := binary_normalize prec emax z 0 false.
Definition of_nat (n : nat) : number := of_Z (Z.of_nat n).

Definition div (x y : number) : number := SFdiv prec emax x y.
Definition mul (x y : number) : number := SFmul prec emax x y.

(** Exact rational value of a finite number (zero for the others, which
    have no rational value). *)
Definition to_Q (x : number) : Q :=
  match x with
  | S754_finite s m e =>
      let mant := if s then Z.neg m else Z.pos m in
      (if (0 <=? e)%Z
       then inject_Z (mant * 2 ^ e)
       else Qmake mant (Z.to_pos (2 ^ (- e))))%Z
  | _ => 0%Q
  end.

Definition is_finite (x : number) : bool :=
  match x with
  | S754_finite _ _ _ | S754_zero _ => true
  | _ => false
  end.

End Number.

Abbreviation number := Number.number.

(** Numbers are evaluated on demand only. *)
Arguments Number.of_Z : simpl never.
Arguments Number.of_nat : simpl never.
Arguments Number.div : simpl never.
Arguments Number.mul : simpl never.

(** ** Errors and outcomes *)

(** [new Error(message)] *)
Inductive JsError : Type := Error (message : string).

(** The result of running a piece of code: it returns or it throws. For an
    [async] function this is the settlement of its promise. *)
Inductive outcome (A : Type) : Type :=
| Returned (a : A)
| Thrown (e : JsError).
Arguments Returned {A} a.
Arguments Thrown {A} e.

Definition is_thrown {A} (o : outcome A) : bool :=
  match o with Thrown _ => true | Returned _ => false end.

(** ** The monad of callbacks: state, with exceptions

    [Eff S A] is a piece of code that runs on a state [S] and returns an [A]
    or throws. *)

Definition Eff (S A : Type) : Type := S -> outcome A * S.

Definition ret {S A} (a : A) : Eff S A := fun w => (Returned a, w).

Definition throw {S A} (e : JsError) : Eff S A := fun w => (Thrown e, w).

Definition bind {S A B} (m : Eff S A) (k : A -> Eff S B) : Eff S B :=
  fun w =>
    match m w with
    | (Returned a, w') => k a w'
    | (Thrown e, w') => (Thrown e, w')
    end.

(** [try { body } catch (error) { handler }] *)
Definition try_catch {S A} (body : Eff S A) (handler : JsError -> Eff S A)
  : Eff S A :=
  fun w =>
    match body w with
    | (Returned a, w') => (Returned a, w')
    | (Thrown e, w') => handler e w'
    end.

(** [try { body } finally { cleanup }], for a [cleanup] that does not
    throw: the outcome of [body] stands. *)
Definition try_finally {S A} (body : Eff S A) (cleanup : S -> S) : Eff S A :=
  fun w => let '(o, w') := body w in (o, cleanup w').

(** Statements that only update the state. *)
Definition modify {S} (f : S -> S) : Eff S unit := fun w => (Returned tt, f w).

Definition get {S A} (f : S -> A) : Eff S A := fun w => (Returned (f w), w).

(** A computation whose outcome is known: a platform call that may throw,
    or an awaited promise with its settlement. *)
Definition of_outcome {S A} (o : outcome A) : Eff S A := fun w => (o, w).

Declare Scope js_scope.
Delimit Scope js_scope with js.
Notation "x <- m ;; k" := (bind m (fun x => k))
  (at level 100, m at next level, right associativity) : js_scope.
Notation "m ;; k" := (bind m (fun _ => k))
  (at level 100, right associativity) : js_scope.
Local Open Scope js_scope.

Definition exec {S A} (m : Eff S A) (w : S) : S := snd (m w).
Definition result {S A} (m : Eff S A) (w : S) : outcome A := fst (m w).

(** ** JSON values, as produced by [JSON.parse] *)

Inductive JsonValue : Type :=
| JNull
| JBool (b : bool)
| JNumber (n : number)
| JString (s : string)
| JArray (items : list JsonValue)
| JObject (fields : list (string * JsonValue)).

Inductive JsType : Type := TUndefined | TObject | TBoolean | TNumber | TString.

Definition JsType_eqb (a b : JsType) : bool :=
  match a, b with
  | TUndefined, TUndefined | TObject, TObject | TBoolean, TBoolean
  | TNumber, TNumber | TString, TString => true
  | _, _ => false
  end.

(** [typeof v]; [None] stands for [undefined]. [typeof null] is ["object"],
    and so is [typeof] of an array. *)
Definition typeof (v : option JsonValue) : JsType :=
  match v with
  | None => TUndefined
  | Some JNull => TObject
  | Some (JBool _) => TBoolean
  | Some (JNumber _) => TNumber
  | Some (JString _) => TString
  | Some (JArray _) => TObject
  | Some (JObject _) => TObject
  end.

Definition is_null (v : option JsonValue) : bool :=
  match v with Some JNull => true | _ => false end.

Fixpoint assoc_get (fields : list (string * JsonValue)) (name : string)
  : option JsonValue :=
  match fields with
  | [] => None
  | (k, v) :: rest => if String.eqb k name then Some v else assoc_get rest name
  end.

(** Property read [candidate.name] on a parsed value whose [typeof] is
    ["object"] and which is not [null]. A parsed array has index properties
    and [length] only, so the names read by the validator are [undefined]
    on it. *)
Definition get_prop (v : JsonValue) (name : string) : option JsonValue :=
  match v with
  | JObject fields => assoc_get fields name
  | _ => None
  end.

(** ** Data model ([src/api/types]) *)

Inductive IntentType : Type :=
| creative_session | mix_feedback | performance_coaching | analytics_only.

Record SessionMetadata : Type := {
  session_id : string;
  user_id : string;
  intent : IntentType;
  daw : option string;
  key : option string;
  tempo : option number;
  emotional_goal : option string;
  references : list string;
  created_at : string
}.

Record SessionState : Type := {
  metadata : SessionMetadata;
  active : bool;
  attributes : list (string * JsonValue)
}.

Record AudioFrame : Type := {
  frame_session_id : string;
  frame_id : string;
  sample_rate : number;
  channels : number;
  duration_ms : number;
  waveform_base64 : string;
  rms : option number;
  peak : option number;
  timestamp_ms : number
}.

(** The argument of [ensureSession]. [references] is declared as an array;
    the code still defaults it with [??], so a missing value is allowed. *)
Record SessionPayload : Type := {
  p_user_id : string;
  p_intent : IntentType;
  p_daw : option string;
  p_key : option string;
  p_tempo : option number;
  p_emotional_goal : option string;
  p_references : option (list string)
}.

(** The body sent to [api.createSession]:
    [{...payload, references: payload.references ?? []}]. *)
Record CreateRequest : Type := {
  c_user_id : string;
  c_intent : IntentType;
  c_daw : option string;
  c_key : option string;
  c_tempo : option number;
  c_emotional_goal : option string;
  c_references : list string
}.

Definition create_request (p : SessionPayload) : CreateRequest :=
  {| c_user_id := p_user_id p;
     c_intent := p_intent p;
     c_daw := p_daw p;
     c_key := p_key p;
     c_tempo := p_tempo p;
     c_emotional_goal := p_emotional_goal p;
     c_references := default [] (p_references p) |}.

(** ** [resolveWebSocketUrl] ([src/api/client.ts]) *)

(** The components of a parsed [URL] object that the function touches or
    that [toString] prints. *)
Record URL : Type := {
  protocol : string;
  host : string;
  pathname : string;
  search : string;
  hash : string
}.

Definition URL_toString (u : URL) : string :=
  protocol u +:+ "//" +:+ host u +:+ pathname u +:+ search u +:+ hash u.

(** [path.startsWith("/")] *)
Definition startsWith_slash (path : string) : bool := String.prefix "/" path.

Definition resolveWebSocketUrl (baseUrl : URL) (path : string) : string :=
  let url := baseUrl in
  let url :=
    {| protocol := if String.eqb (protocol url) "https:" then "wss:" else "ws:";
       host := host url; pathname := pathname url;
       search := search url; hash := hash url |} in
  let url :=
    {| protocol := protocol url; host := host url;
       pathname := if startsWith_slash path then path else "/" +:+ path;
       search := search url; hash := hash url |} in
  let url :=
    {| protocol := protocol url; host := host url; pathname := pathname url;
       search := ""; hash := hash url |} in
  URL_toString url.

(** ** Browser objects *)

Inductive ReadyState : Type := CONNECTING | OPEN | CLOSING | CLOSED.

Definition ReadyState_eqb (a b : ReadyState) : bool :=
  match a, b with
  | CONNECTING, CONNECTING | OPEN, OPEN | CLOSING, CLOSING | CLOSED, CLOSED => true
  | _, _ => false
  end.

(** A [WebSocket] created by [connectStream sessionId]. Its three handlers
    close over [sessionId], kept here as [ws_session]; [ws_sent] is what
    the client has sent on it. *)
Record WebSocket : Type := {
  ws_url : string;
  readyState : ReadyState;
  ws_session : string;
  ws_sent : list string
}.

(** What a pending timer runs when it fires. The provider has one kind of
    callback: [() => connectStream(sessionId)]. *)
Inductive Callback : Type :=
| CbConnectStream (sessionId : string).

Inductive TimerKind : Type := Timeout | Interval.

Record Timer : Type := {
  timer_kind : TimerKind;
  timer_delay : Z;           (* milliseconds *)
  timer_callback : Callback
}.

(** Calls made through [api] ([src/api/client.ts]); the remote service
    answers each of them with a value or an error. *)
Inductive RemoteCall : Type :=
| CreateSessionCall (body : CreateRequest)
| CloseSessionCall (sessionId : string)
| SubmitAudioCall (sessionId : string) (frame : AudioFrame).

Inductive Toast : Type :=
| ToastSuccess (msg : string)
| ToastError (msg : string).

(** A [console.error] call: its message, and the value or error passed
    along. *)
Inductive ConsoleArg : Type :=
| ArgValue (v : JsonValue)
| ArgError (e : JsError)
| ArgSocketEvent (socket : nat).

Record ConsoleEntry : Type := {
  console_message : string;
  console_arg : ConsoleArg
}.

(** ** The world of [SessionProvider]

    The first six fields are the provider's [useState] cells and [useRef]
    cells; the others are the browser and the outside, as far as the
    provider acts on them. *)
Record World : Type := {
  session : option SessionState;
  isLoading : bool;
  events : list JsonValue;
  socketRef : option nat;
  reconnectTimer : option nat;
  sessionIdRef : option string;
  sockets : gmap nat WebSocket;
  next_socket : nat;
  timers : gmap nat Timer;
  next_timer : nat;
  remote_log : list RemoteCall;
  console : list ConsoleEntry;
  toasts : list Toast
}.

Definition initial_world : World :=
  {| session := None; isLoading := false; events := [];
     socketRef := None; reconnectTimer := None; sessionIdRef := None;
     sockets := ∅; next_socket := 0; timers := ∅; next_timer := 1;
     remote_log := []; console := []; toasts := [] |}.

Definition with_session (v : option SessionState) (w : World) : World :=
  {| session := v; isLoading := isLoading w; events := events w;
     socketRef := socketRef w; reconnectTimer := reconnectTimer w;
     sessionIdRef := sessionIdRef w; sockets := sockets w;
     next_socket := next_socket w; timers := timers w;
     next_timer := next_timer w; remote_log := remote_log w;
     console := console w; toasts := toasts w |}.

Definition with_isLoading (v : bool) (w : World) : World :=
  {| session := session w; isLoading := v; events := events w;
     socketRef := socketRef w; reconnectTimer := reconnectTimer w;
     sessionIdRef := sessionIdRef w; sockets := sockets w;
     next_socket := next_socket w; timers := timers w;
     next_timer := next_timer w; remote_log := remote_log w;
     console := console w; toasts := toasts w |}.

Definition with_events (v : list JsonValue) (w : World) : World :=
  {| session := session w; isLoading := isLoading w; events := v;
     socketRef := socketRef w; reconnectTimer := reconnectTimer w;
     sessionIdRef := sessionIdRef w; sockets := sockets w;
     next_socket := next_socket w; timers := timers w;
     next_timer := next_timer w; remote_log := remote_log w;
     console := console w; toasts := toasts w |}.

Definition with_socketRef (v : option nat) (w : World) : World :=
  {| session := session w; isLoading := isLoading w; events := events w;
     socketRef := v; reconnectTimer := reconnectTimer w;
     sessionIdRef := sessionIdRef w; sockets := sockets w;
     next_socket := next_socket w; timers := timers w;
     next_timer := next_timer w; remote_log := remote_log w;
     console := console w; toasts := toasts w |}.

Definition with_reconnectTimer (v : option nat) (w : World) : World :=
  {| session := session w; isLoading := isLoading w; events := events w;
     socketRef := socketRef w; reconnectTimer := v;
     sessionIdRef := sessionIdRef w; sockets := sockets w;
     next_socket := next_socket w; timers := timers w;
     next_timer := next_timer w; remote_log := remote_log w;
     console := console w; toasts := toasts w |}.

Definition with_sessionIdRef (v : option string) (w : World) : World :=
  {| session := session w; isLoading := isLoading w; events := events w;
     socketRef := socketRef w; reconnectTimer := reconnectTimer w;
     sessionIdRef := v; sockets := sockets w;
     next_socket := next_socket w; timers := timers w;
     next_timer := next_timer w; remote_log := remote_log w;
     console := console w; toasts := toasts w |}.

Definition with_sockets (v : gmap nat WebSocket) (n : nat) (w : World) : World :=
  {| session := session w; isLoading := isLoading w; events := events w;
     socketRef := socketRef w; reconnectTimer := reconnectTimer w;
     sessionIdRef := sessionIdRef w; sockets := v;
     next_socket := n; timers := timers w;
     next_timer := next_timer w; remote_log := remote_log w;
     console := console w; toasts := toasts w |}.

Definition with_timers (v : gmap nat Timer) (n : nat) (w : World) : World :=
  {| session := session w; isLoading := isLoading w; events := events w;
     socketRef := socketRef w; reconnectTimer := reconnectTimer w;
     sessionIdRef := sessionIdRef w; sockets := sockets w;
     next_socket := next_socket w; timers := v;
     next_timer := n; remote_log := remote_log w;
     console := console w; toasts := toasts w |}.

Definition with_remote_log (v : list RemoteCall) (w : World) : World :=
  {| session := session w; isLoading := isLoading w; events := events w;
     socketRef := socketRef w; reconnectTimer := reconnectTimer w;
     sessionIdRef := sessionIdRef w; sockets := sockets w;
     next_socket := next_socket w; timers := timers w;
     next_timer := next_timer w; remote_log := v;
     console := console w; toasts := toasts w |}.

Definition with_console (v : list ConsoleEntry) (w : World) : World :=
  {| session := session w; isLoading := isLoading w; events := events w;
     socketRef := socketRef w; reconnectTimer := reconnectTimer w;
     sessionIdRef := sessionIdRef w; sockets := sockets w;
     next_socket := next_socket w; timers := timers w;
     next_timer := next_timer w; remote_log := remote_log w;
     console := v; toasts := toasts w |}.

Definition with_toasts (v : list Toast) (w : World) : World :=
  {| session := session w; isLoading := isLoading w; events := events w;
     socketRef := socketRef w; reconnectTimer := reconnectTimer w;
     sessionIdRef := sessionIdRef w; sockets := sockets w;
     next_socket := next_socket w; timers := timers w;
     next_timer := next_timer w; remote_log := remote_log w;
     console := console w; toasts := v |}.

(** Code of the provider runs on its world. *)
Definition Js (A : Type) : Type := Eff World A.

(** ** Platform functions used by the provider *)

(** [new WebSocket(url)] inside [connectStream sessionId]. *)
Definition new_WebSocket (url sessionId : string) : Js nat :=
  fun w =>
    let id := next_socket w in
    let socket :=
      {| ws_url := url; readyState := CONNECTING;
         ws_session := sessionId; ws_sent := [] |} in
    (Returned id, with_sockets (<[id := socket]> (sockets w)) (S id) w).

Definition set_readyState (r : ReadyState) (s : WebSocket) : WebSocket :=
  {| ws_url := ws_url s; readyState := r;
     ws_session := ws_session s; ws_sent := ws_sent s |}.

(** [socket.close()]: a connecting or open socket starts closing; its
    [close] event is delivered later. *)
Definition closing (s : WebSocket) : WebSocket :=
  match readyState s with
  | CONNECTING | OPEN => set_readyState CLOSING s
  | CLOSING | CLOSED => s
  end.

Definition WebSocket_close (socket : nat) : Js unit :=
  modify (fun w => with_sockets (alter closing socket (sockets w)) (next_socket w) w).

(** [window.setTimeout(callback, delay)] *)
Definition setTimeout (callback : Callback) (delay : Z) : Js nat :=
  fun w =>
    let id := next_timer w in
    let timer :=
      {| timer_kind := Timeout; timer_delay := delay;
         timer_callback := callback |} in
    (Returned id, with_timers (<[id := timer]> (timers w)) (S id) w).

(** [window.clearTimeout(id)] *)
Definition clearTimeout (id : nat) : Js unit :=
  modify (fun w => with_timers (delete id (timers w)) (next_timer w) w).

Definition console_error (msg : string) (arg : ConsoleArg) : Js unit :=
  modify (fun w =>
    with_console
      (console w ++ [{| console_message := msg; console_arg := arg |}]) w).

Definition toast (t : Toast) : Js unit :=
  modify (fun w => with_toasts (toasts w ++ [t]) w).

(** [error instanceof Error ? error.message : fallback]; every value thrown
    on these paths is an [Error]. *)
Definition error_text (error : JsError) (fallback : string) : string :=
  match error with Error message => message end.

(** [btoa] on a binary string (one character per byte). *)
Definition b64_alphabet : string :=
  "ABCDEFGHIJKLMNOPQRSTUVWXYZabcdefghijklmnopqrstuvwxyz0123456789+/".

Definition b64_digit (n : N) : ascii :=
  default "="%char (String.get (N.to_nat n) b64_alphabet).

Fixpoint btoa (binary : string) : string :=
  match binary with
  | EmptyString => EmptyString
  | String a EmptyString =>
      let x := N_of_ascii a in
      String (b64_digit (N.shiftr x 2))
        (String (b64_digit (N.shiftl (N.land x 3) 4)) "==")
  | String a (String b EmptyString) =>
      let x := N_of_ascii a in
      let y := N_of_ascii b in
      String (b64_digit (N.shiftr x 2))
        (String (b64_digit (N.lor (N.shiftl (N.land x 3) 4) (N.shiftr y 4)))
           (String (b64_digit (N.shiftl (N.land y 15) 2)) "="))
  | String a (String b (String c rest)) =>
      let x := N_of_ascii a in
      let y := N_of_ascii b in
      let z := N_of_ascii c in
      String (b64_digit (N.shiftr x 2))
        (String (b64_digit (N.lor (N.shiftl (N.land x 3) 4) (N.shiftr y 4)))
           (String (b64_digit (N.lor (N.shiftl (N.land y 15) 2) (N.shiftr z 6)))
              (String (b64_digit (N.land z 63)) (btoa rest))))
  end.

(** A [Float32Array] that views its whole buffer: the 32-bit patterns of
    its elements. *)
Definition Float32Array : Type := list N.

(** [new Uint8Array(buffer.buffer)]: the bytes of the elements, least
    significant first. *)
Definition Uint8Array_of (buffer : Float32Array) : list N :=
  flat_map
    (fun bits =>
       [N.land bits 255; N.land (N.shiftr bits 8) 255;
        N.land (N.shiftr bits 16) 255; N.land (N.shiftr bits 24) 255])
    buffer.

(** [bytes.forEach((byte) => { binary += String.fromCharCode(byte); })] *)
Definition binary_of (bytes : list N) : string :=
  fold_left (fun binary byte => binary +:+ String (ascii_of_N byte) "") bytes "".

(** ** [isSessionEvent] *)

Definition isSessionEvent (value : JsonValue) : bool :=
  if negb (JsType_eqb (typeof (Some value)) TObject) || is_null (Some value)
  then false
  else
    let candidate := value in
    JsType_eqb (typeof (get_prop candidate "session_id")) TString &&
    JsType_eqb (typeof (get_prop candidate "source")) TString &&
    JsType_eqb (typeof (get_prop candidate "target")) TString &&
    JsType_eqb (typeof (get_prop candidate "created_at")) TString &&
    JsType_eqb (typeof (get_prop candidate "payload")) TObject &&
    negb (is_null (get_prop candidate "payload")).

(** ** The remote service, as [api] calls it

    Each call is recorded; its answer is supplied by the caller of the
    model, as the promise settles outside the client. *)

Definition api_call {A} (call : RemoteCall) (answer : outcome A) : Js A :=
  modify (fun w => with_remote_log (remote_log w ++ [call]) w) ;;
  of_outcome answer.

Definition api_createSession (body : CreateRequest)
  (answer : outcome SessionState) : Js SessionState :=
  api_call (CreateSessionCall body) answer.

Definition api_closeSession (sessionId : string)
  (answer : outcome SessionState) : Js SessionState :=
  api_call (CloseSessionCall sessionId) answer.

Definition api_submitAudio (sessionId : string) (frame : AudioFrame)
  (answer : outcome AudioFrame) : Js AudioFrame :=
  api_call (SubmitAudioCall sessionId frame) answer.

(** ** [SessionProvider] ([src/context/SessionContext.tsx])

    The callbacks read the state of the latest render. Each [async]
    callback awaits one promise; it is run in one piece, with the
    settlement of that promise given as an argument. *)

Section SessionProvider.

(** [new URL(baseUrl)], the parsed base address of the remote service. *)
Variable baseUrl : URL.

(** [JSON.parse]: the parsed value, or the [SyntaxError] it throws. *)
Variable JSON_parse : string -> outcome JsonValue.

Definition setEvents (update : list JsonValue -> list JsonValue) : Js unit :=
  modify (fun w => with_events (update (events w)) w).

Definition disconnectStream : Js unit :=
  (current <- get socketRef ;;
   match current with
   | Some socket =>
       (WebSocket_close socket ;;
        modify (with_socketRef None))
   | None => ret tt
   end) ;;
  (timer <- get reconnectTimer ;;
   match timer with
   | Some id =>
       (clearTimeout id ;;
        modify (with_reconnectTimer None))
   | None => ret tt
   end) ;;
  setEvents (fun _ => []).

Definition connectStream (sessionId : string) : Js unit :=
  let url := resolveWebSocketUrl baseUrl ("/ws/sessions/" +:+ sessionId) in
  socket <- new_WebSocket url sessionId ;;
  modify (with_socketRef (Some socket)).

(** [socket.onmessage], with [event.data] as argument. *)
Definition onmessage (data : string) : Js unit :=
  try_catch
    (parsed <- of_outcome (JSON_parse data) ;;
     if isSessionEvent parsed
     then setEvents (fun prev => take 100 (parsed :: prev))
     else console_error "Received malformed session event payload" (ArgValue parsed))
    (fun error => console_error "Failed to parse websocket event" (ArgError error)).

(** [sessionIdRef.current === sessionId] *)
Definition is_current (current : option string) (sessionId : string) : bool :=
  match current with
  | Some id => String.eqb id sessionId
  | None => false
  end.

(** [socket.onclose] of the socket made by [connectStream sessionId]. *)
Definition onclose (sessionId : string) : Js unit :=
  modify (with_socketRef None) ;;
  current <- get sessionIdRef ;;
  if is_current current sessionId
  then
    (id <- setTimeout (CbConnectStream sessionId) 1500 ;;
     modify (with_reconnectTimer (Some id)))
  else ret tt.

(** [socket.onerror] *)
Definition onerror (socket : nat) : Js unit :=
  console_error "WebSocket error" (ArgSocketEvent socket).

(** [!socketRef.current || socketRef.current.readyState !== WebSocket.OPEN] *)
Definition stream_not_open (w : World) : bool :=
  match socketRef w with
  | None => true
  | Some socket =>
      match sockets w !! socket with
      | Some s => negb (ReadyState_eqb (readyState s) OPEN)
      | None => true
      end
  end.

(** [ensureSession(payload)]; [created] is the settlement of
    [api.createSession], used only on the path that awaits it. *)
Definition ensureSession (payload : SessionPayload)
  (created : outcome SessionState) : Js SessionState :=
  stored <- get session ;;
  match stored with
  | Some session =>
      (modify (with_sessionIdRef (Some (session_id (metadata session)))) ;;
       reopen <- get stream_not_open ;;
       (if reopen then connectStream (session_id (metadata session)) else ret tt) ;;
       ret session)
  | None =>
      (modify (with_isLoading true) ;;
       try_finally
         (try_catch
            (state <- api_createSession (create_request payload) created ;;
             modify (with_session (Some state)) ;;
             modify (with_sessionIdRef (Some (session_id (metadata state)))) ;;
             connectStream (session_id (metadata state)) ;;
             toast (ToastSuccess "Session initialized") ;;
             ret state)
            (fun error =>
               toast (ToastError (error_text error "Failed to create session")) ;;
               throw error))
         (with_isLoading false))
  end.

(** [closeSession()]; [closed] is the settlement of [api.closeSession]. *)
Definition closeSession (closed : outcome SessionState) : Js unit :=
  stored <- get session ;;
  match stored with
  | None => ret tt
  | Some session =>
      (modify (with_isLoading true) ;;
       try_finally
         (try_catch
            (state <- api_closeSession (session_id (metadata session)) closed ;;
             modify (with_session (Some state)) ;;
             modify (with_sessionIdRef None) ;;
             disconnectStream ;;
             toast (ToastSuccess "Session closed"))
            (fun error =>
               toast (ToastError (error_text error "Failed to close session")) ;;
               throw error))
         (with_isLoading false))
  end.

(** [(buffer.length / sampleRate) * 1000] *)
Definition durationMs (length : nat) (sampleRate : number) : number :=
  Number.mul (Number.div (Number.of_nat length) sampleRate) (Number.of_Z 1000).

Arguments durationMs : simpl never.

(** [pushAudioFrame(buffer, sampleRate)] as made by a render whose session
    is [stored] (the callback depends on [[session]]); [nano] is what
    [nanoid(32)] returns, [now] what [performance.now()] returns, and [ack]
    the settlement of [api.submitAudio], which is the settlement of the
    call. *)
Definition pushAudioFrame_of (stored : option SessionState)
  (buffer : Float32Array) (sampleRate : number)
  (nano : string) (now : number) (ack : outcome AudioFrame) : Js AudioFrame :=
  match stored with
  | None => throw (Error "Session not initialized")
  | Some session =>
      let frameId := "frame_" +:+ nano in
      let bytes := Uint8Array_of buffer in
      let binary := binary_of bytes in
      let waveform := btoa binary in
      let durationMs := durationMs (length buffer) sampleRate in
      let frame :=
        {| frame_session_id := session_id (metadata session);
           frame_id := frameId;
           sample_rate := sampleRate;
           channels := Number.of_Z 1;
           duration_ms := durationMs;
           waveform_base64 := waveform;
           rms := None;
           peak := None;
           timestamp_ms := now |} in
      api_submitAudio (session_id (metadata session)) frame ack
  end.

(** [pushAudioFrame] of the current render. *)
Definition pushAudioFrame (buffer : Float32Array) (sampleRate : number)
  (nano : string) (now : number) (ack : outcome AudioFrame) : Js AudioFrame :=
  stored <- get session ;;
  pushAudioFrame_of stored buffer sampleRate nano now ack.

(** *** What the browser and the user do to the provider *)

Inductive Label : Type :=
| CallEnsureSession (payload : SessionPayload) (created : outcome SessionState)
| CallCloseSession (closed : outcome SessionState)
| CallPushAudioFrame (buffer : Float32Array) (sampleRate : number)
    (nano : string) (now : number) (ack : outcome AudioFrame)
| SocketOpens (socket : nat)
| SocketMessage (socket : nat) (data : string)
| SocketError (socket : nat)
| SocketCloses (socket : nat)
| TimerFires (timer : nat)
| Unmount.

Definition run_callback (cb : Callback) : Js unit :=
  match cb with
  | CbConnectStream sessionId => connectStream sessionId
  end.

(** One step. A socket event is delivered only to a socket that is in a
    state to receive it, a timer fires only while it is pending; otherwise
    nothing happens. *)
Definition step (l : Label) (w : World) : World :=
  match l with
  | CallEnsureSession payload created => exec (ensureSession payload created) w
  | CallCloseSession closed => exec (closeSession closed) w
  | CallPushAudioFrame buffer sampleRate nano now ack =>
      exec (pushAudioFrame buffer sampleRate nano now ack) w
  | SocketOpens socket =>
      match sockets w !! socket with
      | Some s =>
          match readyState s with
          | CONNECTING =>
              with_sockets (<[socket := set_readyState OPEN s]> (sockets w))
                (next_socket w) w
          | _ => w
          end
      | None => w
      end
  | SocketMessage socket data =>
      match sockets w !! socket with
      | Some s =>
          match readyState s with
          | OPEN => exec (onmessage data) w
          | _ => w
          end
      | None => w
      end
  | SocketError socket =>
      match sockets w !! socket with
      | Some s => exec (onerror socket) w
      | None => w
      end
  | SocketCloses socket =>
      match sockets w !! socket with
      | Some s =>
          match readyState s with
          | CLOSED => w
          | _ =>
              exec (onclose (ws_session s))
                (with_sockets (<[socket := set_readyState CLOSED s]> (sockets w))
                   (next_socket w) w)
          end
      | None => w
      end
  | TimerFires timer =>
      match timers w !! timer with
      | Some t =>
          exec (run_callback (timer_callback t))
            (with_timers (delete timer (timers w)) (next_timer w) w)
      | None => w
      end
  | Unmount => exec disconnectStream w
  end.

Definition run (ls : list Label) (w : World) : World :=
  fold_left (fun w l => step l w) ls w.

End SessionProvider.

(** ** [useLiveAudioCapture] ([src/hooks/useVoiceRenderer.ts], third part) *)

Module LiveAudioCapture.

Record MediaStream : Type := {
  stream_handle : nat;
  stream_tracks : list nat          (* [stream.getTracks()] *)
}.

Record AudioContext : Type := {
  context_handle : nat;
  context_sampleRate : number
}.

(** What [processor.onaudioprocess] closes over: the [pushAudioFrame] of the
    render in which [startCapture] ran, that is, the session of that
    render, and the audio context. *)
Record Handler : Type := {
  handler_session : option SessionState;
  handler_context : AudioContext
}.

(** Operations on the media resources, in the order they are performed. *)
Inductive AudioAction : Type :=
| GetUserMedia (stream : MediaStream)
| NewAudioContext (context : AudioContext)
| CreateMediaStreamSource (source : nat) (context : nat) (stream : nat)
| CreateScriptProcessor (processor : nat) (bufferSize inputs outputs : nat)
| SetOnAudioProcess (processor : nat) (handler : Handler)
| ConnectSource (source processor : nat)
| ConnectDestination (processor : nat) (context : nat)
| ProcessorDisconnect (processor : nat)
| SourceDisconnect (source : nat)
| ContextClose (context : nat)
| TrackStop (track : nat).

Record Hook : Type := {
  isCapturing : bool;
  audioContextRef : option AudioContext;
  processorRef : option nat;
  sourceRef : option nat;
  streamRef : option MediaStream;
  actions : list AudioAction;
  console : list ConsoleEntry;
  toasts : list Toast
}.

Definition initial_hook : Hook :=
  {| isCapturing := false; audioContextRef := None; processorRef := None;
     sourceRef := None; streamRef := None;
     actions := []; console := []; toasts := [] |}.

Definition perform (a : list AudioAction) : Eff Hook unit :=
  modify (fun h =>
    {| isCapturing := isCapturing h; audioContextRef := audioContextRef h;
       processorRef := processorRef h; sourceRef := sourceRef h;
       streamRef := streamRef h; actions := actions h ++ a;
       console := console h; toasts := toasts h |}).

Definition set_refs (context : option AudioContext) (processor source : option nat)
  (stream : option MediaStream) : Eff Hook unit :=
  modify (fun h =>
    {| isCapturing := isCapturing h; audioContextRef := context;
       processorRef := processor; sourceRef := source;
       streamRef := stream; actions := actions h;
       console := console h; toasts := toasts h |}).

Definition setIsCapturing (v : bool) : Eff Hook unit :=
  modify (fun h =>
    {| isCapturing := v; audioContextRef := audioContextRef h;
       processorRef := processorRef h; sourceRef := sourceRef h;
       streamRef := streamRef h; actions := actions h;
       console := console h; toasts := toasts h |}).

Definition hook_console_error (msg : string) (error : JsError) : Eff Hook unit :=
  modify (fun h =>
    {| isCapturing := isCapturing h; audioContextRef := audioContextRef h;
       processorRef := processorRef h; sourceRef := sourceRef h;
       streamRef := streamRef h; actions := actions h;
       console := console h ++
         [{| console_message := msg; console_arg := ArgError error |}];
       toasts := toasts h |}).

Definition hook_toast (t : Toast) : Eff Hook unit :=
  modify (fun h =>
    {| isCapturing := isCapturing h; audioContextRef := audioContextRef h;
       processorRef := processorRef h; sourceRef := sourceRef h;
       streamRef := streamRef h; actions := actions h;
       console := console h; toasts := toasts h ++ [t] |}).

(** [ref.current?.operation()]: nothing is done on an empty ref. *)
Definition on_ref {A} (ref : option A) (operation : A -> list AudioAction)
  : list AudioAction :=
  match ref with
  | Some target => operation target
  | None => []
  end.

Definition stopCapture : Eff Hook unit :=
  (processor <- get processorRef ;;
   perform (on_ref processor (fun p => [ProcessorDisconnect p]))) ;;
  (source <- get sourceRef ;;
   perform (on_ref source (fun s => [SourceDisconnect s]))) ;;
  (context <- get audioContextRef ;;
   perform (on_ref context (fun c => [ContextClose (context_handle c)]))) ;;
  (stream <- get streamRef ;;
   perform (on_ref stream (fun s => map TrackStop (stream_tracks s)))) ;;
  set_refs None None None None ;;
  setIsCapturing false.

(** What the platform answers while [startCapture] acquires its resources:
    the stream of [getUserMedia], and the handles of the audio context, of
    the source node and of the processor node, or the error thrown
    instead. *)
Record Devices : Type := {
  getUserMedia : outcome MediaStream;
  new_AudioContext : outcome nat;
  createMediaStreamSource : outcome nat;
  createScriptProcessor : outcome nat
}.

(** [startCapture()] up to its [await]: the two guards, which test the
    [session] and the [isCapturing] of the render the callback was made
    in. The result tells whether the call goes on to ask for the
    microphone. Nothing is written before the [await]. *)
Definition startCapture_guard (session : option SessionState) (capturing : bool)
  : Eff Hook bool :=
  match session with
  | None =>
      hook_toast (ToastError "Session must be active before capturing audio.") ;;
      ret false
  | Some _ => ret (negb capturing)
  end.

(** [startCapture()] from the moment [getUserMedia] settles: the rest of
    the [try] block, or the [catch] block. Neither the flag nor the refs
    are read again; they are written at the end of the [try] block, or by
    the [stopCapture] of the [catch] block. [devices] gives the settlement
    of [getUserMedia] and what the platform answers after it. *)
Definition startCapture_resume (session : option SessionState) (devices : Devices)
  : Eff Hook unit :=
  try_catch
    (stream <- of_outcome (getUserMedia devices) ;;
     perform [GetUserMedia stream] ;;
     handle <- of_outcome (new_AudioContext devices) ;;
     let context :=
       {| context_handle := handle;
          context_sampleRate := Number.of_Z 22050 |} in
     perform [NewAudioContext context] ;;
     source <- of_outcome (createMediaStreamSource devices) ;;
     perform [CreateMediaStreamSource source handle (stream_handle stream)] ;;
     processor <- of_outcome (createScriptProcessor devices) ;;
     perform [CreateScriptProcessor processor 4096 1 1] ;;
     perform [SetOnAudioProcess processor
                {| handler_session := session;
                   handler_context := context |}] ;;
     perform [ConnectSource source processor] ;;
     perform [ConnectDestination processor handle] ;;
     set_refs (Some context) (Some processor) (Some source) (Some stream) ;;
     setIsCapturing true ;;
     hook_toast (ToastSuccess "Live capture started"))
    (fun error =>
       hook_console_error "Failed to start live capture" error ;;
       hook_toast (ToastError "Unable to access microphone.") ;;
       stopCapture).

(** A call of [startCapture()] that nothing overlaps, made in a render
    that shows the hook's current state: the guards, and the rest of the
    call at once. Calls that overlap are run in two steps, see
    [CaptureRun]. *)
Definition startCapture (session : option SessionState) (devices : Devices)
  : Eff Hook unit :=
  capturing <- get isCapturing ;;
  proceed <- startCapture_guard session capturing ;;
  if proceed then startCapture_resume session devices else ret tt.

(** Every resource is granted. *)
Definition granted (devices : Devices) : bool :=
  negb (is_thrown (getUserMedia devices))
  && negb (is_thrown (new_AudioContext devices))
  && negb (is_thrown (createMediaStreamSource devices))
  && negb (is_thrown (createScriptProcessor devices)).

(** The actions that acquire a resource. *)
Definition is_acquisition (a : AudioAction) : bool :=
  match a with
  | GetUserMedia _ | NewAudioContext _
  | CreateMediaStreamSource _ _ _ | CreateScriptProcessor _ _ _ _ => true
  | _ => false
  end.

(** [!session?.active] *)
Definition not_active (session : option SessionState) : bool :=
  match session with
  | Some s => negb (active s)
  | None => true
  end.

(** The effect on [[session, isCapturing, stopCapture]]. *)
Definition autoStopEffect (session : option SessionState) : Eff Hook unit :=
  capturing <- get isCapturing ;;
  if not_active session && capturing then stopCapture else ret tt.

(** [processor.onaudioprocess], run on the provider's world: it submits a
    copy of the input block through the [pushAudioFrame] it closed over,
    and reports a failed submission without passing it on. *)
Definition onaudioprocess (handler : Handler) (input : Float32Array)
  (nano : string) (now : number) (ack : outcome AudioFrame) : Js unit :=
  let copy := input in
  try_catch
    (pushAudioFrame_of (handler_session handler) copy
       (context_sampleRate (handler_context handler)) nano now ack ;;
     ret tt)
    (fun error =>
       console_error "Failed to push live audio frame" (ArgError error) ;;
       toast (ToastError "Live audio frame could not be ingested.")).

(** What [stopCapture] does to the media resources held in the refs, in
    the order it does it. *)
Definition released (h : Hook) : list AudioAction :=
  on_ref (processorRef h) (fun p => [ProcessorDisconnect p])
  ++ on_ref (sourceRef h) (fun s => [SourceDisconnect s])
  ++ on_ref (audioContextRef h) (fun c => [ContextClose (context_handle c)])
  ++ on_ref (streamRef h) (fun s => map TrackStop (stream_tracks s)).

End LiveAudioCapture.

(** ** [ConsciousnessVisualizer]: its stream and its keep-alive ping
    ([src/components/visualization/ConsciousnessVisualizer.tsx]) *)

Module ConsciousnessVisualizer.

Inductive Status : Type := connecting | connected | disconnected.

(** An interval set with [setInterval(callback, period)]; [waited] is the
    time since it was set or last ran, in milliseconds. *)
Record IntervalTimer : Type := {
  period : Z;
  waited : Z
}.

(** The component's state cells, the socket and the interval of its
    connection effect, and what it wrote to the console. *)
Record State : Type := {
  connectionStatus : Status;
  consciousnessState : option JsonValue;
  ws : WebSocket;
  pingInterval : option IntervalTimer;
  console : list string
}.

Definition with_status (c : Status) (v : State) : State :=
  {| connectionStatus := c; consciousnessState := consciousnessState v;
     ws := ws v; pingInterval := pingInterval v; console := console v |}.

Definition with_data (d : option JsonValue) (v : State) : State :=
  {| connectionStatus := connectionStatus v; consciousnessState := d;
     ws := ws v; pingInterval := pingInterval v; console := console v |}.

Definition with_ws (s : WebSocket) (v : State) : State :=
  {| connectionStatus := connectionStatus v;
     consciousnessState := consciousnessState v;
     ws := s; pingInterval := pingInterval v; console := console v |}.

Definition with_interval (t : option IntervalTimer) (v : State) : State :=
  {| connectionStatus := connectionStatus v;
     consciousnessState := consciousnessState v;
     ws := ws v; pingInterval := t; console := console v |}.

Definition log (msg : string) (v : State) : State :=
  {| connectionStatus := connectionStatus v;
     consciousnessState := consciousnessState v;
     ws := ws v; pingInterval := pingInterval v;
     console := console v ++ [msg] |}.

(** The connection effect, run on mount with the component's props. *)
Definition mount (sessionId backendUrl : string) : State :=
  {| connectionStatus := connecting;
     consciousnessState := None;
     ws := {| ws_url := backendUrl +:+ "/consciousness/stream/" +:+ sessionId;
              readyState := CONNECTING; ws_session := sessionId;
              ws_sent := [] |};
     pingInterval := Some {| period := 30000; waited := 0 |};
     console := [] |}.

(** [ws.send(data)] *)
Definition send (data : string) (s : WebSocket) : WebSocket :=
  {| ws_url := ws_url s; readyState := readyState s;
     ws_session := ws_session s; ws_sent := ws_sent s ++ [data] |}.

(** The callback of the interval. *)
Definition ping (v : State) : State :=
  if ReadyState_eqb (readyState (ws v)) OPEN
  then with_ws (send "ping" (ws v)) v
  else v.

Definition onopen (v : State) : State :=
  log "🧠 Consciousness stream connected" (with_status connected v).

(** [ws.onmessage]: [JSON.parse] is not guarded here, so its error leaves
    the handler. *)
Definition onmessage (JSON_parse : string -> outcome JsonValue)
  (data : string) : Eff State unit :=
  parsed <- of_outcome (JSON_parse data) ;;
  modify (with_data (Some parsed)).

Definition onerror (v : State) : State :=
  with_status disconnected (log "Consciousness stream error:" v).

Definition onclose (v : State) : State :=
  log "Consciousness stream disconnected" (with_status disconnected v).

(** The cleanup of the effect: [clearInterval(pingInterval); ws.close()]. *)
Definition cleanup (v : State) : State :=
  with_ws (closing (ws v)) (with_interval None v).

(** The socket opens, or it closes, as the browser reports it. *)
Definition socket_opens (v : State) : State :=
  match readyState (ws v) with
  | CONNECTING => onopen (with_ws (set_readyState OPEN (ws v)) v)
  | _ => v
  end.

Definition socket_closes (v : State) : State :=
  match readyState (ws v) with
  | CLOSED => v
  | _ => onclose (with_ws (set_readyState CLOSED (ws v)) v)
  end.

(** [ms] milliseconds pass with no other event: a pending interval runs
    its callback each time its period has gone by. *)
Definition elapse (ms : Z) (v : State) : State :=
  match pingInterval v with
  | None => v
  | Some t =>
      let total := (waited t + ms)%Z in
      let runs := Z.to_nat (total / period t) in
      Nat.iter runs ping
        (with_interval
           (Some {| period := period t; waited := (total mod period t)%Z |}) v)
  end.

End ConsciousnessVisualizer.

(** ** Sequences of inbound messages *)

Section Inbound.

Variable JSON_parse : string -> outcome JsonValue.

(** The handler run on the messages [ds], in the order they arrive. *)
Definition deliver (ds : list string) (w : World) : World :=
  fold_left (fun w data => exec (onmessage JSON_parse data) w) ds w.

(** The messages of [ds] that parse and pass [isSessionEvent], in order of
    arrival. *)
Definition accepted (ds : list string) : list JsonValue :=
  flat_map
    (fun data =>
       match JSON_parse data with
       | Returned parsed => if isSessionEvent parsed then [parsed] else []
       | Thrown _ => []
       end)
    ds.

(** A value that is not a well-shaped event, in the words of the
    specification: one of the four string fields is missing or is not a
    string, or [payload] is missing, is not an object, or is [null]. *)
Definition malformed (value : JsonValue) : Prop :=
  (exists field,
      field ∈ ["session_id"; "source"; "target"; "created_at"]
      /\ typeof (get_prop value field) <> TString)
  \/ typeof (get_prop value "payload") <> TObject
  \/ get_prop value "payload" = Some JNull.

End Inbound.

(** ** Sample data for closed instances *)

Module Sample.

Definition base : URL :=
  {| protocol := "http:"; host := "127.0.0.1:8000"; pathname := "/";
     search := ""; hash := "" |}.

Definition meta (id : string) : SessionMetadata :=
  {| session_id := id; user_id := "artist_01"; intent := creative_session;
     daw := None; key := None; tempo := None; emotional_goal := None;
     references := []; created_at := "2025-11-07T10:00:00Z" |}.

(** What the remote service answers to a create call and to a close call
    for session [id]. *)
Definition opened (id : string) : SessionState :=
  {| metadata := meta id; active := true; attributes := [] |}.

Definition closed (id : string) : SessionState :=
  {| metadata := meta id; active := false; attributes := [] |}.

Definition payload : SessionPayload :=
  {| p_user_id := "artist_01"; p_intent := creative_session; p_daw := None;
     p_key := None; p_tempo := None; p_emotional_goal := None;
     p_references := Some [] |}.

(** A well-formed event, and one without [session_id]. *)
Definition event (source : string) : JsonValue :=
  JObject
    [("session_id", JString "s1"); ("source", JString source);
     ("target", JString "broadcast"); ("payload", JObject []);
     ("created_at", JString "2025-11-07T10:00:01Z")].

Definition event_without_session_id : JsonValue :=
  JObject
    [("source", JString "sound_understanding");
     ("target", JString "broadcast"); ("payload", JObject []);
     ("created_at", JString "2025-11-07T10:00:01Z")].

(** [JSON.parse] on the message texts used below: the text ["first"]
    stands for the JSON text of [event "first"], and likewise ["second"]
    and ["no-session-id"]; ["{}"], ["[]"] and ["null"] are themselves;
    any other text is taken not to be JSON. *)
Definition parse (data : string) : outcome JsonValue :=
  if String.eqb data "first" then Returned (event "first")
  else if String.eqb data "second" then Returned (event "second")
  else if String.eqb data "no-session-id" then Returned event_without_session_id
  else if String.eqb data "{}" then Returned (JObject [])
  else if String.eqb data "[]" then Returned (JArray [])
  else if String.eqb data "null" then Returned JNull
  else Thrown (Error "SyntaxError: Unexpected token").

(** An acknowledged frame, as the remote service returns it. *)
Definition ack (id : string) : AudioFrame :=
  {| frame_session_id := id; frame_id := "frame_x";
     sample_rate := Number.of_Z 22050; channels := Number.of_Z 1;
     duration_ms := durationMs 4096 (Number.of_Z 22050);
     waveform_base64 := ""; rms := None; peak := None;
     timestamp_ms := Number.of_Z 0 |}.

(** The provider after a session ["s1"] was created and its stream
    opened. *)
Definition streaming : World :=
  run base parse
    [CallEnsureSession payload (Returned (opened "s1")); SocketOpens 0]
    initial_world.

End Sample.

(** ** Notions used in the statements *)

(** What [disconnectStream] leaves behind. *)
Definition torn_down (w : World) : World :=
  with_events []
    (match reconnectTimer w with
     | Some id =>
         with_reconnectTimer None
           (with_timers (delete id (timers w)) (next_timer w)
              (match socketRef w with
               | Some socket =>
                   with_socketRef None
                     (with_sockets (alter closing socket (sockets w))
                        (next_socket w) w)
               | None => w
               end))
     | None =>
         match socketRef w with
         | Some socket =>
             with_socketRef None
               (with_sockets (alter closing socket (sockets w))
                  (next_socket w) w)
         | None => w
         end
     end).

Arguments torn_down : simpl never.

(** The world in which the remote close call has been issued. *)
Definition close_requested (stored : SessionState) (w : World) : World :=
  with_remote_log
    (remote_log w ++ [CloseSessionCall (session_id (metadata stored))])
    (with_isLoading true w).

(** The stream is currently connected: the socket held by the provider is
    open. *)
Definition connected (w : World) : Prop :=
  exists socket s,
    socketRef w = Some socket
    /\ sockets w !! socket = Some s
    /\ readyState s = OPEN.

(** The lifecycle of the stored session. *)
Inductive Phase : Type := Uninitialized | Active | Closed.

Definition phase (w : World) : Phase :=
  match session w with
  | None => Uninitialized
  | Some s => if active s then Active else Closed
  end.

(** The transitions [Uninitialized -> Active -> Closed], and staying. *)
Definition allowed (a b : Phase) : bool :=
  match a, b with
  | Uninitialized, Uninitialized | Uninitialized, Active
  | Active, Active | Active, Closed
  | Closed, Closed => true
  | _, _ => false
  end.

(** The remote contract: a created session is active, a closed one is
    not. *)
Definition honours_contract (l : Label) : bool :=
  match l with
  | CallEnsureSession _ (Returned state) => active state
  | CallCloseSession (Returned state) => negb (active state)
  | _ => true
  end.

Definition is_ensure (l : Label) : bool :=
  match l with CallEnsureSession _ _ => true | _ => false end.

(** The timer that [onclose] sets. *)
Definition reconnect_timer (sessionId : string) : Timer :=
  {| timer_kind := Timeout; timer_delay := 1500;
     timer_callback := CbConnectStream sessionId |}.

(** Every pending timer is the one the provider holds in [reconnectTimer]. *)
Definition tracked (w : World) : Prop :=
  forall id t, timers w !! id = Some t -> reconnectTimer w = Some id.

(** Every pending reconnect is for the session that is current. *)
Definition fenced (w : World) : Prop :=
  forall id t sessionId,
    timers w !! id = Some t ->
    timer_callback t = CbConnectStream sessionId ->
    sessionIdRef w = Some sessionId.

(** How one step changes the table of sockets: not at all, by a new
    socket that has sent nothing, by closing one, or by a change of state
    of one. *)
Inductive socket_update (m : gmap nat WebSocket) : gmap nat WebSocket -> Prop :=
| update_none : socket_update m m
| update_new id url sessionId :
    socket_update m
      (<[id := {| ws_url := url; readyState := CONNECTING;
                  ws_session := sessionId; ws_sent := [] |}]> m)
| update_close id : socket_update m (alter closing id m)
| update_state id r s :
    m !! id = Some s -> socket_update m (<[id := set_readyState r s]> m).

(** How one step changes the pending timers: not at all, by a new
    reconnect timer, or by removing one. *)
Inductive timer_update (m : gmap nat Timer) : gmap nat Timer -> Prop :=
| timers_same : timer_update m m
| timers_set id sessionId :
    timer_update m (<[id := reconnect_timer sessionId]> m)
| timers_removed id : timer_update m (delete id m).

(** No socket has sent anything. *)
Definition silent (w : World) : Prop :=
  forall id s, sockets w !! id = Some s -> ws_sent s = [].

(** A keep-alive is scheduled: some pending timer is an interval of
    30000 ms. *)
Definition ping_scheduled (w : World) : Prop :=
  exists id t,
    timers w !! id = Some t /\ timer_kind t = Interval /\ timer_delay t = 30000%Z.

Definition only_reconnects (w : World) : Prop :=
  forall id t, timers w !! id = Some t ->
    timer_kind t = Timeout /\ timer_delay t = 1500%Z.

(** ** Proof tactics *)

(** Unfolding the monad. *)
Ltac js_unfold :=
  unfold exec, result, bind, ret, throw, try_catch, try_finally, modify, get,
    of_outcome in *.

(** Unfolding the provider's callbacks down to updates of the world. *)
Ltac provider_unfold :=
  unfold ensureSession, closeSession, pushAudioFrame, pushAudioFrame_of,
    onmessage, onclose, onerror, disconnectStream, connectStream, run_callback,
    api_createSession, api_closeSession, api_submitAudio, api_call,
    setEvents, new_WebSocket, WebSocket_close, setTimeout, clearTimeout,
    console_error, toast in *;
  js_unfold.

Definition is_close (l : Label) : bool :=
  match l with CallCloseSession _ => true | _ => false end.

(** ** Invariants of the provider *)

(** Every entry of the feed passed [isSessionEvent]. *)
Definition feed_valid (w : World) : Prop :=
  Forall (fun e => isSessionEvent e = true) (events w).

(** The current session id, when set, is the id of the stored session. *)
Definition current_is_stored (w : World) : Prop :=
  forall id,
    sessionIdRef w = Some id ->
    exists s, session w = Some s /\ session_id (metadata s) = id.


(** Every socket was opened on the stream endpoint of its session, under a
    handle that was fresh. *)
Definition endpoints (baseUrl : URL) (w : World) : Prop :=
  forall k s,
    sockets w !! k = Some s ->
    ws_url s = resolveWebSocketUrl baseUrl ("/ws/sessions/" +:+ ws_session s)
    /\ k < next_socket w.

Definition is_create (call : RemoteCall) : bool :=
  match call with CreateSessionCall _ => true | _ => false end.

(** What one step does to the stored session and to the record of remote
    calls: nothing is forgotten, at most one call is added, and a create
    call is added only while no session is stored. *)
Definition session_kept (w w' : World) : Prop :=
  (session w <> None -> session w' <> None)
  /\ (remote_log w' = remote_log w
      \/ exists call,
           remote_log w' = remote_log w ++ [call]
           /\ (is_create call = true -> session w = None)).

(** The steps that come from a socket. *)
Definition is_socket_event (l : Label) : bool :=
  match l with
  | SocketOpens _ | SocketMessage _ _ | SocketError _ | SocketCloses _ => true
  | _ => false
  end.

(** ** [handle] and [api.getLatestMemory] ([src/api/client.ts]) *)

Module ApiClient.

(** A [Response], as far as [handle] reads it: its status, and what
    [text()] and [json()] settle to. *)
Record Response (A : Type) : Type := {
  status : N;
  text : outcome string;
  json : outcome A
}.
Arguments status {A} _.
Arguments text {A} _.
Arguments json {A} _.

(** [response.ok]: the status is in the range 200 to 299. *)
Definition ok {A} (response : Response A) : bool :=
  ((200 <=? status response) && (status response <=? 299))%N.

(** What [handle] may resolve to: the parsed body, or [undefined]. A body
    that may be [null] is a value of an [option] type, [None] being
    [null]. *)
Inductive Reply (A : Type) : Type :=
| Value (a : A)
| Undefined.
Arguments Value {A} a.
Arguments Undefined {A}.

Definition handle {A} (response : Response A) : outcome (Reply A) :=
  if negb (ok response) then
    match text response with
    | Returned message =>
        Thrown
          (Error
             (if String.eqb message ""
              then "Request failed with status " +:+ pretty (status response)
              else message))
    | Thrown error => Thrown error
    end
  else if (status response =? 204)%N then Returned Undefined
  else
    match json response with
    | Returned data => Returned (Value data)
    | Thrown error => Thrown error
    end.

(** [api.getLatestMemory(userId)], given what [fetch] settles to. The body
    is a [MemoryRecord | null]; the [null] returned for a 404 is the same
    value as a body that is [null]. *)
Definition getLatestMemory {A} (fetched : outcome (Response (option A)))
  : outcome (Reply (option A)) :=
  match fetched with
  | Returned response =>
      if (status response =? 404)%N then Returned (Value None)
      else handle response
  | Thrown error => Thrown error
  end.

End ApiClient.

(** ** [useVoiceRenderer] ([src/hooks/useVoiceRenderer.ts], first part) *)

Module VoiceRenderer.

Record RenderInstruction : Type := {
  r_session_id : string;
  render_id : string;
  r_text : string;
  melody : option (list number);
  voice_profile : string;
  dynamics : string;
  format : string
}.

Record RenderedAudio : Type := {
  a_session_id : string;
  a_render_id : string;
  url_or_blob : string;
  a_duration_ms : number;
  loudness : number;
  checksum : string
}.

(** The state cells of the hook, the calls it made to [api.renderVoice]
    and the toasts it raised. *)
Record Hook : Type := {
  render : option RenderedAudio;
  isRendering : bool;
  requests : list (string * RenderInstruction);
  toasts : list Toast
}.

Definition initial_hook : Hook :=
  {| render := None; isRendering := false; requests := []; toasts := [] |}.

Definition setRender (v : option RenderedAudio) (h : Hook) : Hook :=
  {| render := v; isRendering := isRendering h;
     requests := requests h; toasts := toasts h |}.

Definition setIsRendering (v : bool) (h : Hook) : Hook :=
  {| render := render h; isRendering := v;
     requests := requests h; toasts := toasts h |}.

Definition hook_toast (t : Toast) (h : Hook) : Hook :=
  {| render := render h; isRendering := isRendering h;
     requests := requests h; toasts := toasts h ++ [t] |}.

Definition api_renderVoice (sessionId : string) (instruction : RenderInstruction)
  (answer : outcome RenderedAudio) : Eff Hook RenderedAudio :=
  modify (fun h =>
    {| render := render h; isRendering := isRendering h;
       requests := requests h ++ [(sessionId, instruction)];
       toasts := toasts h |}) ;;
  of_outcome answer.

(** [renderVoice(text, profile, dynamics)] in a render whose session is
    [session]; [nano] is what [nanoid(32)] returns and [answer] the
    settlement of [api.renderVoice]. *)
Definition renderVoice (session : option SessionState)
  (text profile dynamics nano : string) (answer : outcome RenderedAudio)
  : Eff Hook unit :=
  match session with
  | None => throw (Error "Session must be active to render voice")
  | Some session =>
      modify (setIsRendering true) ;;
      try_finally
        (try_catch
           (response <-
              api_renderVoice (session_id (metadata session))
                {| r_session_id := session_id (metadata session);
                   render_id := "render_" +:+ nano;
                   r_text := text;
                   melody := None;
                   voice_profile := profile;
                   dynamics := dynamics;
                   format := "wav" |}
                answer ;;
            modify (setRender (Some response)) ;;
            modify (hook_toast (ToastSuccess "Voice render complete")))
           (fun error =>
              modify (hook_toast
                        (ToastError (error_text error "Voice rendering failed"))) ;;
              throw error))
        (setIsRendering false)
  end.

End VoiceRenderer.

(** ** [useGeneration] ([src/hooks/useGeneration.ts]) *)

Module Generation.

Inductive Mode : Type := lyric | melody | metaphor | structure.

Definition Mode_eqb (a b : Mode) : bool :=
  match a, b with
  | lyric, lyric | melody, melody | metaphor, metaphor
  | structure, structure => true
  | _, _ => false
  end.

Record GeneratedItem : Type := {
  item_type : Mode;
  item_payload : list (string * JsonValue);
  confidence : number
}.

Record GenerationBundle : Type := {
  b_session_id : string;
  b_request_id : string;
  outputs : list GeneratedItem
}.

(** The body sent to [api.generate]. *)
Record GenerateRequest : Type := {
  g_session_id : string;
  g_request_id : string;
  g_prompt : string;
  g_modes : list Mode;
  g_emotional_goal : option string;
  g_tempo : option number;
  g_key : option string
}.

Record Hook : Type := {
  bundle : option GenerationBundle;
  isGenerating : bool;
  requests : list (string * GenerateRequest);
  toasts : list Toast
}.

Definition initial_hook : Hook :=
  {| bundle := None; isGenerating := false; requests := []; toasts := [] |}.

Definition setBundle (v : option GenerationBundle) (h : Hook) : Hook :=
  {| bundle := v; isGenerating := isGenerating h;
     requests := requests h; toasts := toasts h |}.

Definition setIsGenerating (v : bool) (h : Hook) : Hook :=
  {| bundle := bundle h; isGenerating := v;
     requests := requests h; toasts := toasts h |}.

Definition hook_toast (t : Toast) (h : Hook) : Hook :=
  {| bundle := bundle h; isGenerating := isGenerating h;
     requests := requests h; toasts := toasts h ++ [t] |}.

Definition api_generate (sessionId : string) (request : GenerateRequest)
  (answer : outcome GenerationBundle) : Eff Hook GenerationBundle :=
  modify (fun h =>
    {| bundle := bundle h; isGenerating := isGenerating h;
       requests := requests h ++ [(sessionId, request)];
       toasts := toasts h |}) ;;
  of_outcome answer.

(** [generate(prompt, modes)] in a render whose session is [session]. *)
Definition generate (session : option SessionState)
  (prompt : string) (modes : list Mode) (nano : string)
  (answer : outcome GenerationBundle) : Eff Hook unit :=
  match session with
  | None => throw (Error "Session must be active to generate content")
  | Some session =>
      modify (setIsGenerating true) ;;
      try_finally
        (try_catch
           (let requestId := "gen_" +:+ nano in
            response <-
              api_generate (session_id (metadata session))
                {| g_session_id := session_id (metadata session);
                   g_request_id := requestId;
                   g_prompt := prompt;
                   g_modes := modes;
                   g_emotional_goal := emotional_goal (metadata session);
                   g_tempo := tempo (metadata session);
                   g_key := key (metadata session) |}
                answer ;;
            modify (setBundle (Some response)) ;;
            modify (hook_toast
                      (ToastSuccess "Imagination engine synthesized new material")))
           (fun error =>
              modify (hook_toast
                        (ToastError (error_text error "Creative generation failed"))) ;;
              throw error))
        (setIsGenerating false)
  end.

End Generation.

(** ** [CreativeImagination]: mode selection and grouping of outputs
    ([src/components/sections/CreativeImagination.tsx]) *)

Module CreativeImagination.

Import Generation.

(** [prev.includes(mode)] *)
Definition includes (prev : list Mode) (mode : Mode) : bool :=
  existsb (fun item => Mode_eqb item mode) prev.

(** The update of [toggleMode(mode)]. *)
Definition toggleMode (mode : Mode) (prev : list Mode) : list Mode :=
  if includes prev mode
  then List.filter (fun item => negb (Mode_eqb item mode)) prev
  else prev ++ [mode].

(** The selection a fresh component starts with, and returns to when
    there is no session. *)
Definition default_modes : list Mode := [lyric; melody; metaphor].

(** [acc[key] = item] on an object whose properties are listed in the
    order they were first set. *)
Fixpoint assign (acc : list (Mode * GeneratedItem)) (key : Mode)
  (item : GeneratedItem) : list (Mode * GeneratedItem) :=
  match acc with
  | [] => [(key, item)]
  | (k, v) :: rest =>
      if Mode_eqb k key then (k, item) :: rest
      else (k, v) :: assign rest key item
  end.

Definition groupedOutputs (bundle : option GenerationBundle)
  : option (list (Mode * GeneratedItem)) :=
  match bundle with
  | None => None
  | Some b =>
      Some (fold_left (fun acc item => assign acc (item_type item) item)
              (outputs b) [])
  end.

End CreativeImagination.

(** ** [AudioPipeline]: the analysis feed it shows
    ([src/components/sections/AudioPipeline.tsx]) *)

Module AudioPipeline.

(** [event.source === name] *)
Definition source_is (name : string) (event : JsonValue) : bool :=
  match get_prop event "source" with
  | Some (JString source) => String.eqb source name
  | _ => false
  end.

(** [events.filter((event) => event.source === "sound_understanding").slice(0, 5)] *)
Definition analysisEvents (events : list JsonValue) : list JsonValue :=
  take 5 (List.filter (source_is "sound_understanding") events).

End AudioPipeline.

(** ** [SessionOverview]: the payload it submits ([src/unnamed/part_003]) *)

Module SessionOverview.

Record FormValues : Type := {
  f_user_id : string;
  f_intent : IntentType;
  f_daw : option string;
  f_key : option string;
  f_tempo : option number;
  f_emotional_goal : option string;
  f_references : list string
}.

(** Truthiness of a number: zero and [NaN] are falsy. *)
Definition truthy (n : number) : bool :=
  match n with
  | S754_zero _ | S754_nan => false
  | _ => true
  end.

(** [{...values, tempo: values.tempo ? Number(values.tempo) : undefined}] *)
Definition submitted (values : FormValues) : SessionPayload :=
  {| p_user_id := f_user_id values;
     p_intent := f_intent values;
     p_daw := f_daw values;
     p_key := f_key values;
     p_tempo :=
       match f_tempo values with
       | Some n => if truthy n then Some n else None
       | None => None
       end;
     p_emotional_goal := f_emotional_goal values;
     p_references := Some (f_references values) |}.

End SessionOverview.

(** The entry of a grouped object under a key. *)
Fixpoint entry_of (acc : list (Generation.Mode * Generation.GeneratedItem))
  (key : Generation.Mode) : option Generation.GeneratedItem :=
  match acc with
  | [] => None
  | (k, v) :: rest =>
      if Generation.Mode_eqb k key then Some v else entry_of rest key
  end.

(** The items of a given type, in order. *)
Definition of_type (key : Generation.Mode)
  (items : list Generation.GeneratedItem) : list Generation.GeneratedItem :=
  List.filter (fun item => Generation.Mode_eqb (Generation.item_type item) key)
    items.

(** The object built by the reducer of [groupedOutputs] from a list of
    items. *)
Definition grouped (items : list Generation.GeneratedItem)
  : list (Generation.Mode * Generation.GeneratedItem) :=
  fold_left
    (fun acc item =>
       CreativeImagination.assign acc (Generation.item_type item) item)
    items [].

(** ** The capture hook over time *)

Module CaptureRun.

Import LiveAudioCapture.

(** The hook of one mounted component, the calls of [startCapture] that
    wait for [getUserMedia], each with the session of its render, and
    whether the component is still mounted. *)
Record Capture : Type := {
  hook : Hook;
  waiting : list SessionState;
  mounted : bool
}.

Definition initial : Capture :=
  {| hook := initial_hook; waiting := []; mounted := true |}.

Definition with_hook (h : Hook) (c : Capture) : Capture :=
  {| hook := h; waiting := waiting c; mounted := mounted c |}.

(** What happens to the hook. [startCapture] is clicked in a render with
    the given session and [isCapturing]; the [getUserMedia] of a waiting
    call settles, and the call runs on; [stopCapture] is called; the
    session effect runs; the component is unmounted. The hook has no
    cleanup, so unmounting releases nothing. *)
Inductive Event : Type :=
| CallStartCapture (session : option SessionState) (capturing : bool)
| MicrophoneSettles (call : nat) (devices : Devices)
| CallStopCapture
| EffectRuns (session : option SessionState)
| Unmounts.

(** One step. The callbacks and the effect of an unmounted component are
    not run any more, but a call that waits runs on when its
    [getUserMedia] settles; a state update of an unmounted component is
    dropped. *)
Definition step (e : Event) (c : Capture) : Capture :=
  match e with
  | CallStartCapture session capturing =>
      if mounted c then
        let '(proceed, h) := startCapture_guard session capturing (hook c) in
        {| hook := h;
           waiting :=
             match proceed, session with
             | Returned true, Some stored => waiting c ++ [stored]
             | _, _ => waiting c
             end;
           mounted := mounted c |}
      else c
  | MicrophoneSettles call devices =>
      match waiting c !! call with
      | Some stored =>
          let h := exec (startCapture_resume (Some stored) devices) (hook c) in
          {| hook :=
               if mounted c then h
               else exec (setIsCapturing (isCapturing (hook c))) h;
             waiting := delete call (waiting c);
             mounted := mounted c |}
      | None => c
      end
  | CallStopCapture =>
      if mounted c then with_hook (exec stopCapture (hook c)) c else c
  | EffectRuns session =>
      if mounted c then with_hook (exec (autoStopEffect session) (hook c)) c
      else c
  | Unmounts => {| hook := hook c; waiting := waiting c; mounted := false |}
  end.

Definition run (es : list Event) (c : Capture) : Capture :=
  fold_left (fun c e => step e c) es c.

(** The events that could release a pipeline: no call of [startCapture]
    is made or runs on. *)
Definition no_start (e : Event) : bool :=
  match e with
  | CallStopCapture | EffectRuns _ | Unmounts => true
  | CallStartCapture _ _ | MicrophoneSettles _ _ => false
  end.

(** Events when no call of [startCapture] overlaps anything: the call is
    made in a render that shows the hook's current state, and its
    [getUserMedia] settles before anything else happens. *)
Inductive Orderly : Type :=
| Start (session : option SessionState) (devices : Devices)
| Stop
| Effect (session : option SessionState).

Definition expand (e : Orderly) (c : Capture) : list Event :=
  match e with
  | Start session devices =>
      [CallStartCapture session (isCapturing (hook c));
       MicrophoneSettles (length (waiting c)) devices]
  | Stop => [CallStopCapture]
  | Effect session => [EffectRuns session]
  end.

Fixpoint run_orderly (es : list Orderly) (c : Capture) : Capture :=
  match es with
  | [] => c
  | e :: es => run_orderly es (run (expand e c) c)
  end.

(** How many of the actions performed satisfy [p]. *)
Definition count (p : AudioAction -> bool) (h : Hook) : nat :=
  length (List.filter p (actions h)).

Definition is_connected (a : AudioAction) : bool :=
  match a with ConnectDestination _ _ => true | _ => false end.

Definition is_processor_disconnect (a : AudioAction) : bool :=
  match a with ProcessorDisconnect _ => true | _ => false end.

Definition is_source_disconnect (a : AudioAction) : bool :=
  match a with SourceDisconnect _ => true | _ => false end.

Definition is_context_close (a : AudioAction) : bool :=
  match a with ContextClose _ => true | _ => false end.

(** All four refs are set, or all four are empty. *)
Definition refs_held (h : Hook) : Prop :=
  (exists context processor source stream,
      audioContextRef h = Some context /\ processorRef h = Some processor
      /\ sourceRef h = Some source /\ streamRef h = Some stream).

Definition refs_empty (h : Hook) : Prop :=
  audioContextRef h = None /\ processorRef h = None
  /\ sourceRef h = None /\ streamRef h = None.

(** The pipelines the hook can still take down: the one in its refs. *)
Definition held (h : Hook) : nat :=
  match processorRef h with
  | Some _ => 1
  | None => 0
  end.

(** The pipeline the flag stands for. *)
Definition live (h : Hook) : nat := if isCapturing h then 1 else 0.

(** The flag agrees with the refs. *)
Definition agrees (h : Hook) : Prop :=
  if isCapturing h then refs_held h else refs_empty h.

(** Nothing was taken down that was not connected before. *)
Definition sound (h : Hook) : Prop :=
  (refs_held h \/ refs_empty h)
  /\ count is_processor_disconnect h + held h <= count is_connected h
  /\ count is_source_disconnect h + held h <= count is_connected h
  /\ count is_context_close h + held h <= count is_connected h.

(** Every pipeline that was connected was taken down, but the one that
    is live. *)
Definition balanced (h : Hook) : Prop :=
  (if isCapturing h then refs_held h else refs_empty h)
  /\ count is_connected h = count is_processor_disconnect h + live h
  /\ count is_connected h = count is_source_disconnect h + live h
  /\ count is_connected h = count is_context_close h + live h.

End CaptureRun.

(** ** The visualizer's stream over time *)

Module VisualizerRun.

Import ConsciousnessVisualizer.

(** What happens to a mounted visualizer: the events of its socket, time
    going by, and the cleanup of its connection effect. *)
Inductive Event : Type :=
| Opens
| Message (data : string)
| Errors
| Closes
| Elapses (ms : Z)
| Unmounts.

Section Run.

Variable JSON_parse : string -> outcome JsonValue.

(** A message is delivered only by an open socket. *)
Definition step (e : Event) (v : State) : State :=
  match e with
  | Opens => socket_opens v
  | Message data =>
      match readyState (ws v) with
      | OPEN => exec (onmessage JSON_parse data) v
      | _ => v
      end
  | Errors => onerror v
  | Closes => socket_closes v
  | Elapses ms => elapse ms v
  | Unmounts => cleanup v
  end.

Definition run (es : list Event) (v : State) : State :=
  fold_left (fun v e => step e v) es v.

End Run.

Definition duration (e : Event) : Z :=
  match e with
  | Elapses ms => ms
  | _ => 0
  end.

(** The time a sequence of events takes. *)
Definition elapsed (es : list Event) : Z :=
  foldr (fun e total => (duration e + total)%Z) 0%Z es.

(** The socket is the one opened on mount; all it was sent are pings, no
    more than one per period of the time gone by; and the status shown is
    not ahead of the socket. *)
Definition paced (sessionId backendUrl : string) (total : Z) (v : State) : Prop :=
  ws_url (ws v) = backendUrl +:+ "/consciousness/stream/" +:+ sessionId
  /\ (exists k : nat,
         ws_sent (ws v) = repeat "ping" k
         /\ match pingInterval v with
            | Some t =>
                period t = 30000%Z
                /\ (0 <= waited t < 30000)%Z
                /\ (30000 * Z.of_nat k + waited t <= total)%Z
            | None => (30000 * Z.of_nat k <= total)%Z
            end)
  /\ (connectionStatus v = connected ->
      readyState (ws v) = OPEN \/ readyState (ws v) = CLOSING)
  /\ (readyState (ws v) = CLOSED -> connectionStatus v = disconnected).

(** The socket is closing or closed. *)
Definition down (v : State) : Prop :=
  readyState (ws v) = CLOSING \/ readyState (ws v) = CLOSED.

End VisualizerRun.

(** The waveform string of a buffer, as [pushAudioFrame] computes it. *)
Definition waveform (buffer : Float32Array) : string :=
  btoa (binary_of (Uint8Array_of buffer)).

(** ** The action buttons of the sections *)

(** [Button] ([src/unnamed/part_002]): the [disabled] attribute of the
    rendered element. *)
Module Button.

(** A prop that may be left out or passed; a passed value may be
    [undefined]. *)
Inductive Passed : Type :=
| absent
| passed (value : option bool).

Definition truthy (value : option bool) : bool := default false value.

(** [props.disabled] *)
Definition read (disabled : Passed) : option bool :=
  match disabled with
  | absent => None
  | passed value => value
  end.

(** [loading || props.disabled] *)
Definition loading_or_disabled (loading : option bool) (disabled : Passed)
  : option bool :=
  if truthy loading then loading else read disabled.

(** The attributes [disabled={loading || props.disabled} {...props}]: a
    key of [props] replaces the attribute written before the spread. *)
Definition disabled_attribute (loading : option bool) (disabled : Passed)
  : option bool :=
  match disabled with
  | absent => loading_or_disabled loading disabled
  | passed value => value
  end.

Definition is_disabled (loading : option bool) (disabled : Passed) : bool :=
  truthy (disabled_attribute loading disabled).

End Button.

(** The click handlers behind the buttons
    ([src/components/sections/VoicePerformance.tsx],
    [src/components/sections/CreativeImagination.tsx]) and the props the
    buttons are rendered with. *)
Module Triggers.

(** [!session] *)
Definition no_session (session : option SessionState) : bool :=
  match session with
  | Some _ => false
  | None => true
  end.

Definition triggerRender (session : option SessionState)
  (text profile dynamics nano : string)
  (answer : outcome VoiceRenderer.RenderedAudio) : Eff VoiceRenderer.Hook unit :=
  try_catch
    (VoiceRenderer.renderVoice session text profile dynamics nano answer)
    (fun error =>
       modify (VoiceRenderer.hook_toast
                 (ToastError (error_text error "Render failed")))).

Definition triggerGeneration (session : option SessionState)
  (prompt : string) (selectedModes : list Generation.Mode) (nano : string)
  (answer : outcome Generation.GenerationBundle) : Eff Generation.Hook unit :=
  try_catch
    (Generation.generate session prompt selectedModes nano answer)
    (fun error =>
       modify (Generation.hook_toast
                 (ToastError (error_text error "Imagination failure")))).

(** [<Button loading={isRendering} disabled={!session}>] *)
Definition render_button_disabled (session : option SessionState)
  (h : VoiceRenderer.Hook) : bool :=
  Button.is_disabled (Some (VoiceRenderer.isRendering h))
    (Button.passed (Some (no_session session))).

(** [<Button loading={isGenerating} disabled={!session}>] *)
Definition generate_button_disabled (session : option SessionState)
  (h : Generation.Hook) : bool :=
  Button.is_disabled (Some (Generation.isGenerating h))
    (Button.passed (Some (no_session session))).

End Triggers.

(** ** [AudioPipeline]: uploading a file
    ([src/components/sections/AudioPipeline.tsx]) *)

Module AudioUpload.

(** What [decodeAudioData] resolves to, as far as the handler reads it. *)
Record Decoded : Type := {
  channelData : Float32Array;       (* [decoded.getChannelData(0)] *)
  decoded_sampleRate : number
}.

(** The component's [lastFrame], the value of its file input, and the
    provider it runs under. *)
Record Panel : Type := {
  lastFrame : option AudioFrame;
  input_value : string;
  provider : World
}.

Definition setLastFrame (v : option AudioFrame) (p : Panel) : Panel :=
  {| lastFrame := v; input_value := input_value p; provider := provider p |}.

(** [input.value = ""] *)
Definition resetInput (p : Panel) : Panel :=
  {| lastFrame := lastFrame p; input_value := ""; provider := provider p |}.

(** Code of the provider and of the platform, run from the component. *)
Definition on_provider {A} (m : Js A) : Eff Panel A :=
  fun p =>
    let '(o, w) := m (provider p) in
    (o, {| lastFrame := lastFrame p; input_value := input_value p;
           provider := w |}).

(** [onFileChange(event)]. [file] is [input.files?.[0]] with, for a file,
    the settlement of creating the audio context, reading the file and
    decoding it; [nano], [now] and [ack] are as for [pushAudioFrame]. *)
Definition onFileChange (file : option (outcome Decoded))
  (nano : string) (now : number) (ack : outcome AudioFrame) : Eff Panel unit :=
  stored <- get (fun p => session (provider p)) ;;
  match stored with
  | None =>
      on_provider (toast (ToastError "Start a session before uploading audio.")) ;;
      modify resetInput
  | Some _ =>
      match file with
      | None => modify resetInput
      | Some decoding =>
          try_finally
            (try_catch
               (decoded <- of_outcome decoding ;;
                frame <- on_provider
                           (pushAudioFrame_of stored (channelData decoded)
                              (decoded_sampleRate decoded) nano now ack) ;;
                modify (setLastFrame (Some frame)) ;;
                on_provider (toast (ToastSuccess "Audio frame ingested")))
               (fun error =>
                  on_provider
                    (toast (ToastError (error_text error "Failed to ingest audio")))))
            resetInput
      end
  end.

End AudioUpload.

(** * Properties *)

(** The two cases of [src/api/__tests__/client.test.ts]. *)
Example resolveWebSocketUrl_http :
  resolveWebSocketUrl
    {| protocol := "http:"; host := "localhost:8000"; pathname := "/";
       search := ""; hash := "" |} "/ws/test"
  = "ws://localhost:8000/ws/test".
Proof. reflexivity. Qed.

Example resolveWebSocketUrl_https :
  resolveWebSocketUrl
    {| protocol := "https:"; host := "api.example.com"; pathname := "/";
       search := ""; hash := "" |} "ws/path"
  = "wss://api.example.com/ws/path".
Proof. reflexivity. Qed.

Example btoa_Man : btoa "Man" = "TWFu" /\ btoa "Ma" = "TWE=" /\ btoa "M" = "TQ==".
Proof. repeat split; reflexivity. Qed.

Section ProviderFacts.

Variable baseUrl : URL.
Variable JSON_parse : string -> outcome JsonValue.

Lemma run_last (ls : list Label) (l : Label) (w : World) :
  run baseUrl JSON_parse (ls ++ [l]) w
  = step baseUrl JSON_parse l (run baseUrl JSON_parse ls w).
Proof. unfold run. rewrite fold_left_app. reflexivity. Qed.

(** *** The event feed *)

Lemma disconnectStream_events (w : World) :
  events (exec disconnectStream w) = [].
Proof.
  unfold disconnectStream, setEvents, WebSocket_close, clearTimeout. js_unfold.
  destruct (socketRef w); simpl; destruct (reconnectTimer w); reflexivity.
Qed.

Lemma connectStream_events (sessionId : string) (w : World) :
  events (exec (connectStream baseUrl sessionId) w) = events w.
Proof. reflexivity. Qed.

Lemma onclose_events (sessionId : string) (w : World) :
  events (exec (onclose sessionId) w) = events w.
Proof.
  unfold onclose, setTimeout. js_unfold. simpl.
  destruct (is_current _ _); reflexivity.
Qed.

Lemma onmessage_events (data : string) (w : World) :
  events (exec (onmessage JSON_parse data) w)
  = match JSON_parse data with
    | Returned parsed =>
        if isSessionEvent parsed then take 100 (parsed :: events w)
        else events w
    | Thrown _ => events w
    end.
Proof.
  unfold onmessage, setEvents, console_error. js_unfold.
  destruct (JSON_parse data) as [parsed|e]; simpl; [|reflexivity].
  destruct (isSessionEvent parsed); reflexivity.
Qed.

Lemma ensureSession_events payload created (w : World) :
  events (exec (ensureSession baseUrl payload created) w) = events w.
Proof.
  unfold ensureSession, api_createSession, api_call, connectStream,
    new_WebSocket, toast.
  js_unfold. simpl.
  destruct (session w); simpl.
  - destruct (stream_not_open _); reflexivity.
  - destruct created; reflexivity.
Qed.

Lemma closeSession_events closed (w : World) :
  events (exec (closeSession closed) w) = events w
  \/ events (exec (closeSession closed) w) = [].
Proof.
  unfold closeSession, api_closeSession, api_call, disconnectStream, setEvents,
    WebSocket_close, clearTimeout, toast.
  js_unfold. simpl.
  destruct (session w); simpl; [|left; reflexivity].
  destruct closed; simpl; [|left; reflexivity].
  destruct (socketRef w); simpl; destruct (reconnectTimer w); right; reflexivity.
Qed.

Lemma pushAudioFrame_events buffer sampleRate nano now ack (w : World) :
  events (exec (pushAudioFrame buffer sampleRate nano now ack) w) = events w.
Proof.
  unfold pushAudioFrame, pushAudioFrame_of, api_submitAudio, api_call.
  js_unfold. simpl.
  destruct (session w); simpl; [destruct ack|]; reflexivity.
Qed.

Lemma step_events_bounded (l : Label) (w : World) :
  length (events w) <= 100 ->
  length (events (step baseUrl JSON_parse l w)) <= 100.
Proof.
  intros Hw. destruct l; simpl.
  - rewrite ensureSession_events. exact Hw.
  - destruct (closeSession_events closed w) as [-> | ->]; simpl; [exact Hw|lia].
  - rewrite pushAudioFrame_events. exact Hw.
  - destruct (sockets w !! socket) as [s|]; [|exact Hw].
    destruct (readyState s); exact Hw.
  - destruct (sockets w !! socket) as [s|]; [|exact Hw].
    destruct (readyState s); try exact Hw.
    rewrite onmessage_events.
    destruct (JSON_parse data) as [parsed|e]; [|exact Hw].
    destruct (isSessionEvent parsed); [|exact Hw].
    rewrite length_take. lia.
  - destruct (sockets w !! socket) as [s|]; exact Hw.
  - destruct (sockets w !! socket) as [s|]; [|exact Hw].
    destruct (readyState s); try exact Hw; rewrite onclose_events; exact Hw.
  - destruct (timers w !! timer) as [t|]; [|exact Hw].
    destruct (timer_callback t). unfold run_callback.
    rewrite connectStream_events. exact Hw.
  - rewrite disconnectStream_events. simpl. lia.
Qed.

End ProviderFacts.

(** *** Inbound messages *)

Section Messages.

Variable JSON_parse : string -> outcome JsonValue.

Lemma JsType_eqb_eq (a b : JsType) : JsType_eqb a b = true <-> a = b.
Proof. destruct a, b; simpl; split; congruence. Qed.

Lemma JsType_eqb_neq (a b : JsType) : JsType_eqb a b = false <-> a <> b.
Proof. destruct a, b; simpl; split; congruence. Qed.

Lemma is_null_false (v : option JsonValue) :
  is_null v = false <-> v <> Some JNull.
Proof.
  destruct v as [[]|]; simpl; split; congruence.
Qed.

Lemma malformed_rejected (value : JsonValue) :
  malformed value -> isSessionEvent value = false.
Proof.
  unfold isSessionEvent.
  destruct (negb (JsType_eqb (typeof (Some value)) TObject)
            || is_null (Some value)); [reflexivity|].
  intros [(field & Hin & Hty) | [Hty | Hnull]].
  - apply JsType_eqb_neq in Hty.
    repeat (apply elem_of_cons in Hin as [-> | Hin];
            [rewrite Hty; simpl; rewrite ?andb_false_r; reflexivity|]).
    apply elem_of_nil in Hin. contradiction.
  - apply JsType_eqb_neq in Hty. rewrite Hty. simpl.
    rewrite ?andb_false_r. reflexivity.
  - rewrite Hnull. simpl. rewrite ?andb_false_r. reflexivity.
Qed.

Lemma rejected_malformed (value : JsonValue) :
  isSessionEvent value = false -> malformed value.
Proof.
  unfold isSessionEvent, malformed.
  destruct value; simpl;
    try (intros _; left; exists "session_id"; split;
         [set_solver | simpl; congruence]).
  intros H.
  repeat (apply andb_false_iff in H as [H | H]).
  - left. exists "session_id". split; [set_solver | by apply JsType_eqb_neq].
  - left. exists "source". split; [set_solver | by apply JsType_eqb_neq].
  - left. exists "target". split; [set_solver | by apply JsType_eqb_neq].
  - left. exists "created_at". split; [set_solver | by apply JsType_eqb_neq].
  - right. left. by apply JsType_eqb_neq.
  - right. right. apply negb_false_iff in H.
    destruct (assoc_get fields "payload") as [[]|]; simpl in H; congruence.
Qed.

(** The validator looks at [typeof] only: an array passes for [payload],
    and further fields are allowed. *)
Example array_payload_accepted :
  isSessionEvent
    (JObject
       [("session_id", JString "s1"); ("source", JString "lyrics");
        ("target", JString "broadcast"); ("payload", JArray []);
        ("created_at", JString "2025-11-07T10:00:01Z");
        ("extra", JNull)])
  = true.
Proof. reflexivity. Qed.

Lemma onmessage_accepts (data : string) (parsed : JsonValue) (w : World) :
  JSON_parse data = Returned parsed ->
  isSessionEvent parsed = true ->
  onmessage JSON_parse data w
  = (Returned tt, with_events (take 100 (parsed :: events w)) w).
Proof.
  intros Hp Hv. unfold onmessage, setEvents. js_unfold.
  rewrite Hp. simpl. rewrite Hv. reflexivity.
Qed.

Lemma onmessage_rejects (data : string) (parsed : JsonValue) (w : World) :
  JSON_parse data = Returned parsed ->
  isSessionEvent parsed = false ->
  onmessage JSON_parse data w
  = (Returned tt,
     with_console
       (console w ++
          [{| console_message := "Received malformed session event payload";
              console_arg := ArgValue parsed |}]) w).
Proof.
  intros Hp Hv. unfold onmessage, console_error. js_unfold.
  rewrite Hp. simpl. rewrite Hv. reflexivity.
Qed.

Lemma onmessage_unparsable (data : string) (error : JsError) (w : World) :
  JSON_parse data = Thrown error ->
  onmessage JSON_parse data w
  = (Returned tt,
     with_console
       (console w ++
          [{| console_message := "Failed to parse websocket event";
              console_arg := ArgError error |}]) w).
Proof.
  intros Hp. unfold onmessage, console_error. js_unfold.
  rewrite Hp. reflexivity.
Qed.

Lemma take_cons_take {A} (n : nat) (x : A) (l : list A) :
  take (S n) (x :: take (S n) l) = take (S n) (x :: l).
Proof.
  simpl. f_equal. rewrite take_take. f_equal. lia.
Qed.

Lemma deliver_last (ds : list string) (data : string) (w : World) :
  deliver JSON_parse (ds ++ [data]) w
  = exec (onmessage JSON_parse data) (deliver JSON_parse ds w).
Proof. unfold deliver. rewrite fold_left_app. reflexivity. Qed.

Lemma accepted_last (ds : list string) (data : string) :
  accepted JSON_parse (ds ++ [data])
  = accepted JSON_parse ds ++ accepted JSON_parse [data].
Proof. unfold accepted. rewrite flat_map_app. reflexivity. Qed.

Lemma deliver_events (ds : list string) (w : World) :
  length (events w) <= 100 ->
  events (deliver JSON_parse ds w)
  = take 100 (rev (accepted JSON_parse ds) ++ events w).
Proof.
  intros Hw. induction ds as [|data ds IH] using rev_ind.
  - simpl. rewrite take_ge; [reflexivity | exact Hw].
  - rewrite deliver_last, accepted_last, rev_app_distr.
    rewrite (onmessage_events JSON_parse). unfold accepted at 1. simpl.
    destruct (JSON_parse data) as [parsed|e]; simpl; [|exact IH].
    destruct (isSessionEvent parsed); simpl; [|exact IH].
    rewrite IH. apply (take_cons_take 99).
Qed.

End Messages.

(** C4. The event feed never exceeds 100 entries: in every world the
    provider can reach the feed has at most 100 entries, and after any
    sequence of inbound messages it holds the accepted ones newest first
    (the latest at position 0), cut to the most recent 100; nothing is
    written to the console for the entries that fall off. *)
Theorem event_feed_bounded (baseUrl : URL)
  (JSON_parse : string -> outcome JsonValue)
  (ls : list Label) (ds : list string) :
  let w := run baseUrl JSON_parse ls initial_world in
  let w' := deliver JSON_parse ds w in
  length (events w) <= 100
  /\ events w' = take 100 (rev (accepted JSON_parse ds) ++ events w)
  /\ length (events w') <= 100
  /\ (forall data parsed,
        JSON_parse data = Returned parsed ->
        isSessionEvent parsed = true ->
        events (exec (onmessage JSON_parse data) w')
        = parsed :: take 99 (events w')
        /\ console (exec (onmessage JSON_parse data) w') = console w').
Proof.
  intros w w'.
  assert (Hw : length (events w) <= 100).
  { subst w. induction ls as [|l ls IH] using rev_ind.
    - simpl. lia.
    - rewrite run_last. apply step_events_bounded. exact IH. }
  assert (Hw' : events w' = take 100 (rev (accepted JSON_parse ds) ++ events w)).
  { apply deliver_events. exact Hw. }
  split; [exact Hw|]. split; [exact Hw'|]. split.
  - rewrite Hw', length_take. lia.
  - intros data parsed Hp Hv. unfold exec.
    rewrite (onmessage_accepts JSON_parse data parsed w' Hp Hv). simpl.
    split; reflexivity.
Qed.

Lemma event_feed_bounded_witness :
  let w := Sample.streaming in
  let w' := deliver Sample.parse ["first"; "oops"; "second"] w in
  events w' = [Sample.event "second"; Sample.event "first"]
  /\ events (exec (onmessage Sample.parse "first") w')
     = [Sample.event "first"; Sample.event "second"; Sample.event "first"].
Proof.
  pose proof (event_feed_bounded Sample.base Sample.parse
                [CallEnsureSession Sample.payload (Returned (Sample.opened "s1"));
                 SocketOpens 0]
                ["first"; "oops"; "second"]) as (_ & Hfeed & _ & Hnext).
  split.
  - exact Hfeed.
  - exact (proj1 (Hnext "first" (Sample.event "first") eq_refl eq_refl)).
Defined.

(** C5. A message that does not parse, or whose value is not a
    well-shaped event, is dropped: the handler returns without throwing,
    the feed is as before, one decode failure is written to the console and
    nothing else in the world changes; a well-formed message that follows
    is at position 0 of the feed. *)
Theorem malformed_message_discarded
  (JSON_parse : string -> outcome JsonValue) (data : string) (w : World) :
  (exists error, JSON_parse data = Thrown error)
  \/ (exists value, JSON_parse data = Returned value /\ malformed value) ->
  let w1 := exec (onmessage JSON_parse data) w in
  result (onmessage JSON_parse data) w = Returned tt
  /\ events w1 = events w
  /\ (exists entry, w1 = with_console (console w ++ [entry]) w)
  /\ (forall data' parsed,
        JSON_parse data' = Returned parsed ->
        isSessionEvent parsed = true ->
        result (onmessage JSON_parse data') w1 = Returned tt
        /\ events (exec (onmessage JSON_parse data') w1) !! 0 = Some parsed).
Proof.
  intros Hbad w1.
  assert (Hrun : exists entry,
             onmessage JSON_parse data w
             = (Returned tt, with_console (console w ++ [entry]) w)).
  { destruct Hbad as [(error & Hp) | (value & Hp & Hm)].
    - eexists. apply onmessage_unparsable. exact Hp.
    - eexists. apply onmessage_rejects; [exact Hp|].
      apply malformed_rejected. exact Hm. }
  destruct Hrun as (entry & Hrun).
  subst w1. unfold exec, result. rewrite Hrun. simpl.
  split; [reflexivity|]. split; [reflexivity|]. split; [by exists entry|].
  intros data' parsed Hp Hv.
  rewrite (onmessage_accepts JSON_parse data' parsed _ Hp Hv). simpl.
  split; reflexivity.
Qed.

Lemma malformed_message_discarded_witness :
  let w1 := exec (onmessage Sample.parse "no-session-id") Sample.streaming in
  events w1 = []
  /\ events (exec (onmessage Sample.parse "first") w1) !! 0
     = Some (Sample.event "first").
Proof.
  assert (Hbad : (exists error, Sample.parse "no-session-id" = Thrown error)
                 \/ (exists value,
                        Sample.parse "no-session-id" = Returned value
                        /\ malformed value)).
  { right. exists Sample.event_without_session_id. split; [reflexivity|].
    left. exists "session_id". split; [set_solver | simpl; congruence]. }
  pose proof (malformed_message_discarded Sample.parse "no-session-id"
                Sample.streaming Hbad) as (_ & Hfeed & _ & Hnext).
  split.
  - exact Hfeed.
  - exact (proj2 (Hnext "first" (Sample.event "first") eq_refl eq_refl)).
Defined.

(** *** Closing a session *)

Lemma disconnectStream_spec (w : World) :
  disconnectStream w = (Returned tt, torn_down w).
Proof.
  unfold disconnectStream, torn_down, setEvents, WebSocket_close, clearTimeout.
  js_unfold.
  destruct (socketRef w); simpl; destruct (reconnectTimer w); reflexivity.
Qed.

Lemma torn_down_refs (w : World) :
  socketRef (torn_down w) = None
  /\ reconnectTimer (torn_down w) = None
  /\ events (torn_down w) = []
  /\ sessionIdRef (torn_down w) = sessionIdRef w
  /\ session (torn_down w) = session w.
Proof.
  unfold torn_down.
  destruct (socketRef w) eqn:Hs; destruct (reconnectTimer w) eqn:Ht; simpl;
    rewrite ?Hs, ?Ht; repeat split; reflexivity.
Qed.

Lemma torn_down_sockets (w : World) :
  sockets (torn_down w)
  = match socketRef w with
    | Some socket => alter closing socket (sockets w)
    | None => sockets w
    end.
Proof.
  unfold torn_down.
  destruct (socketRef w); destruct (reconnectTimer w); reflexivity.
Qed.

Lemma torn_down_timers (w : World) :
  timers (torn_down w)
  = match reconnectTimer w with
    | Some id => delete id (timers w)
    | None => timers w
    end.
Proof.
  unfold torn_down.
  destruct (socketRef w); destruct (reconnectTimer w); reflexivity.
Qed.

Lemma torn_down_outputs (w : World) :
  toasts (torn_down w) = toasts w
  /\ console (torn_down w) = console w
  /\ remote_log (torn_down w) = remote_log w
  /\ isLoading (torn_down w) = isLoading w.
Proof.
  unfold torn_down.
  destruct (socketRef w); destruct (reconnectTimer w); repeat split; reflexivity.
Qed.

Lemma closeSession_uninitialized (answer : outcome SessionState) (w : World) :
  session w = None -> closeSession answer w = (Returned tt, w).
Proof.
  intros Hs. unfold closeSession. js_unfold. rewrite Hs. reflexivity.
Qed.

Lemma closeSession_succeeds (stored state : SessionState) (w : World) :
  session w = Some stored ->
  closeSession (Returned state) w
  = (Returned tt,
     with_isLoading false
       (with_toasts
          (toasts w ++ [ToastSuccess "Session closed"])
          (torn_down
             (with_sessionIdRef None
                (with_session (Some state) (close_requested stored w)))))).
Proof.
  intros Hs.
  unfold closeSession, api_closeSession, api_call, toast, disconnectStream,
    setEvents, WebSocket_close, clearTimeout, torn_down, close_requested.
  js_unfold. rewrite Hs. simpl.
  destruct (socketRef w); simpl; destruct (reconnectTimer w); reflexivity.
Qed.

Lemma closeSession_fails (stored : SessionState) (error : JsError) (w : World) :
  session w = Some stored ->
  closeSession (Thrown error) w
  = (Thrown error,
     with_isLoading false
       (with_toasts
          (toasts w ++ [ToastError (error_text error "Failed to close session")])
          (close_requested stored w))).
Proof.
  intros Hs. unfold closeSession, api_closeSession, api_call, toast.
  js_unfold. rewrite Hs. reflexivity.
Qed.

Lemma closeSession_success_fields (stored state : SessionState) (w : World) :
  session w = Some stored ->
  let w' := exec (closeSession (Returned state)) w in
  session w' = Some state
  /\ sessionIdRef w' = None
  /\ socketRef w' = None
  /\ sockets w'
     = match socketRef w with
       | Some socket => alter closing socket (sockets w)
       | None => sockets w
       end
  /\ reconnectTimer w' = None
  /\ timers w'
     = match reconnectTimer w with
       | Some id => delete id (timers w)
       | None => timers w
       end
  /\ events w' = []
  /\ isLoading w' = false
  /\ remote_log w'
     = remote_log w ++ [CloseSessionCall (session_id (metadata stored))].
Proof.
  intros Hs w'. subst w'. unfold exec.
  rewrite (closeSession_succeeds stored state w Hs).
  unfold torn_down, close_requested. simpl.
  destruct (socketRef w) eqn:Hsock; destruct (reconnectTimer w) eqn:Htimer;
    simpl; rewrite ?Hsock, ?Htimer; repeat split; reflexivity.
Qed.

(** *** Submitting a frame *)

Lemma pushAudioFrame_uninitialized buffer sampleRate nano now ack (w : World) :
  session w = None ->
  pushAudioFrame buffer sampleRate nano now ack w
  = (Thrown (Error "Session not initialized"), w).
Proof.
  intros Hs. unfold pushAudioFrame, pushAudioFrame_of. js_unfold.
  rewrite Hs. reflexivity.
Qed.

Lemma pushAudioFrame_stored buffer sampleRate nano now ack
  (stored : SessionState) (w : World) :
  session w = Some stored ->
  exists frame,
    pushAudioFrame buffer sampleRate nano now ack w
    = (ack,
       with_remote_log
         (remote_log w ++ [SubmitAudioCall (session_id (metadata stored)) frame])
         w)
    /\ frame_session_id frame = session_id (metadata stored)
    /\ frame_id frame = "frame_" +:+ nano
    /\ sample_rate frame = sampleRate
    /\ duration_ms frame = durationMs (length buffer) sampleRate.
Proof.
  intros Hs. unfold pushAudioFrame, pushAudioFrame_of, api_submitAudio, api_call.
  js_unfold. rewrite Hs. simpl.
  eexists. split; [destruct ack; reflexivity|].
  repeat split; reflexivity.
Qed.

(** C1, as stated, fails: after a session was created and then closed with
    success, a frame submission is not rejected; it goes to the remote
    service under the closed session's id and returns its answer. *)
Lemma push_after_close_counterexample :
  let close := closeSession (Returned (Sample.closed "s1")) in
  let w := exec close Sample.streaming in
  let push :=
    pushAudioFrame [0%N; 1065353216%N] (Number.of_Z 22050) "n1"
      (Number.of_Z 0) (Returned (Sample.ack "s1")) in
  result close Sample.streaming = Returned tt
  /\ result push w = Returned (Sample.ack "s1")
  /\ result push w <> Thrown (Error "Session not initialized")
  /\ exists frame,
       remote_log (exec push w)
       = remote_log w ++ [SubmitAudioCall "s1" frame].
Proof.
  repeat split; [discriminate|].
  eexists. reflexivity.
Qed.

(** C1, amended. A frame submission is rejected by the client, with the
    error "Session not initialized" and without a remote call, exactly when
    no session state is stored. After a successful [closeSession] the
    stored state is the one the remote close returned, and a submission is
    passed to the remote service under that session's id and settles as
    the remote call does. *)
Theorem push_rejected_when_uninitialized buffer sampleRate nano now ack
  (w : World) :
  let push := pushAudioFrame buffer sampleRate nano now ack in
  (session w = None ->
   push w = (Thrown (Error "Session not initialized"), w))
  /\ (forall stored, session w = Some stored ->
      result push w = ack
      /\ exists frame,
           remote_log (exec push w)
           = remote_log w
               ++ [SubmitAudioCall (session_id (metadata stored)) frame])
  /\ (forall stored state, session w = Some stored ->
      let w' := exec (closeSession (Returned state)) w in
      result (closeSession (Returned state)) w = Returned tt
      /\ session w' = Some state
      /\ result push w' = ack
      /\ exists frame,
           remote_log (exec push w')
           = remote_log w'
               ++ [SubmitAudioCall (session_id (metadata state)) frame]).
Proof.
  intros push.
  assert (Hstored : forall stored v, session v = Some stored ->
            result push v = ack
            /\ exists frame,
                 remote_log (exec push v)
                 = remote_log v
                     ++ [SubmitAudioCall (session_id (metadata stored)) frame]).
  { intros stored v Hs.
    destruct (pushAudioFrame_stored buffer sampleRate nano now ack stored v Hs)
      as (frame & Hrun & _).
    subst push. unfold result, exec. rewrite Hrun. simpl.
    split; [reflexivity|]. exists frame. reflexivity. }
  split; [|split].
  - apply pushAudioFrame_uninitialized.
  - intros stored Hs. apply Hstored. exact Hs.
  - intros stored state Hs w'.
    assert (Hw' : session w' = Some state).
    { apply (closeSession_success_fields stored state w Hs). }
    split.
    + unfold result. rewrite (closeSession_succeeds stored state w Hs). reflexivity.
    + split; [exact Hw'|]. apply Hstored. exact Hw'.
Qed.

Lemma push_rejected_when_uninitialized_witness :
  pushAudioFrame [0%N] (Number.of_Z 22050) "n1" (Number.of_Z 0)
    (Returned (Sample.ack "s1")) initial_world
  = (Thrown (Error "Session not initialized"), initial_world)
  /\ session (exec (closeSession (Returned (Sample.closed "s1"))) Sample.streaming)
     = Some (Sample.closed "s1").
Proof.
  split.
  - exact (proj1 (push_rejected_when_uninitialized [0%N] (Number.of_Z 22050)
                    "n1" (Number.of_Z 0) (Returned (Sample.ack "s1"))
                    initial_world) eq_refl).
  - exact (proj1 (proj2 (proj2 (proj2 (push_rejected_when_uninitialized [0%N]
                    (Number.of_Z 22050) "n1" (Number.of_Z 0)
                    (Returned (Sample.ack "s1")) Sample.streaming))
                    (Sample.opened "s1") (Sample.closed "s1") eq_refl))).
Defined.

(** C2, as stated, fails: when the remote close call errors, the call
    fails and the stream is not torn down; the socket stays open and the
    current session id stays set. *)
Lemma close_failure_counterexample :
  let close := closeSession (Thrown (Error "Request failed with status 503")) in
  let w := exec close Sample.streaming in
  result close Sample.streaming
  = Thrown (Error "Request failed with status 503")
  /\ socketRef w = Some 0
  /\ readyState <$> (sockets w !! 0) = Some OPEN
  /\ sessionIdRef w = Some "s1"
  /\ session w = Some (Sample.opened "s1").
Proof. repeat split; reflexivity. Qed.

(** C2, amended. On a stored session, when the remote close call errors,
    [closeSession] fails with that error and does no local teardown: the
    stored session, the current session id, the socket, the reconnect
    timer and the feed are as before. The teardown (socket closed, recorded
    reconnect timer cancelled, feed cleared, stored state replaced by the
    closed one) is done when the remote close call succeeded. In both cases
    the loading flag is reset. *)
Theorem close_teardown_on_success_only (stored : SessionState) (w : World) :
  session w = Some stored ->
  (forall error,
      let w' := exec (closeSession (Thrown error)) w in
      result (closeSession (Thrown error)) w = Thrown error
      /\ session w' = session w
      /\ sessionIdRef w' = sessionIdRef w
      /\ socketRef w' = socketRef w
      /\ sockets w' = sockets w
      /\ reconnectTimer w' = reconnectTimer w
      /\ timers w' = timers w
      /\ events w' = events w
      /\ isLoading w' = false)
  /\ (forall state,
      let w' := exec (closeSession (Returned state)) w in
      result (closeSession (Returned state)) w = Returned tt
      /\ session w' = Some state
      /\ sessionIdRef w' = None
      /\ socketRef w' = None
      /\ sockets w'
         = match socketRef w with
           | Some socket => alter closing socket (sockets w)
           | None => sockets w
           end
      /\ reconnectTimer w' = None
      /\ timers w'
         = match reconnectTimer w with
           | Some id => delete id (timers w)
           | None => timers w
           end
      /\ events w' = []
      /\ isLoading w' = false).
Proof.
  intros Hs. split.
  - intros error w'. subst w'. unfold exec, result.
    rewrite (closeSession_fails stored error w Hs). simpl.
    repeat split; reflexivity.
  - intros state w'.
    destruct (closeSession_success_fields stored state w Hs)
      as (H1 & H2 & H3 & H4 & H5 & H6 & H7 & H8 & _).
    split.
    + unfold result. rewrite (closeSession_succeeds stored state w Hs).
      reflexivity.
    + repeat split; assumption.
Qed.

Lemma close_teardown_on_success_only_witness :
  (let w' := exec (closeSession (Thrown (Error "unavailable"))) Sample.streaming in
   socketRef w' = Some 0 /\ sessionIdRef w' = Some "s1")
  /\ (let w' := exec (closeSession (Returned (Sample.closed "s1"))) Sample.streaming in
      socketRef w' = None /\ sessionIdRef w' = None
      /\ readyState <$> (sockets w' !! 0) = Some CLOSING).
Proof.
  destruct (close_teardown_on_success_only (Sample.opened "s1") Sample.streaming
              eq_refl) as [Hfail Hok].
  split.
  - destruct (Hfail (Error "unavailable")) as (_ & _ & Hid & Hsock & _).
    split; [exact Hsock | exact Hid].
  - destruct (Hok (Sample.closed "s1")) as (_ & _ & Hid & Hsock & Hmap & _).
    split; [exact Hsock|]. split; [exact Hid|].
    cbv zeta in Hmap. rewrite Hmap. reflexivity.
Defined.

(** *** Ensuring a session *)

Section EnsureFacts.

Variable baseUrl : URL.
Variable JSON_parse : string -> outcome JsonValue.

Lemma ensureSession_stored payload created (stored : SessionState) (w : World) :
  session w = Some stored ->
  let id := session_id (metadata stored) in
  ensureSession baseUrl payload created w
  = (Returned stored,
     if stream_not_open w
     then exec (connectStream baseUrl id) (with_sessionIdRef (Some id) w)
     else with_sessionIdRef (Some id) w).
Proof.
  intros Hs id. provider_unfold. rewrite Hs. simpl.
  replace (stream_not_open (with_sessionIdRef _ w)) with (stream_not_open w)
    by reflexivity.
  destruct (stream_not_open w); reflexivity.
Qed.

Lemma ensureSession_creates payload (state : SessionState) (w : World) :
  session w = None ->
  result (ensureSession baseUrl payload (Returned state)) w = Returned state
  /\ session (exec (ensureSession baseUrl payload (Returned state)) w)
     = Some state
  /\ remote_log (exec (ensureSession baseUrl payload (Returned state)) w)
     = remote_log w ++ [CreateSessionCall (create_request payload)].
Proof.
  intros Hs. provider_unfold. rewrite Hs. simpl. repeat split; reflexivity.
Qed.

Lemma ensureSession_rejected payload (error : JsError) (w : World) :
  session w = None ->
  result (ensureSession baseUrl payload (Thrown error)) w = Thrown error
  /\ session (exec (ensureSession baseUrl payload (Thrown error)) w) = None.
Proof.
  intros Hs. provider_unfold. rewrite Hs. simpl. split; [reflexivity|exact Hs].
Qed.

Lemma ensureSession_result_stored payload created (first : SessionState)
  (w : World) :
  result (ensureSession baseUrl payload created) w = Returned first ->
  session (exec (ensureSession baseUrl payload created) w) = Some first.
Proof.
  destruct (session w) as [stored|] eqn:Hs.
  - unfold result, exec.
    rewrite (ensureSession_stored payload created stored w Hs). simpl.
    intros [= <-]. destruct (stream_not_open w); simpl; exact Hs.
  - destruct created as [state|error].
    + destruct (ensureSession_creates payload state w Hs) as (Hr & Hstate & _).
      rewrite Hr. intros [= <-]. exact Hstate.
    + destruct (ensureSession_rejected payload error w Hs) as (Hr & _).
      rewrite Hr. discriminate.
Qed.

(** Apart from [closeSession], nothing replaces a stored session. *)
Lemma step_keeps_session (l : Label) (stored : SessionState) (w : World) :
  is_close l = false ->
  session w = Some stored ->
  session (step baseUrl JSON_parse l w) = Some stored.
Proof.
  intros Hl Hs. destruct l; simpl in *; try discriminate.
  - unfold exec. rewrite (ensureSession_stored payload created stored w Hs).
    simpl. destruct (stream_not_open w); simpl; exact Hs.
  - provider_unfold. rewrite Hs. simpl. destruct ack; exact Hs.
  - repeat case_match; simpl; exact Hs.
  - repeat case_match; try exact Hs.
    provider_unfold. repeat case_match; simplify_eq; simpl; exact Hs.
  - repeat case_match; simpl; exact Hs.
  - repeat case_match; try exact Hs;
      provider_unfold; simpl; repeat case_match; simplify_eq; simpl; exact Hs.
  - destruct (timers w !! timer) as [t|]; [|exact Hs].
    destruct (timer_callback t). exact Hs.
  - provider_unfold. repeat case_match; simplify_eq; simpl; exact Hs.
Qed.

Lemma run_keeps_session (ls : list Label) (stored : SessionState) (w : World) :
  forallb (fun l => negb (is_close l)) ls = true ->
  session w = Some stored ->
  session (run baseUrl JSON_parse ls w) = Some stored.
Proof.
  revert w. induction ls as [|l ls IH]; intros w Hls Hs; [exact Hs|].
  simpl in Hls. apply andb_true_iff in Hls as [Hl Hls].
  apply negb_true_iff in Hl. simpl. apply IH; [exact Hls|].
  apply step_keeps_session; assumption.
Qed.

End EnsureFacts.

Lemma stream_not_open_false (w : World) :
  stream_not_open w = false <-> connected w.
Proof.
  unfold stream_not_open, connected. split.
  - destruct (socketRef w) as [socket|]; [|discriminate].
    destruct (sockets w !! socket) as [s|] eqn:Hs; [|discriminate].
    destruct (readyState s) eqn:Hr; try discriminate.
    intros _. exists socket, s. repeat split; assumption.
  - intros (socket & s & -> & -> & ->). reflexivity.
Qed.

Lemma stream_not_open_true (w : World) :
  stream_not_open w = true <-> ~ connected w.
Proof.
  rewrite <- stream_not_open_false. destruct (stream_not_open w); split;
    congruence.
Qed.

(** C6. [ensureSession] is idempotent. On a stored session it returns that
    state and makes no remote call; it opens a new socket for the session
    exactly when the stream is not currently connected. Whatever a first
    call returned, a later call returns the same state (so the same
    [session_id]) as long as no [closeSession] came in between, again
    without a remote call. *)
Theorem ensureSession_idempotent (baseUrl : URL)
  (JSON_parse : string -> outcome JsonValue) :
  (forall payload created stored w,
      session w = Some stored ->
      let id := session_id (metadata stored) in
      let w1 := exec (ensureSession baseUrl payload created) w in
      result (ensureSession baseUrl payload created) w = Returned stored
      /\ remote_log w1 = remote_log w
      /\ session w1 = Some stored
      /\ (connected w -> socketRef w1 = socketRef w /\ sockets w1 = sockets w)
      /\ (~ connected w ->
          socketRef w1 = Some (next_socket w)
          /\ sockets w1
             = <[next_socket w :=
                   {| ws_url :=
                        resolveWebSocketUrl baseUrl ("/ws/sessions/" +:+ id);
                      readyState := CONNECTING;
                      ws_session := id;
                      ws_sent := [] |}]> (sockets w)))
  /\ (forall payload created first w ls payload' created',
      result (ensureSession baseUrl payload created) w = Returned first ->
      forallb (fun l => negb (is_close l)) ls = true ->
      let w1 := exec (ensureSession baseUrl payload created) w in
      let w2 := run baseUrl JSON_parse ls w1 in
      result (ensureSession baseUrl payload' created') w2 = Returned first
      /\ remote_log (exec (ensureSession baseUrl payload' created') w2)
         = remote_log w2).
Proof.
  assert (Hstored : forall payload created stored w,
            session w = Some stored ->
            result (ensureSession baseUrl payload created) w = Returned stored
            /\ remote_log (exec (ensureSession baseUrl payload created) w)
               = remote_log w
            /\ session (exec (ensureSession baseUrl payload created) w)
               = Some stored).
  { intros payload created stored w Hs. unfold result, exec.
    rewrite (ensureSession_stored baseUrl payload created stored w Hs). simpl.
    destruct (stream_not_open w); simpl; repeat split; try reflexivity;
      exact Hs. }
  split.
  - intros payload created stored w Hs id w1.
    destruct (Hstored payload created stored w Hs) as (Hr & Hlog & Hsession).
    split; [exact Hr|]. split; [exact Hlog|]. split; [exact Hsession|].
    subst w1. unfold exec.
    rewrite (ensureSession_stored baseUrl payload created stored w Hs). simpl.
    split.
    + intros Hc. apply stream_not_open_false in Hc. rewrite Hc. simpl.
      split; reflexivity.
    + intros Hc. apply stream_not_open_true in Hc. rewrite Hc. simpl.
      split; reflexivity.
  - intros payload created first w ls payload' created' Hfirst Hls w1 w2.
    assert (Hs : session w2 = Some first).
    { apply run_keeps_session; [exact Hls|].
      apply ensureSession_result_stored. exact Hfirst. }
    destruct (Hstored payload' created' first w2 Hs) as (Hr & Hlog & _).
    split; assumption.
Qed.

Lemma ensureSession_idempotent_witness :
  let again :=
    ensureSession Sample.base Sample.payload (Returned (Sample.opened "s2")) in
  result again Sample.streaming = Returned (Sample.opened "s1")
  /\ remote_log (exec again Sample.streaming) = remote_log Sample.streaming
  /\ sockets (exec again Sample.streaming) = sockets Sample.streaming.
Proof.
  destruct (ensureSession_idempotent Sample.base Sample.parse) as [Hstored _].
  destruct (Hstored Sample.payload (Returned (Sample.opened "s2"))
              (Sample.opened "s1") Sample.streaming eq_refl)
    as (Hr & Hlog & _ & Hopen & _).
  split; [exact Hr|]. split; [exact Hlog|].
  apply Hopen. exists 0, {| ws_url := "ws://127.0.0.1:8000/ws/sessions/s1";
                            readyState := OPEN; ws_session := "s1";
                            ws_sent := [] |}.
  repeat split; reflexivity.
Defined.

(** *** The lifecycle of the stored session *)

Section Lifecycle.

Variable baseUrl : URL.
Variable JSON_parse : string -> outcome JsonValue.

Lemma step_keeps_uninitialized (l : Label) (w : World) :
  is_ensure l = false ->
  session w = None ->
  session (step baseUrl JSON_parse l w) = None.
Proof.
  intros Hl Hs. destruct l; simpl in *; try discriminate.
  - unfold exec. rewrite (closeSession_uninitialized closed w Hs). exact Hs.
  - unfold exec.
    rewrite (pushAudioFrame_uninitialized buffer sampleRate nano now ack w Hs).
    exact Hs.
  - repeat case_match; simpl; exact Hs.
  - repeat case_match; try exact Hs.
    provider_unfold. repeat case_match; simplify_eq; simpl; exact Hs.
  - repeat case_match; simpl; exact Hs.
  - repeat case_match; try exact Hs;
      provider_unfold; simpl; repeat case_match; simplify_eq; simpl; exact Hs.
  - destruct (timers w !! timer) as [t|]; [|exact Hs].
    destruct (timer_callback t). exact Hs.
  - provider_unfold. repeat case_match; simplify_eq; simpl; exact Hs.
Qed.

Lemma step_phase (l : Label) (w : World) :
  honours_contract l = true ->
  allowed (phase w) (phase (step baseUrl JSON_parse l w)) = true.
Proof.
  intros Hl. unfold phase at 1.
  destruct (session w) as [stored|] eqn:Hs.
  - destruct (is_close l) eqn:Hc.
    + destruct l; try discriminate. simpl.
      destruct closed as [state|error].
      * unfold phase.
        rewrite (proj1 (closeSession_success_fields stored state w Hs)).
        simpl in Hl. apply negb_true_iff in Hl. rewrite Hl.
        destruct (active stored); reflexivity.
      * unfold phase, exec. rewrite (closeSession_fails stored error w Hs).
        simpl. rewrite Hs. destruct (active stored); reflexivity.
    + unfold phase.
      rewrite (step_keeps_session baseUrl JSON_parse l stored w Hc Hs).
      destruct (active stored); reflexivity.
  - destruct (is_ensure l) eqn:He.
    + destruct l; try discriminate. simpl.
      destruct created as [state|error].
      * unfold phase.
        rewrite (proj1 (proj2 (ensureSession_creates baseUrl payload state w Hs))).
        simpl in Hl. rewrite Hl. reflexivity.
      * unfold phase.
        rewrite (proj2 (ensureSession_rejected baseUrl payload error w Hs)).
        reflexivity.
    + unfold phase. rewrite (step_keeps_uninitialized l w He Hs). reflexivity.
Qed.

Lemma run_stays_closed (ls : list Label) (w : World) :
  forallb honours_contract ls = true ->
  phase w = Closed ->
  phase (run baseUrl JSON_parse ls w) = Closed.
Proof.
  revert w. induction ls as [|l ls IH]; intros w Hls Hw; [exact Hw|].
  simpl in Hls. apply andb_true_iff in Hls as [Hl Hls].
  simpl. apply IH; [exact Hls|].
  pose proof (step_phase l w Hl) as Hstep. rewrite Hw in Hstep.
  destruct (phase (step baseUrl JSON_parse l w)); try discriminate.
  reflexivity.
Qed.

End Lifecycle.

(** C7, as stated, fails: after a session was created and closed with
    success, [ensureSession] makes no remote create call and returns the
    closed session, with its old id; no new session is stored. *)
Lemma ensure_after_close_counterexample :
  let w :=
    run Sample.base Sample.parse
      [CallEnsureSession Sample.payload (Returned (Sample.opened "s1"));
       SocketOpens 0;
       CallCloseSession (Returned (Sample.closed "s1"))]
      initial_world in
  let again :=
    ensureSession Sample.base Sample.payload (Returned (Sample.opened "s2")) in
  remote_log w
  = [CreateSessionCall (create_request Sample.payload); CloseSessionCall "s1"]
  /\ result again w = Returned (Sample.closed "s1")
  /\ remote_log (exec again w) = remote_log w
  /\ session (exec again w) = Some (Sample.closed "s1").
Proof. vm_compute. repeat split; reflexivity. Qed.

(** C7, amended. With a remote service that answers a create call with an
    active state and a close call with an inactive one, the stored session
    moves along [Uninitialized -> Active -> Closed] only, and once closed
    it stays closed whatever happens next. After a successful
    [closeSession], [ensureSession] makes no remote create call and
    returns the stored closed state as it is, with the same [session_id];
    the provider does not replace it by a new session. *)
Theorem lifecycle_never_reopens (baseUrl : URL)
  (JSON_parse : string -> outcome JsonValue) :
  (forall l w,
      honours_contract l = true ->
      allowed (phase w) (phase (step baseUrl JSON_parse l w)) = true)
  /\ (forall ls w,
      forallb honours_contract ls = true ->
      phase w = Closed ->
      phase (run baseUrl JSON_parse ls w) = Closed)
  /\ (forall stored state payload created w,
      session w = Some stored ->
      let w1 := exec (closeSession (Returned state)) w in
      let w2 := exec (ensureSession baseUrl payload created) w1 in
      result (ensureSession baseUrl payload created) w1 = Returned state
      /\ session w2 = Some state
      /\ remote_log w2 = remote_log w1).
Proof.
  split; [apply step_phase|]. split; [apply run_stays_closed|].
  intros stored state payload created w Hs w1 w2.
  assert (Hs1 : session w1 = Some state)
    by apply (closeSession_success_fields stored state w Hs).
  subst w2. unfold result, exec.
  rewrite (ensureSession_stored baseUrl payload created state w1 Hs1). simpl.
  destruct (stream_not_open w1); simpl; repeat split; try reflexivity;
    exact Hs1.
Qed.

Lemma lifecycle_never_reopens_witness :
  let w1 := exec (closeSession (Returned (Sample.closed "s1"))) Sample.streaming in
  phase Sample.streaming = Active
  /\ phase w1 = Closed
  /\ phase (run Sample.base Sample.parse
              [CallEnsureSession Sample.payload (Returned (Sample.opened "s2"));
               SocketOpens 1; SocketMessage 1 "first"] w1) = Closed
  /\ result (ensureSession Sample.base Sample.payload
               (Returned (Sample.opened "s2"))) w1
     = Returned (Sample.closed "s1").
Proof.
  destruct (lifecycle_never_reopens Sample.base Sample.parse)
    as (_ & Hclosed & Hagain).
  split; [reflexivity|]. split; [reflexivity|]. split.
  - apply Hclosed; reflexivity.
  - exact (proj1 (Hagain (Sample.opened "s1") (Sample.closed "s1")
                    Sample.payload (Returned (Sample.opened "s2"))
                    Sample.streaming eq_refl)).
Defined.

(** *** Disconnects and reconnects *)

Lemma is_current_true (current : option string) (sessionId : string) :
  is_current current sessionId = true <-> current = Some sessionId.
Proof.
  destruct current as [id|]; simpl.
  - rewrite String.eqb_eq. split; congruence.
  - split; discriminate.
Qed.

(** On a disconnect of the current session's stream, a reconnect is set
    to run after 1500 ms and is the one held in [reconnectTimer]. *)
Lemma onclose_current (sessionId : string) (w : World) :
  sessionIdRef w = Some sessionId ->
  let w' := exec (onclose sessionId) w in
  socketRef w' = None
  /\ reconnectTimer w' = Some (next_timer w)
  /\ timers w' = <[next_timer w := reconnect_timer sessionId]> (timers w).
Proof.
  intros Hc. apply is_current_true in Hc. provider_unfold. simpl.
  rewrite Hc. repeat split; reflexivity.
Qed.

(** On a disconnect of a stream whose session is not current any more, no
    reconnect is set. *)
Lemma onclose_stale (sessionId : string) (w : World) :
  sessionIdRef w <> Some sessionId ->
  let w' := exec (onclose sessionId) w in
  socketRef w' = None
  /\ reconnectTimer w' = reconnectTimer w
  /\ timers w' = timers w.
Proof.
  intros Hc. provider_unfold. simpl.
  destruct (is_current (sessionIdRef w) sessionId) eqn:He.
  - apply is_current_true in He. contradiction.
  - repeat split; reflexivity.
Qed.

(** Closing the stream cancels the timer held in [reconnectTimer] and
    clears the feed; when that timer is the only one pending, none is left
    after a successful [closeSession]. *)
Lemma closeSession_cancels_tracked (stored state : SessionState) (w : World) :
  session w = Some stored ->
  tracked w ->
  timers (exec (closeSession (Returned state)) w) = ∅.
Proof.
  intros Hs Ht.
  destruct (closeSession_success_fields stored state w Hs)
    as (_ & _ & _ & _ & _ & Htimers & _).
  cbv zeta in Htimers. rewrite Htimers.
  apply map_eq. intros id. rewrite lookup_empty.
  destruct (reconnectTimer w) as [held|] eqn:Hheld.
  - destruct (decide (id = held)) as [->|Hne].
    + apply lookup_delete_eq.
    + rewrite lookup_delete_ne by congruence.
      destruct (timers w !! id) as [t|] eqn:Hl; [|reflexivity].
      specialize (Ht id t Hl). congruence.
  - destruct (timers w !! id) as [t|] eqn:Hl; [|reflexivity].
    specialize (Ht id t Hl). congruence.
Qed.

(** C3 at its failing trace. The stream of session ["s1"] drops and a
    reconnect (timer 1) is set; before it runs, [ensureSession] opens a
    second socket, which drops too and sets timer 2, now the one held by
    the provider. [closeSession] then cancels timer 2 only: timer 1 is
    still pending although no session is current, and when it fires it
    opens a socket for the closed session. *)
Theorem stale_reconnect_fires :
  let w :=
    run Sample.base Sample.parse
      [CallEnsureSession Sample.payload (Returned (Sample.opened "s1"));
       SocketOpens 0;
       SocketCloses 0;
       CallEnsureSession Sample.payload (Returned (Sample.opened "s1"));
       SocketCloses 1;
       CallCloseSession (Returned (Sample.closed "s1"))]
      initial_world in
  let w' := step Sample.base Sample.parse (TimerFires 1) w in
  sessionIdRef w = None
  /\ session w = Some (Sample.closed "s1")
  /\ reconnectTimer w = None
  /\ timers w !! 1 = Some (reconnect_timer "s1")
  /\ ~ fenced w
  /\ socketRef w' = Some 2
  /\ sockets w' !! 2
     = Some {| ws_url := "ws://127.0.0.1:8000/ws/sessions/s1";
               readyState := CONNECTING; ws_session := "s1"; ws_sent := [] |}.
Proof.
  intros w w'.
  assert (Hpending : timers w !! 1 = Some (reconnect_timer "s1"))
    by (vm_compute; reflexivity).
  assert (Hcurrent : sessionIdRef w = None) by (vm_compute; reflexivity).
  repeat split; try (vm_compute; reflexivity).
  intros Hf.
  specialize (Hf 1 (reconnect_timer "s1") "s1" Hpending eq_refl).
  rewrite Hcurrent in Hf. discriminate.
Qed.

(** *** Keep-alive pings *)

Section Silence.

Variable baseUrl : URL.
Variable JSON_parse : string -> outcome JsonValue.

Lemma step_socket_update (l : Label) (w : World) :
  socket_update (sockets w) (sockets (step baseUrl JSON_parse l w)).
Proof.
  destruct l; simpl.
  - provider_unfold. repeat case_match; simplify_eq; simpl;
      first [apply update_none | apply update_new].
  - provider_unfold. repeat case_match; simplify_eq; simpl;
      first [apply update_none | apply update_close].
  - provider_unfold. repeat case_match; simplify_eq; simpl; apply update_none.
  - repeat case_match; simpl;
      first [apply update_none | by apply update_state].
  - repeat case_match; try apply update_none.
    provider_unfold. repeat case_match; simplify_eq; simpl; apply update_none.
  - repeat case_match; simpl; apply update_none.
  - repeat case_match; try apply update_none;
      provider_unfold; simpl; repeat case_match; simplify_eq; simpl;
      by apply update_state.
  - destruct (timers w !! timer) as [t|]; [|apply update_none].
    destruct (timer_callback t). simpl. apply update_new.
  - provider_unfold. repeat case_match; simplify_eq; simpl;
      first [apply update_none | apply update_close].
Qed.

Lemma step_timer_update (l : Label) (w : World) :
  timer_update (timers w) (timers (step baseUrl JSON_parse l w)).
Proof.
  destruct l; simpl.
  - provider_unfold. repeat case_match; simplify_eq; simpl; apply timers_same.
  - provider_unfold. repeat case_match; simplify_eq; simpl;
      first [apply timers_same | apply timers_removed].
  - provider_unfold. repeat case_match; simplify_eq; simpl; apply timers_same.
  - repeat case_match; simpl; apply timers_same.
  - repeat case_match; try apply timers_same.
    provider_unfold. repeat case_match; simplify_eq; simpl; apply timers_same.
  - repeat case_match; simpl; apply timers_same.
  - repeat case_match; try apply timers_same;
      provider_unfold; simpl; repeat case_match; simplify_eq; simpl;
      first [apply timers_same | apply timers_set].
  - destruct (timers w !! timer) as [t|]; [|apply timers_same].
    destruct (timer_callback t). simpl. apply timers_removed.
  - provider_unfold. repeat case_match; simplify_eq; simpl;
      first [apply timers_same | apply timers_removed].
Qed.

Lemma step_silent (l : Label) (w : World) :
  silent w -> silent (step baseUrl JSON_parse l w).
Proof.
  intros Hw id s.
  destruct (step_socket_update l w) as [|new url sessionId|closed|changed r s0 Hs0].
  - apply Hw.
  - intros [[_ <-]|[_ Hl]]%lookup_insert_Some; [reflexivity | by eapply Hw].
  - intros [(_ & s0 & Hl & ->)|[_ Hl]]%lookup_alter_Some; [|by eapply Hw].
    unfold closing. destruct (readyState s0); simpl; by eapply Hw.
  - intros [[_ <-]|[_ Hl]]%lookup_insert_Some; simpl; by eapply Hw.
Qed.

Lemma step_only_reconnects (l : Label) (w : World) :
  only_reconnects w -> only_reconnects (step baseUrl JSON_parse l w).
Proof.
  intros Hw id t.
  destruct (step_timer_update l w) as [|new sessionId|removed].
  - apply Hw.
  - intros [[_ <-]|[_ Hl]]%lookup_insert_Some; [split; reflexivity|].
    by eapply Hw.
  - intros [_ Hl]%lookup_delete_Some. by eapply Hw.
Qed.

Lemma run_silent (ls : list Label) (w : World) :
  silent w ->
  only_reconnects w ->
  silent (run baseUrl JSON_parse ls w)
  /\ only_reconnects (run baseUrl JSON_parse ls w).
Proof.
  revert w. induction ls as [|l ls IH]; intros w Hs Ht; [split; assumption|].
  simpl. apply IH; [by apply step_silent | by apply step_only_reconnects].
Qed.

End Silence.

(** C8, as stated, fails for the session event stream: with the stream
    of session ["s1"] open, no keep-alive is scheduled, and whatever
    happens next the provider sends nothing on any socket and sets no
    interval. *)
Lemma session_stream_ping_counterexample :
  connected Sample.streaming
  /\ timers Sample.streaming = ∅
  /\ ~ ping_scheduled Sample.streaming
  /\ forall ls,
       silent (run Sample.base Sample.parse ls Sample.streaming)
       /\ ~ ping_scheduled (run Sample.base Sample.parse ls Sample.streaming).
Proof.
  assert (Hsilent : silent Sample.streaming).
  { assert (Hmap : sockets Sample.streaming
                   = {[0 := {| ws_url := "ws://127.0.0.1:8000/ws/sessions/s1";
                               readyState := OPEN; ws_session := "s1";
                               ws_sent := [] |}]})
      by (vm_compute; reflexivity).
    intros id s Hl. rewrite Hmap in Hl.
    apply lookup_singleton_Some in Hl as [_ <-]. reflexivity. }
  assert (Hnone : only_reconnects Sample.streaming).
  { assert (Hmap : timers Sample.streaming = ∅) by (vm_compute; reflexivity).
    intros id t Hl. rewrite Hmap, lookup_empty in Hl. discriminate. }
  assert (Hno : forall w, only_reconnects w -> ~ ping_scheduled w).
  { intros w Hw (id & t & Hl & Hkind & _).
    destruct (Hw id t Hl) as [Hk _]. congruence. }
  split.
  { exists 0, {| ws_url := "ws://127.0.0.1:8000/ws/sessions/s1";
                 readyState := OPEN; ws_session := "s1"; ws_sent := [] |}.
    repeat split; reflexivity. }
  split; [reflexivity|]. split; [by apply Hno|].
  intros ls.
  destruct (run_silent Sample.base Sample.parse ls Sample.streaming Hsilent Hnone)
    as [Hs Ht].
  split; [exact Hs | by apply Hno].
Qed.

Module VisualizerFacts.

Import ConsciousnessVisualizer.

Lemma ping_open (v : State) :
  readyState (ws v) = OPEN ->
  ws_sent (ws (ping v)) = ws_sent (ws v) ++ ["ping"]
  /\ readyState (ws (ping v)) = OPEN.
Proof. intros Hr. unfold ping. rewrite Hr. simpl. split; [reflexivity|exact Hr]. Qed.

Lemma ping_not_open (v : State) :
  readyState (ws v) <> OPEN -> ping v = v.
Proof.
  intros Hr. unfold ping. destruct (readyState (ws v)); simpl; congruence.
Qed.

Lemma pings_open (k : nat) (v : State) :
  readyState (ws v) = OPEN ->
  ws_sent (ws (Nat.iter k ping v)) = ws_sent (ws v) ++ repeat "ping" k
  /\ readyState (ws (Nat.iter k ping v)) = OPEN.
Proof.
  intros Hr. induction k as [|k [IHsent IHopen]].
  - simpl. rewrite app_nil_r. split; [reflexivity|exact Hr].
  - simpl Nat.iter. destruct (ping_open _ IHopen) as [Hsent Hopen].
    split; [|exact Hopen].
    rewrite Hsent, IHsent, <- app_assoc. f_equal.
    change ["ping"] with (repeat "ping" 1). rewrite <- repeat_app.
    f_equal. lia.
Qed.

Lemma pings_not_open (k : nat) (v : State) :
  readyState (ws v) <> OPEN -> Nat.iter k ping v = v.
Proof.
  intros Hr. induction k as [|k IH]; [reflexivity|].
  simpl. rewrite IH. apply ping_not_open. exact Hr.
Qed.

Lemma runs_in (k : nat) (r : Z) :
  (0 <= r < 30000)%Z ->
  Z.to_nat ((0 + (30000 * Z.of_nat k + r)) / 30000) = k.
Proof.
  intros Hr. rewrite Z.add_0_l, Z.mul_comm, Z.div_add_l by lia.
  rewrite Z.div_small by lia. lia.
Qed.

End VisualizerFacts.

(** C8, amended. The keep-alive belongs to the consciousness visualizer's
    stream, not to the session event stream, which sends nothing. On
    mount the visualizer sets an interval of 30000 ms; each time it runs
    it sends ["ping"] if the socket is open and does nothing otherwise, so
    with the socket open [k] pings have been sent once [k] periods have
    gone by; the cleanup clears the interval, and no ping is sent after
    it. Inbound messages are all handled alike, as JSON data to display. *)
Theorem visualizer_keep_alive (sessionId backendUrl : string) :
  let v0 := ConsciousnessVisualizer.mount sessionId backendUrl in
  let v1 := ConsciousnessVisualizer.socket_opens v0 in
  ConsciousnessVisualizer.pingInterval v0
  = Some {| ConsciousnessVisualizer.period := 30000;
            ConsciousnessVisualizer.waited := 0 |}
  /\ (forall v,
        readyState (ConsciousnessVisualizer.ws v) = OPEN ->
        ws_sent (ConsciousnessVisualizer.ws (ConsciousnessVisualizer.ping v))
        = ws_sent (ConsciousnessVisualizer.ws v) ++ ["ping"])
  /\ (forall v,
        readyState (ConsciousnessVisualizer.ws v) <> OPEN ->
        ConsciousnessVisualizer.ping v = v)
  /\ (forall k r,
        (0 <= r < 30000)%Z ->
        ws_sent
          (ConsciousnessVisualizer.ws
             (ConsciousnessVisualizer.elapse (30000 * Z.of_nat k + r) v1))
        = repeat "ping" k)
  /\ (forall ms,
        ws_sent
          (ConsciousnessVisualizer.ws (ConsciousnessVisualizer.elapse ms v0))
        = [])
  /\ (forall ms v,
        ConsciousnessVisualizer.elapse ms (ConsciousnessVisualizer.cleanup v)
        = ConsciousnessVisualizer.cleanup v)
  /\ (forall JSON_parse data v,
        ConsciousnessVisualizer.onmessage JSON_parse data v
        = match JSON_parse data with
          | Returned parsed =>
              (Returned tt, ConsciousnessVisualizer.with_data (Some parsed) v)
          | Thrown error => (Thrown error, v)
          end).
Proof.
  intros v0 v1. split; [reflexivity|]. split.
  { intros v Hr. apply VisualizerFacts.ping_open. exact Hr. }
  split; [apply VisualizerFacts.ping_not_open|]. split.
  { intros k r Hr. unfold ConsciousnessVisualizer.elapse. simpl.
    rewrite (VisualizerFacts.runs_in k r Hr).
    match goal with
    | |- context [Nat.iter k _ ?v] =>
        destruct (VisualizerFacts.pings_open k v eq_refl) as [Hsent _]
    end.
    rewrite Hsent. reflexivity. }
  split.
  { intros ms. unfold ConsciousnessVisualizer.elapse. simpl.
    rewrite VisualizerFacts.pings_not_open; [reflexivity|]. simpl. discriminate. }
  split; [intros ms v; reflexivity|].
  intros JSON_parse data v. unfold ConsciousnessVisualizer.onmessage.
  js_unfold. destruct (JSON_parse data); reflexivity.
Qed.

Lemma visualizer_keep_alive_witness :
  let v1 :=
    ConsciousnessVisualizer.socket_opens
      (ConsciousnessVisualizer.mount "my-session" "ws://localhost:8000") in
  ws_sent (ConsciousnessVisualizer.ws (ConsciousnessVisualizer.elapse 95000 v1))
  = ["ping"; "ping"; "ping"].
Proof.
  destruct (visualizer_keep_alive "my-session" "ws://localhost:8000")
    as (_ & _ & _ & Hpings & _).
  exact (Hpings 3 5000%Z ltac:(lia)).
Defined.

(** *** Stopping the capture *)

Module CaptureFacts.

Import LiveAudioCapture.

Lemma stopCapture_spec (h : Hook) :
  stopCapture h
  = (Returned tt,
     {| isCapturing := false; audioContextRef := None; processorRef := None;
        sourceRef := None; streamRef := None;
        actions := actions h ++ released h;
        console := console h; toasts := toasts h |}).
Proof.
  destruct h as [capturing c p s m done logged shown].
  unfold released. cbn. rewrite <- !app_assoc. reflexivity.
Qed.

Lemma autoStopEffect_fires (session : option SessionState) (h : Hook) :
  not_active session = true ->
  isCapturing h = true ->
  autoStopEffect session h = stopCapture h.
Proof.
  intros Hs Hc. unfold autoStopEffect. js_unfold. rewrite Hs, Hc. reflexivity.
Qed.

Lemma autoStopEffect_idle (session : option SessionState) (h : Hook) :
  not_active session = false \/ isCapturing h = false ->
  autoStopEffect session h = (Returned tt, h).
Proof.
  intros Hc. unfold autoStopEffect. js_unfold.
  destruct Hc as [-> | ->]; [reflexivity|].
  rewrite andb_false_r. reflexivity.
Qed.

(** A [startCapture] for which the platform grants every resource. *)
Lemma startCapture_granted (stored : SessionState) (stream : MediaStream)
  (context source processor : nat) (h : Hook) :
  isCapturing h = false ->
  let devices :=
    {| getUserMedia := Returned stream; new_AudioContext := Returned context;
       createMediaStreamSource := Returned source;
       createScriptProcessor := Returned processor |} in
  let h' := exec (startCapture (Some stored) devices) h in
  isCapturing h' = true
  /\ processorRef h' = Some processor
  /\ sourceRef h' = Some source
  /\ audioContextRef h'
     = Some {| context_handle := context;
               context_sampleRate := Number.of_Z 22050 |}
  /\ streamRef h' = Some stream.
Proof.
  intros Hc devices h'. subst h' devices.
  destruct h as [capturing c p s m done logged shown]. simpl in Hc. subst capturing.
  vm_compute. repeat split; reflexivity.
Qed.

(** A [startCapture] that is refused a resource ends in [stopCapture]: the
    refs it held before are released in order; what was acquired during
    the call is not in a ref yet. *)
Lemma startCapture_refused (stored : SessionState) (devices : Devices) (h : Hook) :
  isCapturing h = false ->
  granted devices = false ->
  let h' := exec (startCapture (Some stored) devices) h in
  result (startCapture (Some stored) devices) h = Returned tt
  /\ (exists acquired,
        forallb is_acquisition acquired = true
        /\ actions h' = actions h ++ acquired ++ released h)
  /\ isCapturing h' = false
  /\ processorRef h' = None
  /\ sourceRef h' = None
  /\ audioContextRef h' = None
  /\ streamRef h' = None.
Proof.
  intros Hc Hg h'. subst h'.
  destruct h as [capturing c p s m done logged shown]. simpl in Hc. subst capturing.
  destruct devices as [[stream|e1] [context|e2] [source|e3] [processor|e4]];
    try discriminate Hg; clear Hg;
    (split; [reflexivity|]); (split; [|repeat split; reflexivity]).
  all: unfold released; cbn.
  all: first
    [ exists [GetUserMedia stream;
              NewAudioContext {| context_handle := context;
                                 context_sampleRate := Number.of_Z 22050 |};
              CreateMediaStreamSource source context (stream_handle stream)];
      split; [reflexivity|]; rewrite <- !app_assoc; reflexivity
    | exists [GetUserMedia stream;
              NewAudioContext {| context_handle := context;
                                 context_sampleRate := Number.of_Z 22050 |}];
      split; [reflexivity|]; rewrite <- !app_assoc; reflexivity
    | exists [GetUserMedia stream];
      split; [reflexivity|]; rewrite <- !app_assoc; reflexivity
    | exists [];
      split; [reflexivity|]; rewrite <- !app_assoc; reflexivity ].
Qed.

End CaptureFacts.

(** The order of [stopCapture], and when it runs. [stopCapture]
    disconnects the processor node, disconnects the source node, closes
    the audio context and stops every media track, in that order, skipping
    what is not in a ref, then empties the refs and leaves the capturing
    state. After a granted [startCapture] that nothing overlaps all four
    are held, so all four stages run; a refused [startCapture] ends in the
    same [stopCapture], which releases what the refs held before the call
    and not what the call acquired. The session effect runs this same
    [stopCapture] as soon as the session is missing or inactive while
    capturing, which is the case once [closeSession] has stored an
    inactive state. *)
Lemma stopCapture_order (h : LiveAudioCapture.Hook) :
  let h' := exec LiveAudioCapture.stopCapture h in
  result LiveAudioCapture.stopCapture h = Returned tt
  /\ LiveAudioCapture.actions h'
     = LiveAudioCapture.actions h
       ++ LiveAudioCapture.on_ref (LiveAudioCapture.processorRef h)
            (fun p => [LiveAudioCapture.ProcessorDisconnect p])
       ++ LiveAudioCapture.on_ref (LiveAudioCapture.sourceRef h)
            (fun s => [LiveAudioCapture.SourceDisconnect s])
       ++ LiveAudioCapture.on_ref (LiveAudioCapture.audioContextRef h)
            (fun c =>
               [LiveAudioCapture.ContextClose (LiveAudioCapture.context_handle c)])
       ++ LiveAudioCapture.on_ref (LiveAudioCapture.streamRef h)
            (fun s =>
               map LiveAudioCapture.TrackStop (LiveAudioCapture.stream_tracks s))
  /\ (forall processor source context stream,
        LiveAudioCapture.processorRef h = Some processor ->
        LiveAudioCapture.sourceRef h = Some source ->
        LiveAudioCapture.audioContextRef h = Some context ->
        LiveAudioCapture.streamRef h = Some stream ->
        LiveAudioCapture.actions h'
        = LiveAudioCapture.actions h
          ++ [LiveAudioCapture.ProcessorDisconnect processor;
              LiveAudioCapture.SourceDisconnect source;
              LiveAudioCapture.ContextClose
                (LiveAudioCapture.context_handle context)]
          ++ map LiveAudioCapture.TrackStop
               (LiveAudioCapture.stream_tracks stream))
  /\ (LiveAudioCapture.isCapturing h' = false
      /\ LiveAudioCapture.processorRef h' = None
      /\ LiveAudioCapture.sourceRef h' = None
      /\ LiveAudioCapture.audioContextRef h' = None
      /\ LiveAudioCapture.streamRef h' = None)
  /\ (forall stored stream context source processor,
        LiveAudioCapture.isCapturing h = false ->
        let started :=
          exec (LiveAudioCapture.startCapture (Some stored)
                  {| LiveAudioCapture.getUserMedia := Returned stream;
                     LiveAudioCapture.new_AudioContext := Returned context;
                     LiveAudioCapture.createMediaStreamSource := Returned source;
                     LiveAudioCapture.createScriptProcessor := Returned processor |})
            h in
        LiveAudioCapture.actions (exec LiveAudioCapture.stopCapture started)
        = LiveAudioCapture.actions started
          ++ [LiveAudioCapture.ProcessorDisconnect processor;
              LiveAudioCapture.SourceDisconnect source;
              LiveAudioCapture.ContextClose context]
          ++ map LiveAudioCapture.TrackStop
               (LiveAudioCapture.stream_tracks stream))
  /\ (forall stored devices,
        LiveAudioCapture.isCapturing h = false ->
        LiveAudioCapture.granted devices = false ->
        let refused :=
          exec (LiveAudioCapture.startCapture (Some stored) devices) h in
        exists acquired,
          forallb LiveAudioCapture.is_acquisition acquired = true
          /\ LiveAudioCapture.actions refused
             = LiveAudioCapture.actions h ++ acquired
               ++ LiveAudioCapture.released h)
  /\ (forall session,
        LiveAudioCapture.not_active session = true ->
        LiveAudioCapture.isCapturing h = true ->
        LiveAudioCapture.autoStopEffect session h
        = LiveAudioCapture.stopCapture h)
  /\ (forall stored state w,
        session w = Some stored ->
        active state = false ->
        LiveAudioCapture.isCapturing h = true ->
        LiveAudioCapture.autoStopEffect
          (session (exec (closeSession (Returned state)) w)) h
        = LiveAudioCapture.stopCapture h).
Proof.
  intros h'.
  assert (Hstop : forall g,
            LiveAudioCapture.actions (exec LiveAudioCapture.stopCapture g)
            = LiveAudioCapture.actions g ++ LiveAudioCapture.released g).
  { intros g. unfold exec. rewrite CaptureFacts.stopCapture_spec. reflexivity. }
  split.
  { unfold result. rewrite CaptureFacts.stopCapture_spec. reflexivity. }
  split; [apply Hstop|]. split.
  { intros processor source context stream Hp Hs Hctx Hm. subst h'.
    rewrite Hstop. unfold LiveAudioCapture.released.
    rewrite Hp, Hs, Hctx, Hm. reflexivity. }
  split.
  { subst h'. unfold exec. rewrite CaptureFacts.stopCapture_spec.
    repeat split; reflexivity. }
  split.
  { intros stored stream context source processor Hc started.
    destruct (CaptureFacts.startCapture_granted stored stream context source
                processor h Hc) as (_ & Hp & Hs & Hctx & Hm).
    fold started in Hp, Hs, Hctx, Hm.
    rewrite Hstop. unfold LiveAudioCapture.released.
    rewrite Hp, Hs, Hctx, Hm. reflexivity. }
  split.
  { intros stored devices Hc Hg.
    apply (CaptureFacts.startCapture_refused stored devices h Hc Hg). }
  split.
  { intros session Hs Hc. apply CaptureFacts.autoStopEffect_fires; assumption. }
  intros stored state w Hs Hstate Hc.
  apply CaptureFacts.autoStopEffect_fires; [|exact Hc].
  rewrite (proj1 (closeSession_success_fields stored state w Hs)).
  simpl. rewrite Hstate. reflexivity.
Qed.

Lemma stopCapture_order_witness :
  let started :=
    exec (LiveAudioCapture.startCapture (Some (Sample.opened "s1"))
            {| LiveAudioCapture.getUserMedia :=
                 Returned {| LiveAudioCapture.stream_handle := 7;
                             LiveAudioCapture.stream_tracks := [70; 71] |};
               LiveAudioCapture.new_AudioContext := Returned 8;
               LiveAudioCapture.createMediaStreamSource := Returned 9;
               LiveAudioCapture.createScriptProcessor := Returned 10 |})
      LiveAudioCapture.initial_hook in
  LiveAudioCapture.actions (exec LiveAudioCapture.stopCapture started)
  = LiveAudioCapture.actions started
    ++ [LiveAudioCapture.ProcessorDisconnect 10;
        LiveAudioCapture.SourceDisconnect 9;
        LiveAudioCapture.ContextClose 8;
        LiveAudioCapture.TrackStop 70;
        LiveAudioCapture.TrackStop 71].
Proof.
  destruct (stopCapture_order LiveAudioCapture.initial_hook)
    as (_ & _ & _ & _ & Hstarted & _).
  exact (Hstarted (Sample.opened "s1")
           {| LiveAudioCapture.stream_handle := 7;
              LiveAudioCapture.stream_tracks := [70; 71] |} 8 9 10 eq_refl).
Defined.

(** *** The duration of a frame *)

Lemma onaudioprocess_submits (handler : LiveAudioCapture.Handler)
  (stored : SessionState) (input : Float32Array) (nano : string) (now : number)
  (ack : outcome AudioFrame) (w : World) :
  LiveAudioCapture.handler_session handler = Some stored ->
  result (LiveAudioCapture.onaudioprocess handler input nano now ack) w
  = Returned tt
  /\ exists frame,
       remote_log (exec (LiveAudioCapture.onaudioprocess handler input nano now ack) w)
       = remote_log w ++ [SubmitAudioCall (session_id (metadata stored)) frame]
       /\ duration_ms frame
          = durationMs (length input)
              (LiveAudioCapture.context_sampleRate
                 (LiveAudioCapture.handler_context handler)).
Proof.
  intros Hs. unfold LiveAudioCapture.onaudioprocess. provider_unfold.
  rewrite Hs. simpl. destruct ack; simpl; (split; [reflexivity|]);
    eexists; (split; [reflexivity|]); reflexivity.
Qed.

(** C10. The [duration_ms] of every submitted frame is
    [(sample_count / sample_rate) * 1000], computed on JS numbers. For a
    block of 4096 samples at 22050 Hz, as the capture pipeline submits
    them, this is the number 6535836193916366 * 2^-45, which lies between
    185.7 and 185.8 and within 10^-12 of the exact quotient
    4096 / 22050 * 1000. *)
Theorem frame_duration :
  (forall w stored buffer sampleRate nano now ack,
      session w = Some stored ->
      exists frame,
        remote_log (exec (pushAudioFrame buffer sampleRate nano now ack) w)
        = remote_log w ++ [SubmitAudioCall (session_id (metadata stored)) frame]
        /\ duration_ms frame
           = Number.mul
               (Number.div (Number.of_nat (length buffer)) sampleRate)
               (Number.of_Z 1000))
  /\ (forall w handler stored input nano now ack,
      LiveAudioCapture.handler_session handler = Some stored ->
      length input = 4096 ->
      LiveAudioCapture.context_sampleRate
        (LiveAudioCapture.handler_context handler) = Number.of_Z 22050 ->
      exists frame,
        remote_log
          (exec (LiveAudioCapture.onaudioprocess handler input nano now ack) w)
        = remote_log w ++ [SubmitAudioCall (session_id (metadata stored)) frame]
        /\ duration_ms frame = durationMs 4096 (Number.of_Z 22050))
  /\ durationMs 4096 (Number.of_Z 22050)
     = S754_finite false 6535836193916366 (-45)
  /\ (let d := Number.to_Q (durationMs 4096 (Number.of_Z 22050)) in
      (1857 # 10 <= d)%Q
      /\ (d < 1858 # 10)%Q
      /\ (Qabs (d - (4096 # 22050) * 1000) < 1 # 1000000000000)%Q).
Proof.
  split.
  { intros w stored buffer sampleRate nano now ack Hs.
    destruct (pushAudioFrame_stored buffer sampleRate nano now ack stored w Hs)
      as (frame & Hrun & _ & _ & _ & Hd).
    exists frame. unfold exec. rewrite Hrun. split; [reflexivity|exact Hd]. }
  split.
  { intros w handler stored input nano now ack Hs Hlen Hrate.
    destruct (onaudioprocess_submits handler stored input nano now ack w Hs)
      as (_ & frame & Hlog & Hd).
    exists frame. split; [exact Hlog|]. rewrite Hd, Hlen, Hrate. reflexivity. }
  split; [vm_compute; reflexivity|].
  cbv zeta. split; [|split].
  - apply Qle_bool_iff. vm_compute. reflexivity.
  - apply Qlt_alt. vm_compute. reflexivity.
  - apply Qlt_alt. vm_compute. reflexivity.
Qed.

Lemma frame_duration_witness :
  exists frame,
    remote_log
      (exec (pushAudioFrame (repeat 0%N 4096) (Number.of_Z 22050) "n1"
               (Number.of_Z 0) (Returned (Sample.ack "s1")))
         Sample.streaming)
    = remote_log Sample.streaming ++ [SubmitAudioCall "s1" frame]
    /\ duration_ms frame = S754_finite false 6535836193916366 (-45).
Proof.
  destruct frame_duration as (Hpush & _ & Hvalue & _).
  destruct (Hpush Sample.streaming (Sample.opened "s1") (repeat 0%N 4096)
              (Number.of_Z 22050) "n1" (Number.of_Z 0)
              (Returned (Sample.ack "s1")) eq_refl)
    as (frame & Hlog & Hd).
  exists frame. split; [exact Hlog|].
  rewrite Hd, repeat_length. exact Hvalue.
Defined.

(** * Further properties of the provider *)

Section ProviderInvariants.

Variable baseUrl : URL.
Variable JSON_parse : string -> outcome JsonValue.

Lemma step_feed_valid (l : Label) (w : World) :
  feed_valid w -> feed_valid (step baseUrl JSON_parse l w).
Proof.
  unfold feed_valid. intros Hw. destruct l; simpl.
  - rewrite ensureSession_events. exact Hw.
  - destruct (closeSession_events closed w) as [-> | ->];
      [exact Hw | apply Forall_nil_2].
  - rewrite pushAudioFrame_events. exact Hw.
  - destruct (sockets w !! socket) as [s|]; [|exact Hw].
    destruct (readyState s); exact Hw.
  - destruct (sockets w !! socket) as [s|]; [|exact Hw].
    destruct (readyState s); try exact Hw.
    rewrite onmessage_events.
    destruct (JSON_parse data) as [parsed|e]; [|exact Hw].
    destruct (isSessionEvent parsed) eqn:Hv; [|exact Hw].
    apply Forall_take. apply Forall_cons; split; assumption.
  - destruct (sockets w !! socket) as [s|]; exact Hw.
  - destruct (sockets w !! socket) as [s|]; [|exact Hw].
    destruct (readyState s); try exact Hw; rewrite onclose_events; exact Hw.
  - destruct (timers w !! timer) as [t|]; [|exact Hw].
    destruct (timer_callback t). unfold run_callback.
    rewrite connectStream_events. exact Hw.
  - rewrite disconnectStream_events. apply Forall_nil_2.
Qed.

(** X1. Every entry of the event feed is a value that passed
    [isSessionEvent], in every world the provider can reach: components
    reading the feed may rely on the four string fields and on a non-null
    [payload]. *)
Theorem feed_entries_valid (ls : list Label) (e : JsonValue) :
  e ∈ events (run baseUrl JSON_parse ls initial_world) ->
  isSessionEvent e = true
  /\ (exists id source target created,
        get_prop e "session_id" = Some (JString id)
        /\ get_prop e "source" = Some (JString source)
        /\ get_prop e "target" = Some (JString target)
        /\ get_prop e "created_at" = Some (JString created))
  /\ (exists payload,
        get_prop e "payload" = Some payload /\ payload <> JNull).
Proof.
  intros He.
  assert (Hall : feed_valid (run baseUrl JSON_parse ls initial_world)).
  { clear He. induction ls as [|l ls IH] using rev_ind.
    - apply Forall_nil_2.
    - rewrite run_last. apply step_feed_valid. exact IH. }
  assert (Hv : isSessionEvent e = true).
  { unfold feed_valid in Hall. rewrite Forall_forall in Hall. by apply Hall. }
  split; [exact Hv|].
  unfold isSessionEvent in Hv.
  destruct e as [| | | |items|fields]; simpl in Hv; try discriminate.
  repeat (apply andb_true_iff in Hv as [Hv ?]). simpl.
  destruct (assoc_get fields "session_id") as [[]|]; try discriminate.
  destruct (assoc_get fields "source") as [[]|]; try discriminate.
  destruct (assoc_get fields "target") as [[]|]; try discriminate.
  destruct (assoc_get fields "created_at") as [[]|]; try discriminate.
  destruct (assoc_get fields "payload") as [[]|]; try discriminate.
  all: split; [by eauto 10|]; eexists; split; [reflexivity|discriminate].
Qed.

End ProviderInvariants.

Lemma feed_entries_valid_witness :
  isSessionEvent (Sample.event "first") = true
  /\ (exists payload,
        get_prop (Sample.event "first") "payload" = Some payload
        /\ payload <> JNull).
Proof.
  assert (Hin : Sample.event "first"
                ∈ events
                    (run Sample.base Sample.parse
                       [CallEnsureSession Sample.payload
                          (Returned (Sample.opened "s1"));
                        SocketOpens 0; SocketMessage 0 "first"]
                       initial_world)).
  { vm_compute. apply list_elem_of_here. }
  destruct (feed_entries_valid Sample.base Sample.parse _ _ Hin)
    as (Hv & _ & Hp).
  split; [exact Hv | exact Hp].
Defined.

Section ProviderInvariants2.

Variable baseUrl : URL.
Variable JSON_parse : string -> outcome JsonValue.

(** One step of the provider, taken apart into the updates it makes. *)
Ltac step_cases l :=
  destruct l; simpl; provider_unfold; repeat case_match; simplify_eq; simpl in *.

Lemma step_current_is_stored (l : Label) (w : World) :
  current_is_stored w -> current_is_stored (step baseUrl JSON_parse l w).
Proof.
  unfold current_is_stored. intros Hw. step_cases l;
    intros id Hid; simplify_eq; eauto.
  all: destruct (Hw _ Hid) as (s' & Hs' & Hid'); simplify_eq; eauto.
Qed.


Lemma closing_keeps (s : WebSocket) :
  ws_url (closing s) = ws_url s
  /\ ws_session (closing s) = ws_session s
  /\ ws_sent (closing s) = ws_sent s.
Proof. unfold closing. destruct (readyState s); repeat split; reflexivity. Qed.

Lemma step_endpoints (l : Label) (w : World) :
  endpoints baseUrl w -> endpoints baseUrl (step baseUrl JSON_parse l w).
Proof.
  unfold endpoints. intros Hw. step_cases l; intros k s' Hk;
    repeat match goal with
    | H : <[_ := _]> _ !! _ = Some _ |- _ =>
        apply lookup_insert_Some in H as [[<- <-]|[? H]]
    | H : alter closing _ _ !! _ = Some _ |- _ =>
        apply lookup_alter_Some in H as [(<- & ? & H & ->)|[? H]]
    end;
    simpl.
  all: try (split; [reflexivity|lia]).
  all: repeat match goal with
       | H : sockets _ !! _ = Some _ |- _ => apply Hw in H as [? ?]
       end.
  all: rewrite ?(proj1 (closing_keeps _)), ?(proj1 (proj2 (closing_keeps _))).
  all: split; first [assumption | lia].
Qed.

Lemma step_session_kept (l : Label) (w : World) :
  session_kept w (step baseUrl JSON_parse l w).
Proof.
  unfold session_kept. step_cases l; (split; [congruence|]);
    first [ by left
          | right; eexists; split; [reflexivity|]; simpl; congruence ].
Qed.

Lemma step_isLoading (l : Label) (w : World) :
  isLoading w = false -> isLoading (step baseUrl JSON_parse l w) = false.
Proof.
  intros Hw. step_cases l; first [reflexivity | exact Hw].
Qed.

Lemma run_preserves (P : World -> Prop) :
  (forall l w, P w -> P (step baseUrl JSON_parse l w)) ->
  forall ls w, P w -> P (run baseUrl JSON_parse ls w).
Proof.
  intros Hstep ls. induction ls as [|l ls IH]; intros w Hw; [exact Hw|].
  simpl. apply IH, Hstep, Hw.
Qed.

End ProviderInvariants2.

(** X2. The current session id ([sessionIdRef]), which the reconnect logic
    reads, is never out of step with the stored session: whenever it is
    set, a session is stored and it is that session's id. *)
Theorem current_session_id_is_stored (baseUrl : URL)
  (JSON_parse : string -> outcome JsonValue) (ls : list Label) (id : string) :
  sessionIdRef (run baseUrl JSON_parse ls initial_world) = Some id ->
  exists s,
    session (run baseUrl JSON_parse ls initial_world) = Some s
    /\ session_id (metadata s) = id.
Proof.
  revert id.
  apply (run_preserves baseUrl JSON_parse current_is_stored).
  - apply step_current_is_stored.
  - intros id Hid. discriminate.
Qed.

Lemma current_session_id_is_stored_witness :
  exists s,
    session Sample.streaming = Some s /\ session_id (metadata s) = "s1".
Proof.
  exact (current_session_id_is_stored Sample.base Sample.parse
           [CallEnsureSession Sample.payload (Returned (Sample.opened "s1"));
            SocketOpens 0] "s1" eq_refl).
Defined.



(** X4. Every socket the provider ever opens is opened on the stream
    endpoint of the session it serves,
    [resolveWebSocketUrl("/ws/sessions/" + sessionId)], under a handle of
    its own. *)
Theorem sockets_target_session_endpoint (baseUrl : URL)
  (JSON_parse : string -> outcome JsonValue) (ls : list Label)
  (k : nat) (s : WebSocket) :
  sockets (run baseUrl JSON_parse ls initial_world) !! k = Some s ->
  ws_url s = resolveWebSocketUrl baseUrl ("/ws/sessions/" +:+ ws_session s)
  /\ k < next_socket (run baseUrl JSON_parse ls initial_world).
Proof.
  revert k s.
  apply (run_preserves baseUrl JSON_parse (endpoints baseUrl)).
  - apply step_endpoints.
  - intros k s Hk. simpl in Hk. rewrite lookup_empty in Hk. discriminate.
Qed.

Lemma sockets_target_session_endpoint_witness :
  ws_url
    {| ws_url := "ws://127.0.0.1:8000/ws/sessions/s1";
       readyState := OPEN; ws_session := "s1"; ws_sent := [] |}
  = resolveWebSocketUrl Sample.base ("/ws/sessions/" +:+ "s1")
  /\ 0 < next_socket Sample.streaming.
Proof.
  exact (sockets_target_session_endpoint Sample.base Sample.parse
           [CallEnsureSession Sample.payload (Returned (Sample.opened "s1"));
            SocketOpens 0] 0 _ eq_refl).
Defined.

Lemma filter_create_snoc (log : list RemoteCall) (call : RemoteCall) :
  is_create call = false ->
  List.filter is_create (log ++ [call]) = List.filter is_create log.
Proof.
  intros Hc. rewrite List.filter_app. simpl. rewrite Hc. apply app_nil_r.
Qed.

(** X5. Once a session is stored the provider never forgets it and never
    asks the remote service for another one: whatever happens next, a
    session stays stored and the create calls on record are those made
    before; calls on record are never removed. *)
Theorem stored_session_kept (baseUrl : URL)
  (JSON_parse : string -> outcome JsonValue) (ls : list Label) (w : World) :
  session w <> None ->
  session (run baseUrl JSON_parse ls w) <> None
  /\ List.filter is_create (remote_log (run baseUrl JSON_parse ls w))
     = List.filter is_create (remote_log w)
  /\ remote_log w `prefix_of` remote_log (run baseUrl JSON_parse ls w).
Proof.
  revert w. induction ls as [|l ls IH]; intros w Hs.
  - simpl. split; [exact Hs|]. split; reflexivity.
  - simpl. destruct (step_session_kept baseUrl JSON_parse l w) as [Hkeep Hlog].
    destruct (IH _ (Hkeep Hs)) as (Hs' & Hcreate & Hprefix).
    split; [exact Hs'|].
    destruct Hlog as [Hlog | (call & Hlog & Hcall)].
    + rewrite Hlog in Hcreate, Hprefix. split; assumption.
    + rewrite Hlog in Hcreate, Hprefix. split.
      * rewrite Hcreate. apply filter_create_snoc.
        destruct (is_create call); [|reflexivity].
        exfalso. apply Hs, Hcall. reflexivity.
      * etrans; [|exact Hprefix]. by apply prefix_app_r.
Qed.

Lemma stored_session_kept_witness :
  let w :=
    run Sample.base Sample.parse
      [CallCloseSession (Returned (Sample.closed "s1"));
       CallEnsureSession Sample.payload (Returned (Sample.opened "s2"));
       CallEnsureSession Sample.payload (Returned (Sample.opened "s3"))]
      Sample.streaming in
  session w <> None
  /\ List.filter is_create (remote_log w)
     = [CreateSessionCall (create_request Sample.payload)].
Proof.
  assert (Hs : session Sample.streaming <> None) by discriminate.
  destruct (stored_session_kept Sample.base Sample.parse
              [CallCloseSession (Returned (Sample.closed "s1"));
               CallEnsureSession Sample.payload (Returned (Sample.opened "s2"));
               CallEnsureSession Sample.payload (Returned (Sample.opened "s3"))]
              Sample.streaming Hs) as (Hkept & Hcreate & _).
  split; [exact Hkept | exact Hcreate].
Defined.

(** X6. The loading flag is down again after every callback of the
    provider, whether the remote call it awaited succeeded or failed. *)
Theorem loading_flag_reset (baseUrl : URL)
  (JSON_parse : string -> outcome JsonValue) (ls : list Label) :
  isLoading (run baseUrl JSON_parse ls initial_world) = false.
Proof.
  apply (run_preserves baseUrl JSON_parse (fun w => isLoading w = false)).
  - apply step_isLoading.
  - reflexivity.
Qed.

Section Disconnects.

Variable baseUrl : URL.
Variable JSON_parse : string -> outcome JsonValue.

Ltac step_cases l :=
  destruct l; simpl; provider_unfold; repeat case_match; simplify_eq; simpl in *.

Lemma socket_event_without_session (l : Label) (w : World) :
  is_socket_event l = true ->
  sessionIdRef w = None ->
  sessionIdRef (step baseUrl JSON_parse l w) = None
  /\ timers (step baseUrl JSON_parse l w) = timers w
  /\ reconnectTimer (step baseUrl JSON_parse l w) = reconnectTimer w.
Proof.
  intros Hl Hw. destruct l; try discriminate Hl; simpl;
    provider_unfold; repeat case_match; simplify_eq; simpl in *;
    rewrite ?Hw in *; simpl in *; try discriminate;
    repeat split; first [reflexivity | assumption].
Qed.

Lemma socket_events_without_session (ls : list Label) (w : World) :
  forallb is_socket_event ls = true ->
  sessionIdRef w = None ->
  sessionIdRef (run baseUrl JSON_parse ls w) = None
  /\ timers (run baseUrl JSON_parse ls w) = timers w
  /\ reconnectTimer (run baseUrl JSON_parse ls w) = reconnectTimer w.
Proof.
  revert w. induction ls as [|l ls IH]; intros w Hls Hw.
  - split; [exact Hw|]. split; reflexivity.
  - simpl in Hls. apply andb_true_iff in Hls as [Hl Hls]. simpl.
    destruct (socket_event_without_session l w Hl Hw) as (H1 & H2 & H3).
    destruct (IH _ Hls H1) as (H4 & H5 & H6).
    rewrite H5, H6, H2, H3. split; [exact H4|]. split; reflexivity.
Qed.

End Disconnects.

(** X7. After a successful [closeSession] a disconnect is terminal: no
    socket event, a late close event of the socket just closed included,
    sets a reconnect timer, so the timers pending are those that were
    left; when the provider held the only pending timer, none is pending
    and the stream stays down until [ensureSession] is called. *)
Theorem close_makes_disconnects_terminal (baseUrl : URL)
  (JSON_parse : string -> outcome JsonValue)
  (stored state : SessionState) (w : World) (ls : list Label) :
  session w = Some stored ->
  forallb is_socket_event ls = true ->
  let w1 := exec (closeSession (Returned state)) w in
  let w2 := run baseUrl JSON_parse ls w1 in
  timers w2 = timers w1
  /\ reconnectTimer w2 = None
  /\ sessionIdRef w2 = None
  /\ (tracked w -> timers w2 = ∅).
Proof.
  intros Hs Hls w1 w2.
  destruct (closeSession_success_fields stored state w Hs)
    as (_ & Hid & _ & _ & Hheld & _).
  fold w1 in Hid, Hheld.
  destruct (socket_events_without_session baseUrl JSON_parse ls w1 Hls Hid)
    as (Hid2 & Htimers & Hheld2).
  fold w2 in Hid2, Htimers, Hheld2.
  split; [exact Htimers|]. split; [congruence|]. split; [exact Hid2|].
  intros Ht. rewrite Htimers.
  apply (closeSession_cancels_tracked stored state w Hs Ht).
Qed.

Lemma close_makes_disconnects_terminal_witness :
  let w1 := exec (closeSession (Returned (Sample.closed "s1"))) Sample.streaming in
  timers (run Sample.base Sample.parse [SocketCloses 0; SocketError 0] w1) = ∅.
Proof.
  assert (Ht : tracked Sample.streaming).
  { intros id t Hl. vm_compute in Hl. discriminate. }
  exact (proj2 (proj2 (proj2
           (close_makes_disconnects_terminal Sample.base Sample.parse
              (Sample.opened "s1") (Sample.closed "s1") Sample.streaming
              [SocketCloses 0; SocketError 0] eq_refl eq_refl))) Ht).
Defined.

(** X8. Unmounting the provider does not end the stream for good. The
    cleanup closes the held socket but leaves the current session id set,
    so when the close event of that socket arrives a reconnect is set as
    for any disconnect, and when it fires a new socket is opened on the
    session's endpoint. *)
Theorem unmount_leaves_reconnect (baseUrl : URL)
  (JSON_parse : string -> outcome JsonValue)
  (w : World) (k : nat) (s : WebSocket) :
  socketRef w = Some k ->
  sockets w !! k = Some s ->
  readyState s = CONNECTING \/ readyState s = OPEN ->
  sessionIdRef w = Some (ws_session s) ->
  let w1 := step baseUrl JSON_parse Unmount w in
  let w2 := step baseUrl JSON_parse (SocketCloses k) w1 in
  let w3 := step baseUrl JSON_parse (TimerFires (next_timer w)) w2 in
  socketRef w1 = None
  /\ reconnectTimer w1 = None
  /\ events w1 = []
  /\ timers w2 !! next_timer w = Some (reconnect_timer (ws_session s))
  /\ reconnectTimer w2 = Some (next_timer w)
  /\ socketRef w3 = Some (next_socket w)
  /\ sockets w3 !! next_socket w
     = Some {| ws_url :=
                 resolveWebSocketUrl baseUrl ("/ws/sessions/" +:+ ws_session s);
               readyState := CONNECTING;
               ws_session := ws_session s;
               ws_sent := [] |}.
Proof.
  intros Hk Hs Hr Hid w1 w2 w3.
  assert (H1 : w1 = torn_down w).
  { subst w1. simpl. unfold exec. rewrite disconnectStream_spec. reflexivity. }
  destruct (torn_down_refs w) as (Hsock & Hheld & Hfeed & Hcur & _).
  assert (Hclosing : sockets w1 !! k = Some (closing s)).
  { rewrite H1, torn_down_sockets, Hk, lookup_alter_eq, Hs. reflexivity. }
  assert (Hnext : next_timer w1 = next_timer w /\ next_socket w1 = next_socket w).
  { rewrite H1. unfold torn_down.
    destruct (reconnectTimer w); destruct (socketRef w); split; reflexivity. }
  destruct Hnext as [Hnt Hns].
  assert (Hstate : readyState (closing s) = CLOSING).
  { unfold closing. destruct Hr as [-> | ->]; reflexivity. }
  assert (Hsession : ws_session (closing s) = ws_session s)
    by apply closing_keeps.
  set (v := with_sockets (<[k := set_readyState CLOSED (closing s)]> (sockets w1))
              (next_socket w1) w1).
  assert (H2 : w2 = exec (onclose (ws_session s)) v).
  { subst w2. simpl. rewrite Hclosing, Hstate, Hsession. reflexivity. }
  assert (Hv : sessionIdRef v = Some (ws_session s)).
  { subst v. simpl. rewrite H1, Hcur. exact Hid. }
  destruct (onclose_current (ws_session s) v Hv) as (_ & Hheld2 & Htimers).
  rewrite <- H2 in Hheld2, Htimers.
  change (next_timer v) with (next_timer w1) in Hheld2, Htimers.
  rewrite Hnt in Hheld2, Htimers.
  assert (Hns2 : next_socket w2 = next_socket w).
  { rewrite H2, <- Hns. unfold exec, onclose, setTimeout. js_unfold. simpl.
    destruct (is_current _ _); reflexivity. }
  rewrite H1, Hsock, Hheld, Hfeed.
  split; [reflexivity|]. split; [reflexivity|]. split; [reflexivity|].
  split; [rewrite Htimers; apply lookup_insert_eq|].
  split; [exact Hheld2|].
  subst w3. simpl. rewrite Htimers, lookup_insert_eq. simpl.
  unfold exec, connectStream, new_WebSocket. js_unfold. simpl.
  rewrite Hns2. split; [reflexivity|]. apply lookup_insert_eq.
Qed.

Lemma unmount_leaves_reconnect_witness :
  let w2 := run Sample.base Sample.parse [Unmount; SocketCloses 0] Sample.streaming in
  timers w2 !! 1 = Some (reconnect_timer "s1")
  /\ socketRef (step Sample.base Sample.parse (TimerFires 1) w2) = Some 1.
Proof.
  destruct (unmount_leaves_reconnect Sample.base Sample.parse Sample.streaming 0
              {| ws_url := "ws://127.0.0.1:8000/ws/sessions/s1";
                 readyState := OPEN; ws_session := "s1"; ws_sent := [] |}
              eq_refl eq_refl (or_intror eq_refl) eq_refl)
    as (_ & _ & _ & Htimer & _ & Hsocket & _).
  split; [exact Htimer | exact Hsocket].
Defined.

(** X9. A rejected create call leaves no partial state: [ensureSession]
    fails with the error of the remote call, reports its message, and the
    provider still has no session, no current session id change, no new
    socket and no timer; the request sent had its reference list
    defaulted to the empty list when the payload had none. *)
Theorem failed_create_leaves_nothing (baseUrl : URL)
  (payload : SessionPayload) (message : string) (w : World) :
  session w = None ->
  let call := ensureSession baseUrl payload (Thrown (Error message)) in
  let w' := exec call w in
  result call w = Thrown (Error message)
  /\ session w' = None
  /\ sessionIdRef w' = sessionIdRef w
  /\ socketRef w' = socketRef w
  /\ sockets w' = sockets w
  /\ timers w' = timers w
  /\ events w' = events w
  /\ isLoading w' = false
  /\ toasts w' = toasts w ++ [ToastError message]
  /\ remote_log w' = remote_log w ++ [CreateSessionCall (create_request payload)]
  /\ (p_references payload = None -> c_references (create_request payload) = []).
Proof.
  intros Hs call w'. subst call w'. provider_unfold. rewrite Hs. simpl.
  repeat split; try reflexivity; try exact Hs.
  intros Hr. unfold create_request. rewrite Hr. reflexivity.
Qed.

Lemma failed_create_leaves_nothing_witness :
  let call :=
    ensureSession Sample.base Sample.payload (Thrown (Error "intent is required")) in
  result call initial_world = Thrown (Error "intent is required")
  /\ session (exec call initial_world) = None
  /\ sockets (exec call initial_world) = ∅.
Proof.
  destruct (failed_create_leaves_nothing Sample.base Sample.payload
              "intent is required" initial_world eq_refl)
    as (Hr & Hs & _ & _ & Hsock & _).
  split; [exact Hr|]. split; [exact Hs | exact Hsock].
Defined.

(** X10. [isSessionEvent] accepts exactly the parsed objects whose
    [session_id], [source], [target] and [created_at] are strings and whose
    [payload] is an object or an array; numbers, strings, booleans, [null]
    and arrays at top level are rejected, and nothing is required of other
    fields. *)
Theorem isSessionEvent_shape (value : JsonValue) :
  isSessionEvent value = true
  <-> exists fields id source target created payload,
        value = JObject fields
        /\ assoc_get fields "session_id" = Some (JString id)
        /\ assoc_get fields "source" = Some (JString source)
        /\ assoc_get fields "target" = Some (JString target)
        /\ assoc_get fields "created_at" = Some (JString created)
        /\ assoc_get fields "payload" = Some payload
        /\ ((exists inner, payload = JObject inner)
            \/ (exists items, payload = JArray items)).
Proof.
  split.
  - unfold isSessionEvent.
    destruct value as [| | | |items|fields]; simpl; try discriminate.
    intros Hv. repeat (apply andb_true_iff in Hv as [Hv ?]).
    destruct (assoc_get fields "session_id") as [[]|] eqn:E1; try discriminate.
    destruct (assoc_get fields "source") as [[]|] eqn:E2; try discriminate.
    destruct (assoc_get fields "target") as [[]|] eqn:E3; try discriminate.
    destruct (assoc_get fields "created_at") as [[]|] eqn:E4; try discriminate.
    destruct (assoc_get fields "payload") as [[]|] eqn:E5; try discriminate.
    all: exists fields; do 5 eexists;
      repeat (split; [first [reflexivity | eassumption]|]); eauto.
  - intros (fields & id & source & target & created & payload & -> & H1 & H2
            & H3 & H4 & H5 & Hp).
    unfold isSessionEvent. simpl. rewrite H1, H2, H3, H4, H5.
    destruct Hp as [[inner ->] | [items ->]]; reflexivity.
Qed.

(** * Properties of the client ([src/api/client.ts]) *)

Lemma startsWith_slash_true (path : string) :
  startsWith_slash path = true -> exists rest, path = "/" +:+ rest.
Proof.
  unfold startsWith_slash. destruct path as [|c rest]; [discriminate|].
  change (String.prefix "/" (String c rest))
    with (if ascii_dec "/"%char c then String.prefix "" rest else false).
  destruct (ascii_dec "/"%char c) as [<-|]; [|discriminate].
  intros _. exists rest. reflexivity.
Qed.

(** X11. For an http or https base address, [resolveWebSocketUrl] yields
    a WebSocket address on the host of the base: it reads
    ["wss://host/..."] when the base is https and ["ws://host/..."] when it
    is http, never an http address; a leading slash of the path is
    optional; and the base's own path and query do not show in the
    result. *)
Theorem resolveWebSocketUrl_scheme (baseUrl : URL) (path : string) :
  protocol baseUrl = "http:" \/ protocol baseUrl = "https:" ->
  let url := resolveWebSocketUrl baseUrl path in
  let scheme :=
    if String.eqb (protocol baseUrl) "https:" then "wss://" else "ws://" in
  (exists rest, url = scheme +:+ host baseUrl +:+ "/" +:+ rest)
  /\ String.prefix "http" url = false
  /\ (startsWith_slash path = false ->
      resolveWebSocketUrl baseUrl ("/" +:+ path) = url)
  /\ (forall otherPath otherSearch,
        resolveWebSocketUrl
          {| protocol := protocol baseUrl; host := host baseUrl;
             pathname := otherPath; search := otherSearch;
             hash := hash baseUrl |} path
        = url).
Proof.
  intros _ url scheme. subst url scheme.
  unfold resolveWebSocketUrl, URL_toString. simpl.
  split; [|split; [|split]].
  - destruct (startsWith_slash path) eqn:Hp.
    + destruct (startsWith_slash_true path Hp) as [rest ->].
      exists (rest +:+ hash baseUrl).
      destruct (String.eqb (protocol baseUrl) "https:"); reflexivity.
    + exists (path +:+ hash baseUrl).
      destruct (String.eqb (protocol baseUrl) "https:"); reflexivity.
  - destruct (String.eqb (protocol baseUrl) "https:"); reflexivity.
  - intros Hp. rewrite Hp.
    replace (startsWith_slash ("/" +:+ path)) with true
      by (destruct path; reflexivity).
    reflexivity.
  - intros otherPath otherSearch. reflexivity.
Qed.

Lemma resolveWebSocketUrl_scheme_witness :
  resolveWebSocketUrl Sample.base ("/" +:+ "ws/sessions/s1")
  = resolveWebSocketUrl Sample.base "ws/sessions/s1".
Proof.
  exact (proj1 (proj2 (proj2
           (resolveWebSocketUrl_scheme Sample.base "ws/sessions/s1"
              (or_introl eq_refl)))) eq_refl).
Defined.

(** X12. [handle] never returns data for a response whose status is
    outside 200..299: it throws an [Error] whose message is the body text,
    or ["Request failed with status N"] when the body is empty, so the
    message is never empty. A 204 resolves to [undefined] whatever the
    body, and any other accepted status to the parsed body. *)
Theorem handle_outcomes {A : Type} (response : ApiClient.Response A) :
  (ApiClient.ok response = false ->
   forall message,
     ApiClient.text response = Returned message ->
     exists reported,
       ApiClient.handle response = Thrown (Error reported)
       /\ reported <> ""
       /\ (message <> "" -> reported = message)
       /\ (message = "" ->
           reported
           = "Request failed with status "
               +:+ pretty (ApiClient.status response)))
  /\ (ApiClient.status response = 204%N ->
      ApiClient.handle response = Returned ApiClient.Undefined)
  /\ (ApiClient.ok response = true ->
      ApiClient.status response <> 204%N ->
      ApiClient.handle response
      = match ApiClient.json response with
        | Returned data => Returned (ApiClient.Value data)
        | Thrown error => Thrown error
        end)
  /\ (forall data,
        ApiClient.handle response = Returned (ApiClient.Value data) ->
        (200 <= ApiClient.status response <= 299)%N).
Proof.
  unfold ApiClient.handle. split; [|split; [|split]].
  - intros Hok message Ht. rewrite Hok, Ht. simpl.
    destruct (String.eqb message "") eqn:He.
    + apply String.eqb_eq in He. subst message.
      exists ("Request failed with status "
                +:+ pretty (ApiClient.status response)).
      split; [reflexivity|]. split; [intros Hempty; discriminate Hempty|].
      split; [congruence|reflexivity].
    + apply String.eqb_neq in He.
      exists message. split; [reflexivity|]. split; [exact He|].
      split; [reflexivity|congruence].
  - intros Hs. unfold ApiClient.ok. rewrite Hs. reflexivity.
  - intros Hok Hs. rewrite Hok. simpl.
    apply N.eqb_neq in Hs. rewrite Hs. reflexivity.
  - intros data. destruct (ApiClient.ok response) eqn:Hok; simpl.
    + intros _. unfold ApiClient.ok in Hok.
      apply andb_true_iff in Hok as [H1 H2].
      apply N.leb_le in H1, H2. split; assumption.
    + destruct (ApiClient.text response); discriminate.
Qed.

Lemma handle_outcomes_witness :
  ApiClient.handle (A := unit)
    {| ApiClient.status := 503; ApiClient.text := Returned "";
       ApiClient.json := Returned tt |}
  = Thrown (Error "Request failed with status 503")
  /\ ApiClient.handle (A := unit)
       {| ApiClient.status := 204; ApiClient.text := Returned "";
          ApiClient.json := Thrown (Error "SyntaxError") |}
     = Returned ApiClient.Undefined.
Proof.
  pose (r := {| ApiClient.status := 503; ApiClient.text := Returned "";
                ApiClient.json := Returned tt |}).
  destruct (handle_outcomes r) as (Hfail & _).
  destruct (Hfail eq_refl "" eq_refl) as (reported & Hr & _ & _ & Hmsg).
  split.
  - fold r. rewrite Hr, (Hmsg eq_refl). reflexivity.
  - exact (proj1 (proj2 (handle_outcomes (A := unit)
             {| ApiClient.status := 204; ApiClient.text := Returned "";
                ApiClient.json := Thrown (Error "SyntaxError") |})) eq_refl).
Defined.

(** X13. [api.getLatestMemory] resolves a 404 to [null] without reading
    the body, treats every other response as [handle] does, so that another
    status outside 200..299 is thrown, and passes a failed [fetch] on.
    [null] is also what an accepted response whose body is [null] resolves
    to: the result is [null] exactly for a 404 and for such a response,
    and the caller cannot tell the two apart. *)
Theorem getLatestMemory_not_found {A : Type}
  (fetched : outcome (ApiClient.Response (option A))) :
  (forall response,
      fetched = Returned response ->
      ApiClient.status response = 404%N ->
      ApiClient.getLatestMemory fetched = Returned (ApiClient.Value None))
  /\ (forall response,
      fetched = Returned response ->
      ApiClient.status response <> 404%N ->
      ApiClient.getLatestMemory fetched = ApiClient.handle response)
  /\ (forall response message,
      fetched = Returned response ->
      ApiClient.ok response = false ->
      ApiClient.status response <> 404%N ->
      ApiClient.text response = Returned message ->
      is_thrown (ApiClient.getLatestMemory fetched) = true)
  /\ (forall error,
      fetched = Thrown error ->
      ApiClient.getLatestMemory fetched = Thrown error)
  /\ (ApiClient.getLatestMemory fetched = Returned (ApiClient.Value None)
      <-> exists response,
            fetched = Returned response
            /\ (ApiClient.status response = 404%N
                \/ (ApiClient.ok response = true
                    /\ ApiClient.status response <> 204%N
                    /\ ApiClient.json response = Returned None))).
Proof.
  unfold ApiClient.getLatestMemory. split; [|split; [|split; [|split]]].
  - intros response -> Hs. rewrite Hs. reflexivity.
  - intros response -> Hs. apply N.eqb_neq in Hs. rewrite Hs. reflexivity.
  - intros response message -> Hok Hs Ht. apply N.eqb_neq in Hs. rewrite Hs.
    unfold ApiClient.handle. rewrite Hok, Ht. reflexivity.
  - intros error ->. reflexivity.
  - split.
    + destruct fetched as [response|error]; [|discriminate].
      intros Hnull. exists response. split; [reflexivity|].
      destruct (ApiClient.status response =? 404)%N eqn:Hs;
        [left; by apply N.eqb_eq|].
      right. unfold ApiClient.handle in Hnull.
      destruct (ApiClient.ok response); simpl in Hnull.
      * destruct (ApiClient.status response =? 204)%N eqn:Hs';
          [discriminate Hnull|].
        apply N.eqb_neq in Hs'. split; [reflexivity|]. split; [exact Hs'|].
        destruct (ApiClient.json response) as [[record|]|error];
          first [discriminate Hnull | reflexivity].
      * destruct (ApiClient.text response); discriminate Hnull.
    + intros (response & -> & [Hs | (Hok & Hs & Hjson)]).
      * rewrite Hs. reflexivity.
      * destruct (ApiClient.status response =? 404)%N; [reflexivity|].
        unfold ApiClient.handle. rewrite Hok, Hjson. simpl.
        apply N.eqb_neq in Hs. rewrite Hs. reflexivity.
Qed.

Lemma getLatestMemory_not_found_witness :
  ApiClient.getLatestMemory
    (Returned {| ApiClient.status := 404;
                 ApiClient.text := Returned "Not Found";
                 ApiClient.json :=
                   Thrown (Error "SyntaxError") : outcome (option unit) |})
  = Returned (ApiClient.Value None)
  /\ ApiClient.getLatestMemory
       (Returned {| ApiClient.status := 200;
                    ApiClient.text := Returned "null";
                    ApiClient.json := Returned None : outcome (option unit) |})
     = Returned (ApiClient.Value None).
Proof.
  split.
  - exact (proj1 (getLatestMemory_not_found _)
             {| ApiClient.status := 404;
                ApiClient.text := Returned "Not Found";
                ApiClient.json := Thrown (Error "SyntaxError") |}
             eq_refl eq_refl).
  - apply (proj2 (proj2 (proj2 (proj2 (getLatestMemory_not_found _))))).
    eexists. split; [reflexivity|]. right.
    split; [reflexivity|]. split; [discriminate|reflexivity].
Defined.

(** * Properties of the request hooks *)

(** X14. [renderVoice]: without a session it throws before anything is
    touched; with one, it sends one wav instruction under the session's id
    and a render id made from the fresh [nanoid]. Only a successful answer
    replaces the stored render: a failure keeps the previous one, is
    reported in a toast and thrown again. The rendering flag is down after
    the call in both cases. *)
Theorem renderVoice_outcomes (text profile dynamics nano : string)
  (h : VoiceRenderer.Hook) :
  (forall answer,
      VoiceRenderer.renderVoice None text profile dynamics nano answer h
      = (Thrown (Error "Session must be active to render voice"), h))
  /\ (forall stored answer,
      let call :=
        VoiceRenderer.renderVoice (Some stored) text profile dynamics nano answer in
      let h' := exec call h in
      VoiceRenderer.isRendering h' = false
      /\ VoiceRenderer.requests h'
         = VoiceRenderer.requests h
           ++ [(session_id (metadata stored),
                {| VoiceRenderer.r_session_id := session_id (metadata stored);
                   VoiceRenderer.render_id := "render_" +:+ nano;
                   VoiceRenderer.r_text := text;
                   VoiceRenderer.melody := None;
                   VoiceRenderer.voice_profile := profile;
                   VoiceRenderer.dynamics := dynamics;
                   VoiceRenderer.format := "wav" |})]
      /\ match answer with
         | Returned audio =>
             result call h = Returned tt
             /\ VoiceRenderer.render h' = Some audio
             /\ VoiceRenderer.toasts h'
                = VoiceRenderer.toasts h ++ [ToastSuccess "Voice render complete"]
         | Thrown (Error message) =>
             result call h = Thrown (Error message)
             /\ VoiceRenderer.render h' = VoiceRenderer.render h
             /\ VoiceRenderer.toasts h'
                = VoiceRenderer.toasts h ++ [ToastError message]
         end).
Proof.
  split; [reflexivity|].
  intros stored answer call h'. subst call h'.
  destruct h as [kept flag sent shown].
  destruct answer as [audio|[message]]; cbn; repeat split; reflexivity.
Qed.

(** X15. [generate]: without a session it throws before anything is
    touched; with one, the request carries the stored session's id, key,
    tempo and emotional goal as they are, with the prompt, the modes and a
    request id made from the fresh [nanoid]. Only a successful answer
    replaces the bundle; a failure keeps the previous bundle, is reported
    and thrown again; the generating flag is down after the call. *)
Theorem generate_outcomes (prompt nano : string) (modes : list Generation.Mode)
  (h : Generation.Hook) :
  (forall answer,
      Generation.generate None prompt modes nano answer h
      = (Thrown (Error "Session must be active to generate content"), h))
  /\ (forall stored answer,
      let call := Generation.generate (Some stored) prompt modes nano answer in
      let h' := exec call h in
      Generation.isGenerating h' = false
      /\ Generation.requests h'
         = Generation.requests h
           ++ [(session_id (metadata stored),
                {| Generation.g_session_id := session_id (metadata stored);
                   Generation.g_request_id := "gen_" +:+ nano;
                   Generation.g_prompt := prompt;
                   Generation.g_modes := modes;
                   Generation.g_emotional_goal := emotional_goal (metadata stored);
                   Generation.g_tempo := tempo (metadata stored);
                   Generation.g_key := key (metadata stored) |})]
      /\ match answer with
         | Returned response =>
             result call h = Returned tt
             /\ Generation.bundle h' = Some response
         | Thrown (Error message) =>
             result call h = Thrown (Error message)
             /\ Generation.bundle h' = Generation.bundle h
             /\ Generation.toasts h'
                = Generation.toasts h ++ [ToastError message]
         end).
Proof.
  split; [reflexivity|].
  intros stored answer call h'. subst call h'.
  destruct h as [kept flag sent shown].
  destruct answer as [response|[message]]; cbn; repeat split; reflexivity.
Qed.

(** * Properties of the components *)

Module ImaginationFacts.

Import Generation CreativeImagination.

Lemma Mode_eqb_eq (a b : Mode) : Mode_eqb a b = true <-> a = b.
Proof. destruct a, b; simpl; split; congruence. Qed.

Lemma Mode_eqb_refl (a : Mode) : Mode_eqb a a = true.
Proof. by apply Mode_eqb_eq. Qed.

Lemma Mode_eqb_neq (a b : Mode) : Mode_eqb a b = false <-> a <> b.
Proof. destruct a, b; simpl; split; congruence. Qed.

Lemma includes_elem (prev : list Mode) (mode : Mode) :
  includes prev mode = true <-> mode ∈ prev.
Proof.
  unfold includes. rewrite existsb_exists. split.
  - intros (item & Hin & He). apply Mode_eqb_eq in He. subst item.
    by apply list_elem_of_In.
  - intros Hin. exists mode. split; [by apply list_elem_of_In|].
    apply Mode_eqb_refl.
Qed.

Lemma elem_of_removed (mode other : Mode) (prev : list Mode) :
  other ∈ List.filter (fun item => negb (Mode_eqb item mode)) prev
  <-> other ∈ prev /\ other <> mode.
Proof.
  rewrite !list_elem_of_In, List.filter_In, negb_true_iff, Mode_eqb_neq.
  reflexivity.
Qed.

Lemma NoDup_removed (mode : Mode) (prev : list Mode) :
  NoDup prev -> NoDup (List.filter (fun item => negb (Mode_eqb item mode)) prev).
Proof.
  intros Hnd. apply NoDup_ListNoDup. apply List.NoDup_filter.
  by apply NoDup_ListNoDup.
Qed.

Lemma removed_absent (mode : Mode) (prev : list Mode) :
  mode ∉ prev ->
  List.filter (fun item => negb (Mode_eqb item mode)) prev = prev.
Proof.
  induction prev as [|item prev IH]; intros Hin; [reflexivity|].
  simpl. apply not_elem_of_cons in Hin as [Hne Hin].
  destruct (Mode_eqb item mode) eqn:He.
  - apply Mode_eqb_eq in He. congruence.
  - simpl. f_equal. by apply IH.
Qed.

Lemma modes_bounded (l : list Mode) : NoDup l -> length l <= 4.
Proof.
  intros Hnd.
  assert (Hsub : l ⊆ [lyric; melody; metaphor; structure]).
  { intros m _. destruct m; set_solver. }
  apply (submseteq_length l [lyric; melody; metaphor; structure]).
  by apply NoDup_submseteq.
Qed.

End ImaginationFacts.

(** X16. Toggling a mode flips exactly that mode's membership in the
    selection and leaves the other modes as they are; a selection without
    duplicates stays without duplicates, so it never has more than four
    entries; and switching a mode on and off again restores the selection
    as it was. *)
Theorem toggleMode_flips (mode : Generation.Mode) (prev : list Generation.Mode) :
  (forall other,
      other ∈ CreativeImagination.toggleMode mode prev
      <-> (if Generation.Mode_eqb other mode then mode ∉ prev else other ∈ prev))
  /\ (NoDup prev ->
      NoDup (CreativeImagination.toggleMode mode prev)
      /\ length (CreativeImagination.toggleMode mode prev) <= 4)
  /\ (mode ∉ prev ->
      CreativeImagination.toggleMode mode
        (CreativeImagination.toggleMode mode prev) = prev).
Proof.
  unfold CreativeImagination.toggleMode.
  destruct (CreativeImagination.includes prev mode) eqn:Hinc.
  - apply ImaginationFacts.includes_elem in Hinc.
    split; [|split].
    + intros other. rewrite ImaginationFacts.elem_of_removed.
      destruct (Generation.Mode_eqb other mode) eqn:He.
      * apply ImaginationFacts.Mode_eqb_eq in He. subst other.
        split; [intros [_ Hne]; congruence | intros Hn; contradiction].
      * apply ImaginationFacts.Mode_eqb_neq in He. tauto.
    + intros Hnd.
      pose proof (ImaginationFacts.NoDup_removed mode prev Hnd) as Hnd'.
      split; [exact Hnd' | by apply ImaginationFacts.modes_bounded].
    + intros Hn. contradiction.
  - assert (Hn : mode ∉ prev).
    { intros Hin. apply ImaginationFacts.includes_elem in Hin. congruence. }
    split; [|split].
    + intros other. rewrite elem_of_app, list_elem_of_singleton.
      destruct (Generation.Mode_eqb other mode) eqn:He.
      * apply ImaginationFacts.Mode_eqb_eq in He. subst other. tauto.
      * apply ImaginationFacts.Mode_eqb_neq in He. tauto.
    + intros Hnd.
      assert (Hnd' : NoDup (prev ++ [mode])).
      { apply NoDup_app. split; [exact Hnd|]. split.
        - intros m Hm Hm'. apply list_elem_of_singleton in Hm'. congruence.
        - apply NoDup_singleton. }
      split; [exact Hnd' | by apply ImaginationFacts.modes_bounded].
    + intros _.
      replace (CreativeImagination.includes (prev ++ [mode]) mode) with true.
      * rewrite List.filter_app. simpl.
        rewrite ImaginationFacts.Mode_eqb_refl. simpl.
        rewrite app_nil_r. by apply ImaginationFacts.removed_absent.
      * symmetry. apply ImaginationFacts.includes_elem. set_solver.
Qed.

Lemma toggleMode_flips_witness :
  CreativeImagination.toggleMode Generation.structure
    (CreativeImagination.toggleMode Generation.structure
       CreativeImagination.default_modes)
  = CreativeImagination.default_modes
  /\ NoDup (CreativeImagination.toggleMode Generation.melody
              CreativeImagination.default_modes).
Proof.
  destruct (toggleMode_flips Generation.structure
              CreativeImagination.default_modes) as (_ & _ & Hback).
  destruct (toggleMode_flips Generation.melody
              CreativeImagination.default_modes) as (_ & Hnd & _).
  split.
  - apply Hback. unfold CreativeImagination.default_modes.
    intros Hin. repeat (apply elem_of_cons in Hin as [Hin|Hin]; [discriminate|]).
    by apply elem_of_nil in Hin.
  - apply Hnd. unfold CreativeImagination.default_modes.
    repeat (apply NoDup_cons; split;
            [intros Hin;
             repeat (apply elem_of_cons in Hin as [Hin|Hin]; [discriminate|]);
             by apply elem_of_nil in Hin|]).
    apply NoDup_nil_2.
Defined.

Module GroupingFacts.

Import Generation CreativeImagination ImaginationFacts.

Lemma entry_of_assign acc key item other :
  entry_of (assign acc key item) other
  = if Mode_eqb key other then Some item else entry_of acc other.
Proof.
  induction acc as [|[k v] rest IH]; simpl; [reflexivity|].
  destruct (Mode_eqb k key) eqn:Hk; simpl.
  - apply Mode_eqb_eq in Hk. subst k.
    destruct (Mode_eqb key other); reflexivity.
  - rewrite IH. destruct (Mode_eqb k other) eqn:Hko; [|reflexivity].
    destruct (Mode_eqb key other) eqn:Hkey; [|reflexivity].
    apply Mode_eqb_eq in Hko, Hkey. subst. rewrite Mode_eqb_refl in Hk.
    discriminate.
Qed.

Lemma keys_assign acc key item :
  map fst (assign acc key item)
  = if includes (map fst acc) key then map fst acc else map fst acc ++ [key].
Proof.
  unfold includes.
  induction acc as [|[k v] rest IH]; simpl; [reflexivity|].
  destruct (Mode_eqb k key) eqn:Hk; simpl; [reflexivity|].
  rewrite IH. destruct (existsb _ (map fst rest)); reflexivity.
Qed.

Lemma NoDup_keys_assign acc key item :
  NoDup (map fst acc) -> NoDup (map fst (assign acc key item)).
Proof.
  intros Hnd. rewrite keys_assign.
  destruct (includes (map fst acc) key) eqn:Hinc; [exact Hnd|].
  apply NoDup_app. split; [exact Hnd|]. split; [|apply NoDup_singleton].
  intros m Hm Hm'. apply list_elem_of_singleton in Hm'. subst m.
  apply includes_elem in Hm. congruence.
Qed.

Lemma entry_of_elem acc key item :
  NoDup (map fst acc) ->
  (key, item) ∈ acc <-> entry_of acc key = Some item.
Proof.
  induction acc as [|[k v] rest IH]; intros Hnd; simpl.
  - split; [intros Hin; by apply elem_of_nil in Hin | discriminate].
  - apply NoDup_cons in Hnd as [Hk Hnd].
    rewrite elem_of_cons, (IH Hnd).
    destruct (Mode_eqb k key) eqn:He.
    + apply Mode_eqb_eq in He. subst k. split.
      * intros [[= ->] | Hin]; [reflexivity|].
        exfalso. apply Hk. apply (IH Hnd) in Hin.
        apply list_elem_of_fmap. exists (key, item). split; [reflexivity|exact Hin].
      * intros [= ->]. left. reflexivity.
    + apply Mode_eqb_neq in He. split.
      * intros [[= -> ->] | Hin]; [congruence | exact Hin].
      * intros Hin. right. exact Hin.
Qed.

Lemma grouped_snoc items item :
  grouped (items ++ [item]) = assign (grouped items) (item_type item) item.
Proof. unfold grouped. rewrite fold_left_app. reflexivity. Qed.

Lemma grouped_entry items key :
  entry_of (grouped items) key = last (of_type key items).
Proof.
  induction items as [|item items IH] using rev_ind; [reflexivity|].
  rewrite grouped_snoc, entry_of_assign. unfold of_type in *.
  rewrite List.filter_app. simpl.
  destruct (Mode_eqb (item_type item) key).
  - rewrite last_snoc. reflexivity.
  - rewrite app_nil_r. exact IH.
Qed.

Lemma grouped_NoDup items : NoDup (map fst (grouped items)).
Proof.
  induction items as [|item items IH] using rev_ind; [apply NoDup_nil_2|].
  rewrite grouped_snoc. by apply NoDup_keys_assign.
Qed.

End GroupingFacts.

(** X17. The output gallery shows one card per type: the grouped object
    has no two entries of the same type, hence at most four, and the
    entry of a type is the last item of that type in the bundle, so a
    later item replaces an earlier one of its type. Without a bundle
    there is no gallery. *)
Theorem groupedOutputs_last_wins (b : Generation.GenerationBundle) :
  CreativeImagination.groupedOutputs None = None
  /\ exists cards,
       CreativeImagination.groupedOutputs (Some b) = Some cards
       /\ NoDup (map fst cards)
       /\ length cards <= 4
       /\ (forall key item,
             (key, item) ∈ cards
             <-> last (of_type key (Generation.outputs b)) = Some item).
Proof.
  split; [reflexivity|].
  exists (grouped (Generation.outputs b)).
  pose proof (GroupingFacts.grouped_NoDup (Generation.outputs b)) as Hnd.
  split; [reflexivity|]. split; [exact Hnd|]. split.
  - rewrite <- (length_map fst).
    by apply ImaginationFacts.modes_bounded.
  - intros key item.
    rewrite (GroupingFacts.entry_of_elem _ key item Hnd).
    rewrite GroupingFacts.grouped_entry. reflexivity.
Qed.


Lemma run_feed_valid (baseUrl : URL) (JSON_parse : string -> outcome JsonValue)
  (ls : list Label) :
  feed_valid (run baseUrl JSON_parse ls initial_world).
Proof.
  induction ls as [|l ls IH] using rev_ind.
  - apply Forall_nil_2.
  - rewrite run_last. apply step_feed_valid. exact IH.
Qed.

(** X18. The analysis panel of the audio pipeline shows at most five
    entries, each of them an entry of the provider's feed that passed
    [isSessionEvent] and whose [source] is ["sound_understanding"], in the
    order of the feed (newest first); as long as the feed holds no more
    than five such events, all of them are shown. *)
Theorem analysis_panel_entries (baseUrl : URL)
  (JSON_parse : string -> outcome JsonValue) (ls : list Label) :
  let feed := events (run baseUrl JSON_parse ls initial_world) in
  let shown := AudioPipeline.analysisEvents feed in
  length shown <= 5
  /\ shown `sublist_of` feed
  /\ Forall
       (fun e =>
          isSessionEvent e = true
          /\ get_prop e "source" = Some (JString "sound_understanding"))
       shown
  /\ (length (List.filter (AudioPipeline.source_is "sound_understanding") feed) <= 5
      -> forall e,
           e ∈ feed ->
           get_prop e "source" = Some (JString "sound_understanding") ->
           e ∈ shown).
Proof.
  intros feed shown. subst shown. unfold AudioPipeline.analysisEvents.
  set (matching := List.filter (AudioPipeline.source_is "sound_understanding") feed).
  assert (Hsub : matching `sublist_of` feed).
  { subst matching. clear. induction feed as [|e feed IH]; simpl; [constructor|].
    destruct (AudioPipeline.source_is _ e).
    - by apply sublist_skip.
    - by apply sublist_cons. }
  split; [rewrite length_take; lia|].
  split; [etrans; [apply sublist_take | exact Hsub]|].
  split.
  - apply Forall_take. apply Forall_forall. intros e He.
    assert (Hin : e ∈ feed) by (eapply elem_of_sublist; eassumption).
    split.
    + pose proof (run_feed_valid baseUrl JSON_parse ls) as Hall.
      unfold feed_valid in Hall. rewrite Forall_forall in Hall. by apply Hall.
    + subst matching. apply list_elem_of_In, List.filter_In in He as [_ He].
      unfold AudioPipeline.source_is in He.
      destruct (get_prop e "source") as [[| | |source| |]|]; try discriminate He.
      apply String.eqb_eq in He. by subst source.
  - intros Hlen e He Hsource. rewrite take_ge by exact Hlen.
    subst matching. apply list_elem_of_In, List.filter_In.
    split; [by apply list_elem_of_In|].
    unfold AudioPipeline.source_is. rewrite Hsource. apply String.eqb_refl.
Qed.


(** X19. What the session form submits. With no session stored, the
    create call carries the form's fields as they are, except the tempo:
    an empty tempo field (read as [NaN]) or a tempo of zero is sent as no
    tempo, so the tempo of a create request is never [NaN] nor zero. With
    a session stored the form's values are not used at all: no call is
    made and the stored session is the result. *)
Theorem form_submission (baseUrl : URL) (values : SessionOverview.FormValues)
  (created : outcome SessionState) (w : World) :
  let payload := SessionOverview.submitted values in
  let call := ensureSession baseUrl payload created in
  (session w = None ->
   exists request,
     remote_log (exec call w) = remote_log w ++ [CreateSessionCall request]
     /\ c_user_id request = SessionOverview.f_user_id values
     /\ c_intent request = SessionOverview.f_intent values
     /\ c_daw request = SessionOverview.f_daw values
     /\ c_key request = SessionOverview.f_key values
     /\ c_emotional_goal request = SessionOverview.f_emotional_goal values
     /\ c_references request = SessionOverview.f_references values
     /\ (forall n,
           c_tempo request = Some n
           <-> SessionOverview.f_tempo values = Some n
               /\ n <> S754_nan
               /\ forall sign, n <> S754_zero sign))
  /\ (forall stored,
        session w = Some stored ->
        result call w = Returned stored
        /\ remote_log (exec call w) = remote_log w
        /\ session (exec call w) = Some stored).
Proof.
  intros payload call. split.
  - intros Hs. exists (create_request payload). split.
    { subst call. destruct created as [state|error].
      - by destruct (ensureSession_creates baseUrl payload state w Hs)
          as (_ & _ & Hlog).
      - provider_unfold. rewrite Hs. reflexivity. }
    do 6 (split; [reflexivity|]).
    intros n. subst payload. simpl.
    destruct (SessionOverview.f_tempo values) as [m|]; simpl.
    + destruct m as [sign|sign| |sign mantissa exponent]; simpl; split.
      all: try (intros [= <-]; split; [reflexivity|]; split; [discriminate|];
                intros other; discriminate).
      all: try discriminate.
      all: intros ([= <-] & Hn & Hz);
        first [ reflexivity
              | exfalso; apply Hn; reflexivity
              | exfalso; eapply Hz; reflexivity ].
    + split; [discriminate|]. intros [Hn _]. discriminate.
  - intros stored Hs. subst call. unfold result, exec.
    rewrite (ensureSession_stored baseUrl payload created stored w Hs). simpl.
    split; [reflexivity|].
    destruct (stream_not_open w); simpl; split; first [reflexivity | exact Hs].
Qed.

Lemma form_submission_witness :
  exists request,
    remote_log
      (exec (ensureSession Sample.base
               (SessionOverview.submitted
                  {| SessionOverview.f_user_id := "artist_01";
                     SessionOverview.f_intent := creative_session;
                     SessionOverview.f_daw := None;
                     SessionOverview.f_key := None;
                     SessionOverview.f_tempo := Some S754_nan;
                     SessionOverview.f_emotional_goal := None;
                     SessionOverview.f_references := [] |})
               (Returned (Sample.opened "s1")))
         initial_world)
    = [CreateSessionCall request]
    /\ c_tempo request = None.
Proof.
  destruct (form_submission Sample.base
              {| SessionOverview.f_user_id := "artist_01";
                 SessionOverview.f_intent := creative_session;
                 SessionOverview.f_daw := None;
                 SessionOverview.f_key := None;
                 SessionOverview.f_tempo := Some S754_nan;
                 SessionOverview.f_emotional_goal := None;
                 SessionOverview.f_references := [] |}
              (Returned (Sample.opened "s1")) initial_world) as [Hnew _].
  destruct (Hnew eq_refl) as (request & Hlog & _ & _ & _ & _ & _ & _ & Htempo).
  exists request. split; [exact Hlog|].
  destruct (c_tempo request) as [n|] eqn:Hn; [|reflexivity].
  destruct (proj1 (Htempo n) eq_refl) as ([= <-] & Hnan & _).
  by destruct Hnan.
Defined.


(** * Properties of the capture hook over time *)

Module CaptureRunFacts.

Import LiveAudioCapture CaptureRun.

Lemma count_after (p : AudioAction -> bool) (h h' : Hook) (more : list AudioAction) :
  actions h' = actions h ++ more ->
  count p h' = count p h + length (List.filter p more).
Proof.
  intros Ha. unfold count. rewrite Ha, List.filter_app, length_app. reflexivity.
Qed.

Ltac count_step Ha :=
  rewrite (count_after is_connected _ _ _ Ha),
    (count_after is_processor_disconnect _ _ _ Ha),
    (count_after is_source_disconnect _ _ _ Ha),
    (count_after is_context_close _ _ _ Ha).

Lemma released_empty (h : Hook) : refs_empty h -> released h = [].
Proof.
  intros (Hc & Hp & Hs & Hm). unfold released. rewrite Hc, Hp, Hs, Hm. reflexivity.
Qed.

Lemma no_track_stop (p : AudioAction -> bool) (tracks : list nat) :
  (forall t, p (TrackStop t) = false) ->
  List.filter p (map TrackStop tracks) = [].
Proof.
  intros Hp. induction tracks as [|t tracks IH]; [reflexivity|].
  simpl. rewrite Hp. exact IH.
Qed.

Lemma no_acquisition (p : AudioAction -> bool) (acquired : list AudioAction) :
  (forall a, is_acquisition a = true -> p a = false) ->
  forallb is_acquisition acquired = true ->
  List.filter p acquired = [].
Proof.
  intros Hp. induction acquired as [|a acquired IH]; [reflexivity|].
  simpl. intros Ha. apply andb_true_iff in Ha as [Ha Hrest].
  rewrite (Hp a Ha). by apply IH.
Qed.

(** *** The pieces of [startCapture] *)

Lemma guard_spec (session : option SessionState) (capturing : bool) (h : Hook) :
  exists proceed h',
    startCapture_guard session capturing h = (Returned proceed, h')
    /\ (proceed = true -> exists stored, session = Some stored)
    /\ (session <> None -> proceed = negb capturing)
    /\ isCapturing h' = isCapturing h
    /\ actions h' = actions h
    /\ audioContextRef h' = audioContextRef h
    /\ processorRef h' = processorRef h
    /\ sourceRef h' = sourceRef h
    /\ streamRef h' = streamRef h.
Proof.
  destruct h as [flag c p s m done logged shown].
  destruct session as [stored|]; do 2 eexists; (split; [reflexivity|]); simpl.
  - split; [eauto|]. repeat split; reflexivity.
  - split; [discriminate|]. split; [congruence|]. repeat split; reflexivity.
Qed.

Lemma startCapture_steps (session : option SessionState) (devices : Devices)
  (h : Hook) :
  exec (startCapture session devices) h
  = match startCapture_guard session (isCapturing h) h with
    | (Returned true, h') => exec (startCapture_resume session devices) h'
    | (_, h') => h'
    end.
Proof.
  destruct h as [flag c p s m done logged shown].
  destruct session as [stored|]; [|reflexivity].
  destruct flag; reflexivity.
Qed.

Lemma resume_granted (session : option SessionState) (stream : MediaStream)
  (context source processor : nat) (h : Hook) :
  let devices :=
    {| getUserMedia := Returned stream; new_AudioContext := Returned context;
       createMediaStreamSource := Returned source;
       createScriptProcessor := Returned processor |} in
  let audio :=
    {| context_handle := context; context_sampleRate := Number.of_Z 22050 |} in
  let h' := exec (startCapture_resume session devices) h in
  result (startCapture_resume session devices) h = Returned tt
  /\ isCapturing h' = true
  /\ audioContextRef h' = Some audio
  /\ processorRef h' = Some processor
  /\ sourceRef h' = Some source
  /\ streamRef h' = Some stream
  /\ actions h'
     = actions h
       ++ [GetUserMedia stream; NewAudioContext audio;
           CreateMediaStreamSource source context (stream_handle stream);
           CreateScriptProcessor processor 4096 1 1;
           SetOnAudioProcess processor
             {| handler_session := session; handler_context := audio |};
           ConnectSource source processor;
           ConnectDestination processor context].
Proof.
  intros devices audio h'. subst devices audio h'.
  destruct h as [flag c p s m done logged shown].
  cbn. rewrite <- !app_assoc. repeat split; reflexivity.
Qed.

Lemma resume_refused (session : option SessionState) (devices : Devices)
  (h : Hook) :
  granted devices = false ->
  let h' := exec (startCapture_resume session devices) h in
  result (startCapture_resume session devices) h = Returned tt
  /\ (exists acquired,
        forallb is_acquisition acquired = true
        /\ actions h' = actions h ++ acquired ++ released h)
  /\ isCapturing h' = false
  /\ refs_empty h'.
Proof.
  intros Hg h'. subst h'.
  destruct h as [flag c p s m done logged shown].
  destruct devices as [[stream|e1] [context|e2] [source|e3] [processor|e4]];
    try discriminate Hg; clear Hg;
    (split; [reflexivity|]); (split; [|repeat split; reflexivity]).
  all: unfold released; cbn.
  all: first
    [ exists [GetUserMedia stream;
              NewAudioContext {| context_handle := context;
                                 context_sampleRate := Number.of_Z 22050 |};
              CreateMediaStreamSource source context (stream_handle stream)];
      split; [reflexivity|]; rewrite <- !app_assoc; reflexivity
    | exists [GetUserMedia stream;
              NewAudioContext {| context_handle := context;
                                 context_sampleRate := Number.of_Z 22050 |}];
      split; [reflexivity|]; rewrite <- !app_assoc; reflexivity
    | exists [GetUserMedia stream];
      split; [reflexivity|]; rewrite <- !app_assoc; reflexivity
    | exists [];
      split; [reflexivity|]; rewrite <- !app_assoc; reflexivity ].
Qed.

Lemma resume_returns (session : option SessionState) (devices : Devices)
  (h : Hook) :
  result (startCapture_resume session devices) h = Returned tt.
Proof.
  destruct (granted devices) eqn:Hg.
  - destruct devices as [[stream|e1] [context|e2] [source|e3] [processor|e4]];
      try discriminate Hg.
    apply resume_granted.
  - by apply resume_refused.
Qed.

Lemma effect_returns (session : option SessionState) (h : Hook) :
  result (autoStopEffect session) h = Returned tt.
Proof.
  destruct (not_active session && isCapturing h) eqn:Hc.
  - apply andb_true_iff in Hc as [Hs Hc]. unfold result.
    rewrite (CaptureFacts.autoStopEffect_fires session h Hs Hc).
    rewrite CaptureFacts.stopCapture_spec. reflexivity.
  - apply andb_false_iff in Hc. unfold result.
    rewrite (CaptureFacts.autoStopEffect_idle session h Hc). reflexivity.
Qed.

(** *** What holds whatever overlaps *)

Lemma held_of_refs (h : Hook) :
  (refs_held h -> held h = 1) /\ (refs_empty h -> held h = 0).
Proof.
  unfold held. split.
  - intros (context & processor & source & stream & _ & Hp & _). by rewrite Hp.
  - intros (_ & Hp & _). by rewrite Hp.
Qed.

Lemma released_counts (h : Hook) :
  refs_held h \/ refs_empty h ->
  length (List.filter is_connected (released h)) = 0
  /\ length (List.filter is_processor_disconnect (released h)) = held h
  /\ length (List.filter is_source_disconnect (released h)) = held h
  /\ length (List.filter is_context_close (released h)) = held h.
Proof.
  intros [Hheld | Hempty].
  - rewrite (proj1 (held_of_refs h) Hheld).
    destruct Hheld as (context & processor & source & stream & Hc & Hp & Hs & Hm).
    unfold released. rewrite Hc, Hp, Hs, Hm. simpl.
    rewrite !no_track_stop by reflexivity. repeat split; reflexivity.
  - rewrite (proj2 (held_of_refs h) Hempty), (released_empty h Hempty).
    repeat split; reflexivity.
Qed.

Lemma stopCapture_sound (h : Hook) : sound h -> sound (exec stopCapture h).
Proof.
  intros (Hrefs & H1 & H2 & H3).
  destruct (released_counts h Hrefs) as (R0 & R1 & R2 & R3).
  unfold exec. rewrite CaptureFacts.stopCapture_spec. simpl.
  split; [right; repeat split|].
  match goal with
  | |- context [count _ ?h'] =>
      assert (Ha : actions h' = actions h ++ released h) by reflexivity;
      assert (Hh : held h' = 0) by reflexivity
  end.
  count_step Ha. rewrite Hh, R0, R1, R2, R3. lia.
Qed.

Lemma resume_sound (session : option SessionState) (devices : Devices) (h : Hook) :
  sound h -> sound (exec (startCapture_resume session devices) h).
Proof.
  intros (Hrefs & H1 & H2 & H3).
  destruct (granted devices) eqn:Hg.
  - destruct devices as [[stream|e1] [context|e2] [source|e3] [processor|e4]];
      try discriminate Hg.
    destruct (resume_granted session stream context source processor h)
      as (_ & _ & Hc & Hp & Hs & Hm & Ha).
    cbv zeta in *.
    split; [left; unfold refs_held; eauto 10|].
    assert (Hh : held (exec (startCapture_resume session
                               {| getUserMedia := Returned stream;
                                  new_AudioContext := Returned context;
                                  createMediaStreamSource := Returned source;
                                  createScriptProcessor := Returned processor |})
                         h) = 1)
      by (unfold held; rewrite Hp; reflexivity).
    assert (held h <= 1) by (unfold held; destruct (processorRef h); lia).
    count_step Ha. rewrite Hh. simpl. lia.
  - destruct (resume_refused session devices h Hg)
      as (_ & (acquired & Hacq & Ha) & _ & Hempty).
    cbv zeta in *.
    destruct (released_counts h Hrefs) as (R0 & R1 & R2 & R3).
    split; [right; exact Hempty|].
    rewrite (proj2 (held_of_refs _) Hempty).
    count_step Ha.
    rewrite !List.filter_app, !length_app, R0, R1, R2, R3.
    rewrite !no_acquisition by (try exact Hacq; by intros []).
    simpl. lia.
Qed.

Lemma effect_sound (session : option SessionState) (h : Hook) :
  sound h -> sound (exec (autoStopEffect session) h).
Proof.
  intros Hb. destruct (not_active session && isCapturing h) eqn:Hc.
  - apply andb_true_iff in Hc as [Hs Hc].
    unfold exec. rewrite (CaptureFacts.autoStopEffect_fires session h Hs Hc).
    by apply stopCapture_sound.
  - apply andb_false_iff in Hc.
    unfold exec. rewrite (CaptureFacts.autoStopEffect_idle session h Hc).
    exact Hb.
Qed.

(** A property of the refs and of the actions does not see the flag. *)
Lemma sound_same (h h' : Hook) :
  actions h' = actions h ->
  audioContextRef h' = audioContextRef h ->
  processorRef h' = processorRef h ->
  sourceRef h' = sourceRef h ->
  streamRef h' = streamRef h ->
  sound h -> sound h'.
Proof.
  intros Ha Hc Hp Hs Hm. unfold sound, refs_held, refs_empty, held, count.
  rewrite Ha, Hc, Hp, Hs, Hm. tauto.
Qed.

Lemma stopCapture_agrees (h : Hook) : agrees (exec stopCapture h).
Proof.
  unfold exec. rewrite CaptureFacts.stopCapture_spec. repeat split.
Qed.

Lemma resume_agrees (session : option SessionState) (devices : Devices) (h : Hook) :
  agrees (exec (startCapture_resume session devices) h).
Proof.
  unfold agrees. destruct (granted devices) eqn:Hg.
  - destruct devices as [[stream|e1] [context|e2] [source|e3] [processor|e4]];
      try discriminate Hg.
    destruct (resume_granted session stream context source processor h)
      as (_ & Hflag & Hc & Hp & Hs & Hm & _).
    cbv zeta in *. rewrite Hflag. unfold refs_held. eauto 10.
  - destruct (resume_refused session devices h Hg) as (_ & _ & Hflag & Hempty).
    cbv zeta in *. rewrite Hflag. exact Hempty.
Qed.

Lemma effect_agrees (session : option SessionState) (h : Hook) :
  agrees h -> agrees (exec (autoStopEffect session) h).
Proof.
  intros Hb. destruct (not_active session && isCapturing h) eqn:Hc.
  - apply andb_true_iff in Hc as [Hs Hc].
    unfold exec. rewrite (CaptureFacts.autoStopEffect_fires session h Hs Hc).
    apply stopCapture_agrees.
  - apply andb_false_iff in Hc.
    unfold exec. rewrite (CaptureFacts.autoStopEffect_idle session h Hc).
    exact Hb.
Qed.

Lemma step_sound (e : Event) (c : Capture) :
  sound (hook c) /\ (mounted c = true -> agrees (hook c)) ->
  sound (hook (step e c)) /\ (mounted (step e c) = true -> agrees (hook (step e c))).
Proof.
  intros [Hs Ha].
  destruct e as [session capturing|call devices| |session|]; simpl.
  - destruct (mounted c) eqn:Hm; [|split; [exact Hs|rewrite Hm; discriminate]].
    destruct (guard_spec session capturing (hook c))
      as (proceed & h' & -> & _ & _ & E0 & E1 & E2 & E3 & E4 & E5).
    simpl. split.
    + by apply (sound_same (hook c) h').
    + intros _. specialize (Ha eq_refl). unfold agrees, refs_held, refs_empty in *.
      rewrite E0, E2, E3, E4, E5. exact Ha.
  - destruct (waiting c !! call) as [stored|]; [|split; assumption].
    simpl. destruct (mounted c) eqn:Hm.
    + split; [by apply resume_sound|]. intros _. apply resume_agrees.
    + split; [|discriminate].
      apply (sound_same (exec (startCapture_resume (Some stored) devices) (hook c)));
        try (by destruct (exec (startCapture_resume (Some stored) devices) (hook c))).
      by apply resume_sound.
  - destruct (mounted c) eqn:Hm; simpl;
      [|split; [exact Hs|rewrite Hm; discriminate]].
    split; [by apply stopCapture_sound|]. intros _. apply stopCapture_agrees.
  - destruct (mounted c) eqn:Hm; simpl;
      [|split; [exact Hs|rewrite Hm; discriminate]].
    split; [by apply effect_sound|]. intros _. by apply effect_agrees, Ha.
  - split; [exact Hs|discriminate].
Qed.

Lemma run_sound (es : list Event) (c : Capture) :
  sound (hook c) /\ (mounted c = true -> agrees (hook c)) ->
  sound (hook (run es c))
  /\ (mounted (run es c) = true -> agrees (hook (run es c))).
Proof.
  revert c. induction es as [|e es IH]; intros c Hc; [exact Hc|].
  simpl. apply IH, step_sound, Hc.
Qed.

Lemma initial_sound :
  sound (hook initial) /\ (mounted initial = true -> agrees (hook initial)).
Proof.
  split; [|intros _; repeat split].
  split; [right; repeat split|]. unfold count, held. simpl. lia.
Qed.

(** *** What holds when no call overlaps *)

Lemma stopCapture_balanced (h : Hook) :
  balanced h -> balanced (exec stopCapture h).
Proof.
  intros (Hrefs & H1 & H2 & H3).
  unfold exec. rewrite CaptureFacts.stopCapture_spec. simpl.
  unfold balanced, live in *. simpl.
  split; [repeat split|].
  match goal with
  | |- context [count _ ?h'] =>
      assert (Ha : actions h' = actions h ++ released h) by reflexivity
  end.
  count_step Ha. clear Ha.
  destruct (isCapturing h).
  - destruct Hrefs as (context & processor & source & stream & Hc & Hp & Hs & Hm).
    unfold released. rewrite Hc, Hp, Hs, Hm. simpl.
    rewrite !no_track_stop by reflexivity. simpl. lia.
  - rewrite (released_empty h Hrefs). simpl. lia.
Qed.

Lemma startCapture_balanced (session : option SessionState) (devices : Devices)
  (h : Hook) :
  balanced h -> balanced (exec (startCapture session devices) h).
Proof.
  intros Hb. destruct session as [stored|].
  2:{ destruct h as [capturing c p s m done logged shown]. exact Hb. }
  destruct (isCapturing h) eqn:Hc.
  { destruct h as [capturing c p s m done logged shown]. simpl in Hc.
    subst capturing. exact Hb. }
  assert (Hstart : exec (startCapture (Some stored) devices) h
                   = exec (startCapture_resume (Some stored) devices) h).
  { rewrite startCapture_steps, Hc. reflexivity. }
  rewrite Hstart. destruct Hb as (Hrefs & H1 & H2 & H3).
  unfold balanced, live in *. rewrite Hc in *.
  destruct (granted devices) eqn:Hg.
  - destruct devices as [[stream|e1] [context|e2] [source|e3] [processor|e4]];
      try discriminate Hg.
    destruct (resume_granted (Some stored) stream context source processor h)
      as (_ & Hcap & Hctx & Hp & Hs & Hm & Ha).
    cbv zeta in *. rewrite Hcap.
    split; [unfold refs_held; eauto 10|].
    count_step Ha. simpl. lia.
  - destruct (resume_refused (Some stored) devices h Hg)
      as (_ & (acquired & Hacq & Ha) & Hcap & Hempty).
    cbv zeta in *. rewrite Hcap.
    split; [exact Hempty|].
    rewrite (released_empty h Hrefs), app_nil_r in Ha.
    count_step Ha.
    rewrite !no_acquisition by (try exact Hacq; by intros []).
    simpl. lia.
Qed.

Lemma autoStopEffect_balanced (session : option SessionState) (h : Hook) :
  balanced h -> balanced (exec (autoStopEffect session) h).
Proof.
  intros Hb. destruct (not_active session && isCapturing h) eqn:Hc.
  - apply andb_true_iff in Hc as [Hs Hc].
    unfold exec. rewrite (CaptureFacts.autoStopEffect_fires session h Hs Hc).
    by apply stopCapture_balanced.
  - apply andb_false_iff in Hc.
    unfold exec. rewrite (CaptureFacts.autoStopEffect_idle session h Hc).
    exact Hb.
Qed.

(** A call that nothing overlaps, taken as the two steps it is made of. *)
Lemma start_in_order (session : option SessionState) (devices : Devices)
  (c : Capture) :
  waiting c = [] ->
  mounted c = true ->
  run (expand (Start session devices) c) c
  = {| hook := exec (startCapture session devices) (hook c);
       waiting := []; mounted := true |}.
Proof.
  destruct c as [h ws m]. simpl. intros -> ->.
  rewrite startCapture_steps.
  destruct h as [flag c p s m done logged shown].
  destruct session as [stored|]; [|reflexivity].
  destruct flag; reflexivity.
Qed.

Lemma run_orderly_balanced (os : list Orderly) (c : Capture) :
  waiting c = [] ->
  mounted c = true ->
  balanced (hook c) ->
  balanced (hook (run_orderly os c)).
Proof.
  revert c. induction os as [|o os IH]; intros c Hw Hm Hb; [exact Hb|].
  simpl. destruct o as [session devices| |session].
  - rewrite (start_in_order session devices c Hw Hm).
    apply IH; [reflexivity..|]. by apply startCapture_balanced.
  - simpl. rewrite Hm. apply IH; [assumption..|]. by apply stopCapture_balanced.
  - simpl. rewrite Hm. apply IH; [assumption..|]. by apply autoStopEffect_balanced.
Qed.

Lemma balanced_held (h : Hook) : balanced h -> held h = live h.
Proof.
  intros (Hrefs & _). unfold live. destruct (isCapturing h).
  - by apply held_of_refs.
  - by apply held_of_refs.
Qed.

(** *** What releases nothing *)

Lemma run_app (es1 es2 : list Event) (c : Capture) :
  run (es1 ++ es2) c = run es2 (run es1 c).
Proof. unfold run. apply fold_left_app. Qed.

Lemma idle_when_empty (e : Event) (c : Capture) :
  no_start e = true ->
  refs_empty (hook c) ->
  actions (hook (step e c)) = actions (hook c)
  /\ toasts (hook (step e c)) = toasts (hook c)
  /\ refs_empty (hook (step e c)).
Proof.
  intros He Hempty.
  assert (Hstop : actions (exec stopCapture (hook c)) = actions (hook c)
                  /\ toasts (exec stopCapture (hook c)) = toasts (hook c)
                  /\ refs_empty (exec stopCapture (hook c))).
  { unfold exec. rewrite CaptureFacts.stopCapture_spec. simpl.
    rewrite (released_empty _ Hempty), app_nil_r. repeat split. }
  assert (Hsame : actions (hook c) = actions (hook c)
                  /\ toasts (hook c) = toasts (hook c)
                  /\ refs_empty (hook c))
    by (split; [reflexivity|]; split; [reflexivity|exact Hempty]).
  assert (Hhook : forall h, hook (with_hook h c) = h) by reflexivity.
  destruct e as [session capturing|call devices| |session|];
    try discriminate He; cbn [step].
  - destruct (mounted c); [rewrite !Hhook; exact Hstop | exact Hsame].
  - destruct (mounted c); [|exact Hsame].
    rewrite !Hhook.
    destruct (not_active session && isCapturing (hook c)) eqn:Hc.
    + apply andb_true_iff in Hc as [Hs Hc]. unfold exec.
      rewrite (CaptureFacts.autoStopEffect_fires session _ Hs Hc). exact Hstop.
    + apply andb_false_iff in Hc. unfold exec.
      rewrite (CaptureFacts.autoStopEffect_idle session _ Hc). exact Hsame.
  - exact Hsame.
Qed.

Lemma idle_run_when_empty (es : list Event) (c : Capture) :
  forallb no_start es = true ->
  refs_empty (hook c) ->
  actions (hook (run es c)) = actions (hook c)
  /\ toasts (hook (run es c)) = toasts (hook c)
  /\ refs_empty (hook (run es c)).
Proof.
  revert c. induction es as [|e es IH]; intros c Hes Hempty;
    [split; [reflexivity|]; split; [reflexivity|exact Hempty]|].
  simpl in Hes. apply andb_true_iff in Hes as [He Hes]. simpl.
  destruct (idle_when_empty e c He Hempty) as (Ha & Ht & Hempty').
  destruct (IH _ Hes Hempty') as (Ha' & Ht' & Hempty'').
  split; [congruence|]. split; [congruence|exact Hempty''].
Qed.

Lemma unmounted_is_final (e : Event) (c : Capture) :
  mounted c = false -> waiting c = [] -> step e c = c.
Proof.
  destruct c as [h ws m]. simpl. intros -> ->.
  destruct e; reflexivity.
Qed.

Lemma unmounted_run_is_final (es : list Event) (c : Capture) :
  mounted c = false -> waiting c = [] -> run es c = c.
Proof.
  intros Hm Hw. induction es as [|e es IH]; [reflexivity|].
  simpl. rewrite (unmounted_is_final e c Hm Hw). exact IH.
Qed.

End CaptureRunFacts.

(** C9. [stopCapture] does not release the capture's resources on every
    exit path. A [startCapture] whose microphone is granted and whose
    source node cannot be made ends in the [catch] block, which calls
    [stopCapture] while the refs are still empty: the stream and the audio
    context just acquired are in no ref, so no track is stopped and no
    context is closed, by that call or by any later [stopCapture] or run
    of the session effect. And the hook has no cleanup: when the component
    is unmounted while capturing, the pipeline stays connected and nothing
    that follows takes it down. *)
Theorem capture_release_incomplete :
  (forall stored stream context error later es,
      forallb CaptureRun.no_start es = true ->
      let devices :=
        {| LiveAudioCapture.getUserMedia := Returned stream;
           LiveAudioCapture.new_AudioContext := Returned context;
           LiveAudioCapture.createMediaStreamSource := Thrown error;
           LiveAudioCapture.createScriptProcessor := later |} in
      let c :=
        CaptureRun.run
          ([CaptureRun.CallStartCapture (Some stored) false;
            CaptureRun.MicrophoneSettles 0 devices] ++ es)
          CaptureRun.initial in
      LiveAudioCapture.actions (CaptureRun.hook c)
      = [LiveAudioCapture.GetUserMedia stream;
         LiveAudioCapture.NewAudioContext
           {| LiveAudioCapture.context_handle := context;
              LiveAudioCapture.context_sampleRate := Number.of_Z 22050 |}]
      /\ CaptureRun.refs_empty (CaptureRun.hook c)
      /\ LiveAudioCapture.toasts (CaptureRun.hook c)
         = [ToastError "Unable to access microphone."])
  /\ (forall stored stream context source processor es,
      let devices :=
        {| LiveAudioCapture.getUserMedia := Returned stream;
           LiveAudioCapture.new_AudioContext := Returned context;
           LiveAudioCapture.createMediaStreamSource := Returned source;
           LiveAudioCapture.createScriptProcessor := Returned processor |} in
      let audio :=
        {| LiveAudioCapture.context_handle := context;
           LiveAudioCapture.context_sampleRate := Number.of_Z 22050 |} in
      let c :=
        CaptureRun.run
          ([CaptureRun.CallStartCapture (Some stored) false;
            CaptureRun.MicrophoneSettles 0 devices;
            CaptureRun.Unmounts] ++ es)
          CaptureRun.initial in
      LiveAudioCapture.actions (CaptureRun.hook c)
      = [LiveAudioCapture.GetUserMedia stream;
         LiveAudioCapture.NewAudioContext audio;
         LiveAudioCapture.CreateMediaStreamSource source context
           (LiveAudioCapture.stream_handle stream);
         LiveAudioCapture.CreateScriptProcessor processor 4096 1 1;
         LiveAudioCapture.SetOnAudioProcess processor
           {| LiveAudioCapture.handler_session := Some stored;
              LiveAudioCapture.handler_context := audio |};
         LiveAudioCapture.ConnectSource source processor;
         LiveAudioCapture.ConnectDestination processor context]
      /\ LiveAudioCapture.processorRef (CaptureRun.hook c) = Some processor
      /\ LiveAudioCapture.streamRef (CaptureRun.hook c) = Some stream).
Proof.
  split.
  - intros stored stream context error later es Hes devices c. subst c.
    rewrite CaptureRunFacts.run_app.
    match goal with
    | |- context [CaptureRun.run es ?c0] => set (failed := c0)
    end.
    assert (Hfailed : LiveAudioCapture.actions (CaptureRun.hook failed)
                      = [LiveAudioCapture.GetUserMedia stream;
                         LiveAudioCapture.NewAudioContext
                           {| LiveAudioCapture.context_handle := context;
                              LiveAudioCapture.context_sampleRate :=
                                Number.of_Z 22050 |}]
                      /\ CaptureRun.refs_empty (CaptureRun.hook failed)
                      /\ LiveAudioCapture.toasts (CaptureRun.hook failed)
                         = [ToastError "Unable to access microphone."]).
    { subst failed devices. cbn. repeat split; reflexivity. }
    destruct Hfailed as (Ha & Hempty & Ht).
    destruct (CaptureRunFacts.idle_run_when_empty es failed Hes Hempty)
      as (Ha' & Ht' & Hempty').
    split; [congruence|]. split; [exact Hempty'|congruence].
  - intros stored stream context source processor es devices audio c. subst c.
    rewrite CaptureRunFacts.run_app.
    match goal with
    | |- context [CaptureRun.run es ?c0] => set (gone := c0)
    end.
    rewrite (CaptureRunFacts.unmounted_run_is_final es gone)
      by (subst gone; reflexivity).
    subst gone devices audio. cbn. repeat split; reflexivity.
Qed.

(** Two clicks while the first call still waits for the microphone: both
    calls pass the guard, both connect a pipeline, and [stopCapture] takes
    down the second one only. *)
Example overlapping_starts :
  let grant n :=
    {| LiveAudioCapture.getUserMedia :=
         Returned {| LiveAudioCapture.stream_handle := n;
                     LiveAudioCapture.stream_tracks := [n] |};
       LiveAudioCapture.new_AudioContext := Returned (n + 1);
       LiveAudioCapture.createMediaStreamSource := Returned (n + 2);
       LiveAudioCapture.createScriptProcessor := Returned (n + 3) |} in
  let h :=
    CaptureRun.hook
      (CaptureRun.run
         [CaptureRun.CallStartCapture (Some (Sample.opened "s1")) false;
          CaptureRun.CallStartCapture (Some (Sample.opened "s1")) false;
          CaptureRun.MicrophoneSettles 0 (grant 10);
          CaptureRun.MicrophoneSettles 0 (grant 20);
          CaptureRun.CallStopCapture]
         CaptureRun.initial) in
  CaptureRun.count CaptureRun.is_connected h = 2
  /\ List.filter CaptureRun.is_processor_disconnect (LiveAudioCapture.actions h)
     = [LiveAudioCapture.ProcessorDisconnect 23]
  /\ CaptureRun.held h = 0.
Proof. vm_compute. repeat split; reflexivity. Qed.

(** X20. The capture hook over any sequence of clicks on start (in any
    render), of microphone requests settling in any order, so that calls
    may overlap, of stop calls, of runs of the session effect and of an
    unmount, from a fresh hook. No piece of the hook's code throws,
    whatever the platform refuses; the four refs are all set or all empty,
    and while the component is mounted they are set exactly when
    [isCapturing] is true; and nothing is taken down that was not
    connected: the processor disconnects, the source disconnects and the
    context closes, with the pipeline held in the refs, never outnumber
    the pipelines connected. When no call overlaps anything, the numbers
    are equal: every pipeline that was connected, but the one held, was
    taken down once. What a failed start acquired before it failed is
    not a connected pipeline and is not counted. *)
Theorem capture_pipelines_balanced :
  (forall es,
      let c := CaptureRun.run es CaptureRun.initial in
      let h := CaptureRun.hook c in
      ((forall session capturing,
           exists proceed,
             result (LiveAudioCapture.startCapture_guard session capturing) h
             = Returned proceed)
       /\ (forall session devices,
             result (LiveAudioCapture.startCapture_resume session devices) h
             = Returned tt)
       /\ result LiveAudioCapture.stopCapture h = Returned tt
       /\ (forall session,
             result (LiveAudioCapture.autoStopEffect session) h = Returned tt))
      /\ (CaptureRun.refs_held h \/ CaptureRun.refs_empty h)
      /\ (CaptureRun.mounted c = true ->
          if LiveAudioCapture.isCapturing h
          then CaptureRun.refs_held h else CaptureRun.refs_empty h)
      /\ CaptureRun.count CaptureRun.is_processor_disconnect h + CaptureRun.held h
         <= CaptureRun.count CaptureRun.is_connected h
      /\ CaptureRun.count CaptureRun.is_source_disconnect h + CaptureRun.held h
         <= CaptureRun.count CaptureRun.is_connected h
      /\ CaptureRun.count CaptureRun.is_context_close h + CaptureRun.held h
         <= CaptureRun.count CaptureRun.is_connected h)
  /\ (forall os,
      let h := CaptureRun.hook (CaptureRun.run_orderly os CaptureRun.initial) in
      (if LiveAudioCapture.isCapturing h
       then CaptureRun.refs_held h else CaptureRun.refs_empty h)
      /\ CaptureRun.count CaptureRun.is_connected h
         = CaptureRun.count CaptureRun.is_processor_disconnect h + CaptureRun.held h
      /\ CaptureRun.count CaptureRun.is_connected h
         = CaptureRun.count CaptureRun.is_source_disconnect h + CaptureRun.held h
      /\ CaptureRun.count CaptureRun.is_connected h
         = CaptureRun.count CaptureRun.is_context_close h + CaptureRun.held h).
Proof.
  split.
  - intros es c h.
    split.
    { split.
      - intros session capturing.
        destruct (CaptureRunFacts.guard_spec session capturing h)
          as (proceed & h' & Hg & _).
        exists proceed. unfold result. rewrite Hg. reflexivity.
      - split; [intros session devices; apply CaptureRunFacts.resume_returns|].
        split; [|intros session; apply CaptureRunFacts.effect_returns].
        unfold result. rewrite CaptureFacts.stopCapture_spec. reflexivity. }
    destruct (CaptureRunFacts.run_sound es CaptureRun.initial
                CaptureRunFacts.initial_sound)
      as ((Hrefs & H1 & H2 & H3) & Hagrees).
    fold c in Hagrees. fold c h in Hrefs, H1, H2, H3.
    split; [exact Hrefs|]. split; [exact Hagrees|].
    split; [exact H1|]. split; [exact H2|exact H3].
  - intros os h.
    assert (Hb : CaptureRun.balanced h).
    { subst h. apply CaptureRunFacts.run_orderly_balanced;
        [reflexivity..|repeat split]. }
    rewrite (CaptureRunFacts.balanced_held h Hb).
    exact Hb.
Qed.

(** X21. A live audio block never makes the audio callback fail and never
    touches the provider's session, feed, sockets or timers. The frame
    goes out under the session of the render in which the capture was
    started, whatever session is stored by then; a rejected submission is
    written to the console with its error and shown in one toast, and an
    accepted one leaves console and toasts alone. *)
Theorem live_frame_contained (handler : LiveAudioCapture.Handler)
  (input : Float32Array) (nano : string) (now : number)
  (ack : outcome AudioFrame) (w : World) :
  let call := LiveAudioCapture.onaudioprocess handler input nano now ack in
  let w' := exec call w in
  result call w = Returned tt
  /\ (session w' = session w /\ sessionIdRef w' = sessionIdRef w
      /\ events w' = events w /\ isLoading w' = isLoading w
      /\ socketRef w' = socketRef w /\ sockets w' = sockets w
      /\ reconnectTimer w' = reconnectTimer w /\ timers w' = timers w)
  /\ match LiveAudioCapture.handler_session handler with
     | Some started =>
         (exists frame,
             remote_log w'
             = remote_log w
               ++ [SubmitAudioCall (session_id (metadata started)) frame]
             /\ frame_session_id frame = session_id (metadata started)
             /\ sample_rate frame
                = LiveAudioCapture.context_sampleRate
                    (LiveAudioCapture.handler_context handler))
         /\ match ack with
            | Returned _ => console w' = console w /\ toasts w' = toasts w
            | Thrown error =>
                console w'
                = console w
                  ++ [{| console_message := "Failed to push live audio frame";
                         console_arg := ArgError error |}]
                /\ toasts w'
                   = toasts w
                     ++ [ToastError "Live audio frame could not be ingested."]
            end
     | None =>
         remote_log w' = remote_log w
         /\ console w'
            = console w
              ++ [{| console_message := "Failed to push live audio frame";
                     console_arg := ArgError (Error "Session not initialized") |}]
         /\ toasts w'
            = toasts w ++ [ToastError "Live audio frame could not be ingested."]
     end.
Proof.
  intros call w'. subst call w'.
  unfold LiveAudioCapture.onaudioprocess. provider_unfold.
  destruct (LiveAudioCapture.handler_session handler) as [started|]; simpl.
  - destruct ack as [frame|error]; simpl;
      (split; [reflexivity|]); (split; [repeat split; reflexivity|]);
      (split; [eexists; repeat split; reflexivity|]);
      split; reflexivity.
  - split; [reflexivity|]. split; [repeat split; reflexivity|].
    repeat split; reflexivity.
Qed.


(** * Properties of the visualizer's stream over time *)

Module VisualizerRunFacts.

Import ConsciousnessVisualizer VisualizerRun.

Lemma pings_spec (n : nat) (v : State) :
  Nat.iter n ping v
  = if ReadyState_eqb (readyState (ws v)) OPEN
    then with_ws
           {| ws_url := ws_url (ws v); readyState := readyState (ws v);
              ws_session := ws_session (ws v);
              ws_sent := ws_sent (ws v) ++ repeat "ping" n |} v
    else v.
Proof.
  induction n as [|n IH].
  - simpl. rewrite app_nil_r. destruct v as [status data [url ready id sent] t logged].
    simpl. destruct (ReadyState_eqb ready OPEN); reflexivity.
  - simpl Nat.iter. rewrite IH.
    destruct (ReadyState_eqb (readyState (ws v)) OPEN) eqn:Hr.
    + unfold ping. simpl. rewrite Hr. unfold with_ws, send. simpl.
      rewrite <- app_assoc. do 3 f_equal. symmetry. apply repeat_cons.
    + unfold ping. rewrite Hr. reflexivity.
Qed.

Lemma elapsed_snoc (es : list Event) (e : Event) :
  elapsed (es ++ [e]) = (elapsed es + duration e)%Z.
Proof.
  unfold elapsed. induction es as [|e' es IH]; simpl; [lia|].
  rewrite IH. lia.
Qed.

Lemma run_snoc JSON_parse (es : list Event) (e : Event) (v : State) :
  run JSON_parse (es ++ [e]) v = step JSON_parse e (run JSON_parse es v).
Proof. unfold run. rewrite fold_left_app. reflexivity. Qed.

Lemma elapse_paced sessionId backendUrl (total ms : Z) (v : State) :
  (0 <= ms)%Z ->
  paced sessionId backendUrl total v ->
  paced sessionId backendUrl (total + ms) (elapse ms v).
Proof.
  intros Hms (Hurl & (k & Hsent & Hpace) & Hshown & Hclosed).
  unfold elapse. destruct (pingInterval v) as [t|] eqn:Ht.
  - destruct Hpace as (Hperiod & Hwaited & Hpace).
    rewrite pings_spec. rewrite Hperiod.
    set (runs := Z.to_nat ((waited t + ms) / 30000)).
    assert (Hruns : (30000 * Z.of_nat runs + (waited t + ms) mod 30000
                     = waited t + ms)%Z).
    { subst runs. rewrite Z2Nat.id by (apply Z.div_pos; lia).
      symmetry. apply Z.div_mod. lia. }
    assert (Hmod : (0 <= (waited t + ms) mod 30000 < 30000)%Z)
      by (apply Z.mod_pos_bound; lia).
    clearbody runs. simpl.
    destruct (ReadyState_eqb (readyState (ws v)) OPEN) eqn:Hr; simpl.
    + split; [exact Hurl|]. split.
      * exists (k + runs). rewrite Hsent, <- repeat_app.
        split; [reflexivity|]. split; [reflexivity|]. split; [exact Hmod|].
        simpl. lia.
      * split; assumption.
    + split; [exact Hurl|]. split.
      * exists k. split; [exact Hsent|]. split; [reflexivity|].
        split; [exact Hmod|]. simpl. lia.
      * split; assumption.
  - split; [exact Hurl|]. split.
    + exists k. rewrite Ht. split; [exact Hsent|]. lia.
    + split; assumption.
Qed.

Ltac status_done :=
  split; intros;
  first [ discriminate | reflexivity | left; reflexivity | right; reflexivity
        | solve [auto] ].

Lemma step_paced JSON_parse sessionId backendUrl (total : Z) (e : Event) (v : State) :
  (0 <= duration e)%Z ->
  paced sessionId backendUrl total v ->
  paced sessionId backendUrl (total + duration e) (step JSON_parse e v).
Proof.
  intros He Hv. destruct e as [|data| | |ms|]; simpl in *;
    try (apply elapse_paced; assumption);
    rewrite Z.add_0_r;
    destruct Hv as (Hurl & (k & Hsent & Hpace) & Hshown & Hclosed);
    destruct v as [status shown [url ready id sent] t logged]; simpl in *.
  - unfold socket_opens. simpl. destruct ready; simpl;
      (split; [exact Hurl|]); (split; [exists k; split; assumption|]);
      status_done.
  - destruct ready; simpl;
      try (split; [exact Hurl|]; split; [exists k; split; assumption|];
           status_done).
    unfold exec, onmessage. js_unfold. destruct (JSON_parse data); simpl;
      (split; [exact Hurl|]); (split; [exists k; split; assumption|]);
      status_done.
  - split; [exact Hurl|]. split; [exists k; split; assumption|]. status_done.
  - unfold socket_closes. simpl. destruct ready; simpl;
      (split; [exact Hurl|]); (split; [exists k; split; assumption|]);
      status_done.
  - unfold cleanup, closing. simpl.
    destruct ready; simpl;
      (split; [exact Hurl|]);
      (split; [exists k; split; [exact Hsent|]; destruct t; simpl; lia|]);
      status_done.
Qed.

Lemma mount_paced sessionId backendUrl :
  paced sessionId backendUrl 0 (mount sessionId backendUrl).
Proof.
  split; [reflexivity|]. split.
  - exists 0. simpl. split; [reflexivity|]. split; [reflexivity|]. lia.
  - split; discriminate.
Qed.

Lemma run_paced JSON_parse sessionId backendUrl (es : list Event) :
  Forall (fun e => (0 <= duration e)%Z) es ->
  paced sessionId backendUrl (elapsed es)
    (run JSON_parse es (mount sessionId backendUrl)).
Proof.
  induction es as [|e es IH] using rev_ind; intros Hes.
  - apply mount_paced.
  - apply Forall_app in Hes as [Hes He]. apply Forall_inv in He.
    rewrite run_snoc, elapsed_snoc. apply step_paced; [exact He|].
    by apply IH.
Qed.

Lemma step_down JSON_parse (e : Event) (v : State) :
  down v ->
  down (step JSON_parse e v)
  /\ ws (step JSON_parse e v) = set_readyState (readyState (ws (step JSON_parse e v))) (ws v)
  /\ consciousnessState (step JSON_parse e v) = consciousnessState v
  /\ (connectionStatus (step JSON_parse e v) = connected ->
      connectionStatus v = connected).
Proof.
  unfold down. intros Hv.
  destruct v as [status data [url ready id sent] t logged]. simpl in Hv.
  destruct e as [|message| | |ms|]; simpl.
  - destruct Hv as [-> | ->]; simpl; repeat split; auto.
  - destruct Hv as [-> | ->]; simpl; repeat split; auto.
  - destruct Hv as [-> | ->]; simpl; repeat split; auto; discriminate.
  - destruct Hv as [-> | ->]; simpl; repeat split; auto; discriminate.
  - unfold elapse. simpl. destruct t as [t|]; simpl.
    + rewrite pings_spec. simpl.
      destruct Hv as [-> | ->]; simpl; repeat split; auto.
    + destruct Hv as [-> | ->]; simpl; repeat split; auto.
  - destruct Hv as [-> | ->]; simpl; repeat split; auto.
Qed.

End VisualizerRunFacts.

(** X22. The visualizer keeps the one socket it opened on mount, on
    [backendUrl/consciousness/stream/sessionId]; whatever happens, all it
    ever sends on it are pings, and never more than one per 30 s of the
    time gone by since the mount. The status shown is not ahead of the
    socket: it reads connected only for a socket that has opened and has
    not closed, and reads disconnected once the socket is closed. *)
Theorem visualizer_stream_paced (JSON_parse : string -> outcome JsonValue)
  (sessionId backendUrl : string) (es : list VisualizerRun.Event) :
  Forall (fun e => (0 <= VisualizerRun.duration e)%Z) es ->
  let v :=
    VisualizerRun.run JSON_parse es
      (ConsciousnessVisualizer.mount sessionId backendUrl) in
  ws_url (ConsciousnessVisualizer.ws v)
  = backendUrl +:+ "/consciousness/stream/" +:+ sessionId
  /\ (exists k : nat,
         ws_sent (ConsciousnessVisualizer.ws v) = repeat "ping" k
         /\ (30000 * Z.of_nat k <= VisualizerRun.elapsed es)%Z)
  /\ (ConsciousnessVisualizer.connectionStatus v = ConsciousnessVisualizer.connected ->
      readyState (ConsciousnessVisualizer.ws v) = OPEN
      \/ readyState (ConsciousnessVisualizer.ws v) = CLOSING)
  /\ (readyState (ConsciousnessVisualizer.ws v) = CLOSED ->
      ConsciousnessVisualizer.connectionStatus v
      = ConsciousnessVisualizer.disconnected).
Proof.
  intros Hes v.
  destruct (VisualizerRunFacts.run_paced JSON_parse sessionId backendUrl es Hes)
    as (Hurl & (k & Hsent & Hpace) & Hshown & Hclosed).
  fold v in Hurl, Hsent, Hpace, Hshown, Hclosed.
  split; [exact Hurl|]. split; [|split; assumption].
  exists k. split; [exact Hsent|].
  destruct (ConsciousnessVisualizer.pingInterval v); lia.
Qed.

Lemma visualizer_stream_paced_witness :
  let v :=
    VisualizerRun.run Sample.parse
      [VisualizerRun.Opens; VisualizerRun.Elapses 95000;
       VisualizerRun.Closes; VisualizerRun.Elapses 60000]
      (ConsciousnessVisualizer.mount "my-session" "ws://localhost:8000") in
  ws_url (ConsciousnessVisualizer.ws v)
  = "ws://localhost:8000/consciousness/stream/my-session"
  /\ exists k : nat,
       ws_sent (ConsciousnessVisualizer.ws v) = repeat "ping" k
       /\ (30000 * Z.of_nat k <= 155000)%Z.
Proof.
  assert (Hes : Forall (fun e => (0 <= VisualizerRun.duration e)%Z)
                  [VisualizerRun.Opens; VisualizerRun.Elapses 95000;
                   VisualizerRun.Closes; VisualizerRun.Elapses 60000]).
  { repeat constructor; simpl; lia. }
  destruct (visualizer_stream_paced Sample.parse "my-session"
              "ws://localhost:8000" _ Hes) as (Hurl & Hsent & _).
  split; [exact Hurl | exact Hsent].
Defined.

(** X23. The visualizer never reconnects. Once its socket is closing or
    closed, after the cleanup of the effect or after the remote end closed
    it, no later event opens it again, nothing more is sent on it, the
    data shown stays as it was, and the status does not return to
    connected. *)
Theorem visualizer_stays_down (JSON_parse : string -> outcome JsonValue)
  (es : list VisualizerRun.Event) (v : ConsciousnessVisualizer.State) :
  VisualizerRun.down v ->
  let v' := VisualizerRun.run JSON_parse es v in
  VisualizerRun.down v'
  /\ ws_sent (ConsciousnessVisualizer.ws v') = ws_sent (ConsciousnessVisualizer.ws v)
  /\ ws_url (ConsciousnessVisualizer.ws v') = ws_url (ConsciousnessVisualizer.ws v)
  /\ ConsciousnessVisualizer.consciousnessState v'
     = ConsciousnessVisualizer.consciousnessState v
  /\ (ConsciousnessVisualizer.connectionStatus v' = ConsciousnessVisualizer.connected ->
      ConsciousnessVisualizer.connectionStatus v = ConsciousnessVisualizer.connected).
Proof.
  intros Hv v'. subst v'. revert v Hv.
  induction es as [|e es IH]; intros v Hv.
  - repeat split; auto.
  - simpl.
    destruct (VisualizerRunFacts.step_down JSON_parse e v Hv)
      as (Hdown & Hws & Hdata & Hstatus).
    destruct (IH _ Hdown) as (Hdown' & Hsent' & Hurl' & Hdata' & Hstatus').
    split; [exact Hdown'|].
    split; [rewrite Hsent', Hws; reflexivity|].
    split; [rewrite Hurl', Hws; reflexivity|].
    split; [congruence|]. auto.
Qed.

Lemma visualizer_stays_down_witness :
  let v :=
    ConsciousnessVisualizer.cleanup
      (ConsciousnessVisualizer.socket_opens
         (ConsciousnessVisualizer.mount "my-session" "ws://localhost:8000")) in
  ws_sent
    (ConsciousnessVisualizer.ws
       (VisualizerRun.run Sample.parse
          [VisualizerRun.Elapses 95000; VisualizerRun.Opens;
           VisualizerRun.Message "first"] v))
  = [].
Proof.
  exact (proj1 (proj2
           (visualizer_stays_down Sample.parse
              [VisualizerRun.Elapses 95000; VisualizerRun.Opens;
               VisualizerRun.Message "first"]
              (ConsciousnessVisualizer.cleanup
                 (ConsciousnessVisualizer.socket_opens
                    (ConsciousnessVisualizer.mount "my-session"
                       "ws://localhost:8000")))
              (or_introl eq_refl)))).
Defined.


(** * Properties of the waveform encoding *)

Module WaveformFacts.

Lemma string_append_nil (s : string) : s +:+ "" = s.
Proof.
  induction s as [|c s IH]; [reflexivity|].
  change (String c s +:+ "") with (String c (s +:+ "")). by rewrite IH.
Qed.

Lemma string_append_assoc (a b c : string) : (a +:+ b) +:+ c = a +:+ (b +:+ c).
Proof.
  induction a as [|x a IH]; [reflexivity|].
  change (String x (a +:+ b) +:+ c = String x (a +:+ (b +:+ c))).
  change (String x (a +:+ b) +:+ c) with (String x ((a +:+ b) +:+ c)).
  by rewrite IH.
Qed.

Lemma binary_of_spec (bytes : list N) :
  binary_of bytes = string_of_list_ascii (map ascii_of_N bytes).
Proof.
  unfold binary_of.
  assert (H : forall acc,
             fold_left (fun binary byte => binary +:+ String (ascii_of_N byte) "")
               bytes acc
             = acc +:+ string_of_list_ascii (map ascii_of_N bytes)).
  { induction bytes as [|byte bytes IH]; intros acc; simpl.
    - symmetry. apply string_append_nil.
    - rewrite IH, string_append_assoc. reflexivity. }
  apply (H "").
Qed.

Lemma string_of_list_length (l : list ascii) :
  String.length (string_of_list_ascii l) = length l.
Proof. induction l as [|c l IH]; simpl; congruence. Qed.

Lemma Uint8Array_of_length (buffer : Float32Array) :
  length (Uint8Array_of buffer) = 4 * length buffer.
Proof.
  unfold Uint8Array_of. induction buffer as [|bits buffer IH]; [reflexivity|].
  cbn [flat_map app length]. rewrite IH. lia.
Qed.

Lemma string_ind3 (P : string -> Prop) :
  P "" ->
  (forall a, P (String a "")) ->
  (forall a b, P (String a (String b ""))) ->
  (forall a b c rest, P rest -> P (String a (String b (String c rest)))) ->
  forall s, P s.
Proof.
  intros H0 H1 H2 H3 s.
  assert (H : P s /\ (forall a, P (String a s))
              /\ (forall a b, P (String a (String b s)))).
  { induction s as [|c s (IH0 & IH1 & IH2)].
    - split; [exact H0|]. split; [exact H1 | exact H2].
    - split; [apply IH1|]. split; [intros a; apply IH2|].
      intros a b. apply H3, IH0. }
  apply H.
Qed.

Lemma btoa_triple (a b c : ascii) (rest : string) :
  btoa (String a (String b (String c rest)))
  = String (b64_digit (N.shiftr (N_of_ascii a) 2))
      (String (b64_digit (N.lor (N.shiftl (N.land (N_of_ascii a) 3) 4)
                            (N.shiftr (N_of_ascii b) 4)))
         (String (b64_digit (N.lor (N.shiftl (N.land (N_of_ascii b) 15) 2)
                               (N.shiftr (N_of_ascii c) 6)))
            (String (b64_digit (N.land (N_of_ascii c) 63)) (btoa rest)))).
Proof. reflexivity. Qed.

Lemma btoa_length (binary : string) :
  String.length (btoa binary) = 4 * ((String.length binary + 2) / 3).
Proof.
  induction binary as [|a|a b|a b c rest IH] using string_ind3;
    try reflexivity.
  rewrite btoa_triple. cbn [String.length]. rewrite IH.
  replace (S (S (S (String.length rest))) + 2)
    with (1 * 3 + (String.length rest + 2)) by lia.
  rewrite Nat.div_add_l by lia. lia.
Qed.

Lemma in_range (k : nat) (n : N) :
  (n < N.of_nat k)%N -> In n (map N.of_nat (seq 0 k)).
Proof.
  intros Hn. rewrite <- (N2Nat.id n). apply in_map, in_seq. lia.
Qed.

Lemma digits_distinct :
  forallb
    (fun i =>
       forallb
         (fun j => implb (Ascii.eqb (b64_digit i) (b64_digit j)) (N.eqb i j))
         (map N.of_nat (seq 0 64)))
    (map N.of_nat (seq 0 64))
  = true.
Proof. vm_compute. reflexivity. Qed.

Lemma digit_inj (i j : N) :
  (i < 64)%N -> (j < 64)%N -> b64_digit i = b64_digit j -> i = j.
Proof.
  intros Hi Hj He. pose proof digits_distinct as H.
  rewrite forallb_forall in H. specialize (H i (in_range 64 i Hi)).
  rewrite forallb_forall in H. specialize (H j (in_range 64 j Hj)).
  rewrite He, Ascii.eqb_refl in H. simpl in H. by apply N.eqb_eq.
Qed.

Lemma digits_not_padding :
  forallb (fun i => negb (Ascii.eqb (b64_digit i) "="%char))
    (map N.of_nat (seq 0 64))
  = true.
Proof. vm_compute. reflexivity. Qed.

Lemma digit_not_padding (i : N) :
  (i < 64)%N -> b64_digit i <> "="%char.
Proof.
  intros Hi He. pose proof digits_not_padding as H.
  rewrite forallb_forall in H. specialize (H i (in_range 64 i Hi)).
  rewrite He in H. discriminate H.
Qed.

Lemma lor_joins :
  forallb
    (fun p =>
       forallb
         (fun q =>
            N.eqb (N.lor (N.shiftl p 4) q) (p * 16 + q)
            && N.eqb (N.lor (N.shiftl q 2) p) (q * 4 + p))
         (map N.of_nat (seq 0 16)))
    (map N.of_nat (seq 0 4))
  = true.
Proof. vm_compute. reflexivity. Qed.

Lemma lor_join4 (p q : N) :
  (p < 4)%N -> (q < 16)%N -> N.lor (N.shiftl p 4) q = (p * 16 + q)%N.
Proof.
  intros Hp Hq. pose proof lor_joins as H.
  rewrite forallb_forall in H. specialize (H p (in_range 4 p Hp)).
  rewrite forallb_forall in H. specialize (H q (in_range 16 q Hq)).
  apply andb_true_iff in H as [H _]. by apply N.eqb_eq.
Qed.

Lemma lor_join2 (p q : N) :
  (p < 16)%N -> (q < 4)%N -> N.lor (N.shiftl p 2) q = (p * 4 + q)%N.
Proof.
  intros Hp Hq. pose proof lor_joins as H.
  rewrite forallb_forall in H. specialize (H q (in_range 4 q Hq)).
  rewrite forallb_forall in H. specialize (H p (in_range 16 p Hp)).
  apply andb_true_iff in H as [_ H]. by apply N.eqb_eq.
Qed.

Lemma low_bits (x : N) :
  N.land x 3 = (x mod 4)%N /\ N.land x 15 = (x mod 16)%N
  /\ N.land x 63 = (x mod 64)%N /\ N.land x 255 = (x mod 256)%N.
Proof.
  change 3%N with (N.ones 2). change 15%N with (N.ones 4).
  change 63%N with (N.ones 6). change 255%N with (N.ones 8).
  rewrite !N.land_ones. repeat split; reflexivity.
Qed.

Lemma high_bits (x : N) :
  N.shiftr x 2 = (x / 4)%N /\ N.shiftr x 4 = (x / 16)%N
  /\ N.shiftr x 6 = (x / 64)%N.
Proof. rewrite !N.shiftr_div_pow2. repeat split; reflexivity. Qed.

(** The four digits of three bytes, and the digits of a last group of one
    or two bytes, as numbers. *)
Lemma sextets (x y z : N) :
  (x < 256)%N -> (y < 256)%N -> (z < 256)%N ->
  N.shiftr x 2 = (x / 4)%N
  /\ N.lor (N.shiftl (N.land x 3) 4) (N.shiftr y 4) = (x mod 4 * 16 + y / 16)%N
  /\ N.lor (N.shiftl (N.land y 15) 2) (N.shiftr z 6) = (y mod 16 * 4 + z / 64)%N
  /\ N.land z 63 = (z mod 64)%N
  /\ N.shiftl (N.land x 3) 4 = (x mod 4 * 16)%N
  /\ N.shiftl (N.land y 15) 2 = (y mod 16 * 4)%N.
Proof.
  intros Hx Hy Hz.
  destruct (low_bits x) as (Lx2 & _). destruct (low_bits y) as (_ & Ly4 & _).
  destruct (low_bits z) as (_ & _ & Lz6 & _).
  destruct (high_bits x) as (Hx2 & _). destruct (high_bits y) as (_ & Hy4 & _).
  destruct (high_bits z) as (_ & _ & Hz6).
  rewrite Lx2, Ly4, Lz6, Hx2, Hy4, Hz6.
  assert (B1 : (x mod 4 < 4)%N) by (apply N.mod_lt; discriminate).
  assert (B2 : (y mod 16 < 16)%N) by (apply N.mod_lt; discriminate).
  assert (B3 : (y / 16 < 16)%N) by (apply N.Div0.div_lt_upper_bound; exact Hy).
  assert (B4 : (z / 64 < 4)%N) by (apply N.Div0.div_lt_upper_bound; exact Hz).
  rewrite (lor_join4 _ _ B1 B3), (lor_join2 _ _ B2 B4).
  rewrite !N.shiftl_mul_pow2.
  repeat split; reflexivity.
Qed.

Lemma sextets_bounded (x y z : N) :
  (x < 256)%N -> (y < 256)%N -> (z < 256)%N ->
  (x / 4 < 64)%N /\ (x mod 4 * 16 + y / 16 < 64)%N
  /\ (y mod 16 * 4 + z / 64 < 64)%N /\ (z mod 64 < 64)%N
  /\ (x mod 4 * 16 < 64)%N /\ (y mod 16 * 4 < 64)%N.
Proof.
  intros Hx Hy Hz.
  assert (B0 : (x / 4 < 64)%N) by (apply N.Div0.div_lt_upper_bound; exact Hx).
  assert (B1 : (x mod 4 < 4)%N) by (apply N.mod_lt; discriminate).
  assert (B2 : (y mod 16 < 16)%N) by (apply N.mod_lt; discriminate).
  assert (B3 : (y / 16 < 16)%N) by (apply N.Div0.div_lt_upper_bound; exact Hy).
  assert (B4 : (z / 64 < 4)%N) by (apply N.Div0.div_lt_upper_bound; exact Hz).
  assert (B5 : (z mod 64 < 64)%N) by (apply N.mod_lt; discriminate).
  generalize dependent (x / 4)%N. generalize dependent (x mod 4)%N.
  generalize dependent (y / 16)%N. generalize dependent (y mod 16)%N.
  generalize dependent (z / 64)%N. generalize dependent (z mod 64)%N.
  intros. lia.
Qed.

Lemma split_sum (a b a' b' m : N) :
  (b < m)%N -> (b' < m)%N -> (a * m + b = a' * m + b')%N -> a = a' /\ b = b'.
Proof.
  intros Hb Hb' He.
  assert (Ha : a = a').
  { assert (H1 : a = ((a * m + b) / m)%N)
      by (apply (N.div_unique _ m a b); lia).
    assert (H2 : a' = ((a' * m + b') / m)%N)
      by (apply (N.div_unique _ m a' b'); lia).
    congruence. }
  split; [exact Ha|]. subst a'. lia.
Qed.

Lemma rebuild (x x' m : N) :
  m <> 0%N -> (x / m = x' / m)%N -> (x mod m = x' mod m)%N -> x = x'.
Proof.
  intros Hm Hq Hr.
  rewrite (N.div_mod x m Hm), (N.div_mod x' m Hm), Hq, Hr. reflexivity.
Qed.

Lemma ascii_inj (a b : ascii) : N_of_ascii a = N_of_ascii b -> a = b.
Proof.
  intros He. rewrite <- (ascii_N_embedding a), <- (ascii_N_embedding b), He.
  reflexivity.
Qed.

Section Groups.

Variables a b c a' b' c' : ascii.

Let x := N_of_ascii a.
Let y := N_of_ascii b.
Let z := N_of_ascii c.
Let x' := N_of_ascii a'.
Let y' := N_of_ascii b'.
Let z' := N_of_ascii c'.

Lemma single_inj :
  b64_digit (N.shiftr x 2) = b64_digit (N.shiftr x' 2) ->
  b64_digit (N.shiftl (N.land x 3) 4) = b64_digit (N.shiftl (N.land x' 3) 4) ->
  a = a'.
Proof.
  pose proof (N_ascii_bounded a) as Hx. pose proof (N_ascii_bounded a') as Hx'.
  fold x in Hx. fold x' in Hx'.
  destruct (sextets x x x Hx Hx Hx) as (S1 & _ & _ & _ & S5 & _).
  destruct (sextets x' x' x' Hx' Hx' Hx') as (S1' & _ & _ & _ & S5' & _).
  destruct (sextets_bounded x x x Hx Hx Hx) as (B1 & _ & _ & _ & B5 & _).
  destruct (sextets_bounded x' x' x' Hx' Hx' Hx') as (B1' & _ & _ & _ & B5' & _).
  rewrite S1, S1', S5, S5'. intros E1 E2.
  apply digit_inj in E1; [|assumption..]. apply digit_inj in E2; [|assumption..].
  apply N.mul_cancel_r in E2; [|discriminate].
  apply ascii_inj. apply (rebuild _ _ 4); [discriminate|assumption..].
Qed.

Lemma pair_inj :
  b64_digit (N.shiftr x 2) = b64_digit (N.shiftr x' 2) ->
  b64_digit (N.lor (N.shiftl (N.land x 3) 4) (N.shiftr y 4))
  = b64_digit (N.lor (N.shiftl (N.land x' 3) 4) (N.shiftr y' 4)) ->
  b64_digit (N.shiftl (N.land y 15) 2) = b64_digit (N.shiftl (N.land y' 15) 2) ->
  a = a' /\ b = b'.
Proof.
  pose proof (N_ascii_bounded a) as Hx. pose proof (N_ascii_bounded a') as Hx'.
  pose proof (N_ascii_bounded b) as Hy. pose proof (N_ascii_bounded b') as Hy'.
  fold x in Hx. fold x' in Hx'. fold y in Hy. fold y' in Hy'.
  destruct (sextets x y y Hx Hy Hy) as (S1 & S2 & _ & _ & _ & S6).
  destruct (sextets x' y' y' Hx' Hy' Hy') as (S1' & S2' & _ & _ & _ & S6').
  destruct (sextets_bounded x y y Hx Hy Hy) as (B1 & B2 & _ & _ & _ & B6).
  destruct (sextets_bounded x' y' y' Hx' Hy' Hy') as (B1' & B2' & _ & _ & _ & B6').
  rewrite S1, S1', S2, S2', S6, S6'. intros E1 E2 E3.
  apply digit_inj in E1; [|assumption..]. apply digit_inj in E2; [|assumption..].
  apply digit_inj in E3; [|assumption..].
  apply N.mul_cancel_r in E3; [|discriminate].
  apply split_sum in E2 as [E2 E2'];
    [|apply N.Div0.div_lt_upper_bound; assumption..].
  split; apply ascii_inj.
  - apply (rebuild _ _ 4); [discriminate|assumption..].
  - apply (rebuild _ _ 16); [discriminate|assumption..].
Qed.

Lemma triple_inj :
  b64_digit (N.shiftr x 2) = b64_digit (N.shiftr x' 2) ->
  b64_digit (N.lor (N.shiftl (N.land x 3) 4) (N.shiftr y 4))
  = b64_digit (N.lor (N.shiftl (N.land x' 3) 4) (N.shiftr y' 4)) ->
  b64_digit (N.lor (N.shiftl (N.land y 15) 2) (N.shiftr z 6))
  = b64_digit (N.lor (N.shiftl (N.land y' 15) 2) (N.shiftr z' 6)) ->
  b64_digit (N.land z 63) = b64_digit (N.land z' 63) ->
  a = a' /\ b = b' /\ c = c'.
Proof.
  pose proof (N_ascii_bounded a) as Hx. pose proof (N_ascii_bounded a') as Hx'.
  pose proof (N_ascii_bounded b) as Hy. pose proof (N_ascii_bounded b') as Hy'.
  pose proof (N_ascii_bounded c) as Hz. pose proof (N_ascii_bounded c') as Hz'.
  fold x in Hx. fold x' in Hx'. fold y in Hy. fold y' in Hy'.
  fold z in Hz. fold z' in Hz'.
  destruct (sextets x y z Hx Hy Hz) as (S1 & S2 & S3 & S4 & _).
  destruct (sextets x' y' z' Hx' Hy' Hz') as (S1' & S2' & S3' & S4' & _).
  destruct (sextets_bounded x y z Hx Hy Hz) as (B1 & B2 & B3 & B4 & _).
  destruct (sextets_bounded x' y' z' Hx' Hy' Hz') as (B1' & B2' & B3' & B4' & _).
  rewrite S1, S1', S2, S2', S3, S3', S4, S4'. intros E1 E2 E3 E4.
  apply digit_inj in E1; [|assumption..]. apply digit_inj in E2; [|assumption..].
  apply digit_inj in E3; [|assumption..]. apply digit_inj in E4; [|assumption..].
  apply split_sum in E2 as [E2 E2'];
    [|apply N.Div0.div_lt_upper_bound; assumption..].
  apply split_sum in E3 as [E3 E3'];
    [|apply N.Div0.div_lt_upper_bound; assumption..].
  split; [|split]; apply ascii_inj.
  - apply (rebuild _ _ 4); [discriminate|assumption..].
  - apply (rebuild _ _ 16); [discriminate|assumption..].
  - apply (rebuild _ _ 64); [discriminate|assumption..].
Qed.

Lemma third_of_pair_not_padding :
  b64_digit (N.shiftl (N.land y 15) 2) <> "="%char.
Proof.
  pose proof (N_ascii_bounded b) as Hy. fold y in Hy.
  destruct (sextets y y y Hy Hy Hy) as (_ & _ & _ & _ & _ & S6).
  destruct (sextets_bounded y y y Hy Hy Hy) as (_ & _ & _ & _ & _ & B6).
  rewrite S6. by apply digit_not_padding.
Qed.

Lemma third_of_triple_not_padding :
  b64_digit (N.lor (N.shiftl (N.land y 15) 2) (N.shiftr z 6)) <> "="%char.
Proof.
  pose proof (N_ascii_bounded b) as Hy. pose proof (N_ascii_bounded c) as Hz.
  fold y in Hy. fold z in Hz.
  destruct (sextets y y z Hy Hy Hz) as (_ & _ & S3 & _).
  destruct (sextets_bounded y y z Hy Hy Hz) as (_ & _ & B3 & _).
  rewrite S3. by apply digit_not_padding.
Qed.

Lemma fourth_of_triple_not_padding :
  b64_digit (N.land z 63) <> "="%char.
Proof.
  pose proof (N_ascii_bounded c) as Hz. fold z in Hz.
  destruct (sextets z z z Hz Hz Hz) as (_ & _ & _ & S4 & _).
  destruct (sextets_bounded z z z Hz Hz Hz) as (_ & _ & _ & B4 & _).
  rewrite S4. by apply digit_not_padding.
Qed.

End Groups.

Lemma btoa_single (a : ascii) :
  btoa (String a "")
  = String (b64_digit (N.shiftr (N_of_ascii a) 2))
      (String (b64_digit (N.shiftl (N.land (N_of_ascii a) 3) 4)) "==").
Proof. reflexivity. Qed.

Lemma btoa_pair (a b : ascii) :
  btoa (String a (String b ""))
  = String (b64_digit (N.shiftr (N_of_ascii a) 2))
      (String (b64_digit (N.lor (N.shiftl (N.land (N_of_ascii a) 3) 4)
                            (N.shiftr (N_of_ascii b) 4)))
         (String (b64_digit (N.shiftl (N.land (N_of_ascii b) 15) 2)) "=")).
Proof. reflexivity. Qed.

Lemma btoa_inj (s1 s2 : string) : btoa s1 = btoa s2 -> s1 = s2.
Proof.
  revert s2. induction s1 as [|a|a b|a b c rest IH] using string_ind3;
    intros s2; destruct s2 as [|a' [|b' [|c' rest']]]; intros He;
    rewrite ?btoa_single, ?btoa_pair, ?btoa_triple in He;
    try (change (btoa "") with "" in He);
    try discriminate He; try reflexivity.
  - injection He as E1 E2. by rewrite (single_inj a a' E1 E2).
  - injection He as E1 E2 E3. symmetry in E3.
    by destruct (third_of_pair_not_padding b' E3).
  - injection He as E1 E2 E3 E4. symmetry in E3.
    by destruct (third_of_triple_not_padding b' c' E3).
  - injection He as E1 E2 E3.
    by destruct (third_of_pair_not_padding b E3).
  - injection He as E1 E2 E3.
    destruct (pair_inj a b a' b' E1 E2 E3) as [-> ->]. reflexivity.
  - injection He as E1 E2 E3 E4 E5. symmetry in E4.
    by destruct (fourth_of_triple_not_padding c' E4).
  - injection He as E1 E2 E3 E4.
    by destruct (third_of_triple_not_padding b c E3).
  - injection He as E1 E2 E3 E4 E5.
    by destruct (fourth_of_triple_not_padding c E4).
  - injection He as E1 E2 E3 E4 E5.
    destruct (triple_inj a b c a' b' c' E1 E2 E3 E4) as (-> & -> & ->).
    by rewrite (IH rest' E5).
Qed.

Lemma word_inj (bits bits' : N) :
  (bits < 2 ^ 32)%N -> (bits' < 2 ^ 32)%N ->
  N.land bits 255 = N.land bits' 255 ->
  N.land (N.shiftr bits 8) 255 = N.land (N.shiftr bits' 8) 255 ->
  N.land (N.shiftr bits 16) 255 = N.land (N.shiftr bits' 16) 255 ->
  N.land (N.shiftr bits 24) 255 = N.land (N.shiftr bits' 24) 255 ->
  bits = bits'.
Proof.
  intros Hb Hb'.
  rewrite !(proj2 (proj2 (proj2 (low_bits _)))), !N.shiftr_div_pow2.
  intros H0 H1 H2 H3.
  assert (H24 : forall n, (n < 2 ^ 32 -> (n / 2 ^ 24) mod 256 = n / 2 ^ 24)%N).
  { intros n Hn. apply N.mod_small. apply N.Div0.div_lt_upper_bound. exact Hn. }
  rewrite !H24 in H3 by assumption.
  assert (Hstep : forall n k, (n / 2 ^ (k + 8) = n / 2 ^ k / 256)%N).
  { intros n k. rewrite N.pow_add_r, N.Div0.div_div. reflexivity. }
  change 24%N with (16 + 8)%N in H3. rewrite !Hstep in H3.
  pose proof (rebuild _ _ 256 ltac:(discriminate) H3 H2) as E16.
  change 16%N with (8 + 8)%N in E16. rewrite !Hstep in E16.
  pose proof (rebuild _ _ 256 ltac:(discriminate) E16 H1) as E8.
  change (2 ^ 8)%N with 256%N in E8.
  exact (rebuild _ _ 256 ltac:(discriminate) E8 H0).
Qed.

Lemma Uint8Array_of_inj (b1 b2 : Float32Array) :
  Forall (fun bits => (bits < 2 ^ 32)%N) b1 ->
  Forall (fun bits => (bits < 2 ^ 32)%N) b2 ->
  Uint8Array_of b1 = Uint8Array_of b2 -> b1 = b2.
Proof.
  unfold Uint8Array_of. revert b2.
  induction b1 as [|bits b1 IH]; intros [|bits' b2] H1 H2 He;
    cbn [flat_map app] in He; try discriminate He; [reflexivity|].
  apply Forall_cons in H1 as [Hb H1]. apply Forall_cons in H2 as [Hb' H2].
  injection He as E0 E1 E2 E3 Erest.
  rewrite (word_inj bits bits' Hb Hb' E0 E1 E2 E3), (IH b2 H1 H2 Erest).
  reflexivity.
Qed.

Lemma Uint8Array_of_bytes (buffer : Float32Array) :
  Forall (fun byte => (byte < 256)%N) (Uint8Array_of buffer).
Proof.
  unfold Uint8Array_of. induction buffer as [|bits buffer IH];
    [apply Forall_nil_2|].
  cbn [flat_map app]. rewrite !(proj2 (proj2 (proj2 (low_bits _)))).
  repeat (apply Forall_cons; split; [apply N.mod_lt; discriminate|]).
  exact IH.
Qed.

Lemma binary_of_inj (l1 l2 : list N) :
  Forall (fun byte => (byte < 256)%N) l1 ->
  Forall (fun byte => (byte < 256)%N) l2 ->
  binary_of l1 = binary_of l2 -> l1 = l2.
Proof.
  rewrite !binary_of_spec. intros H1 H2 He.
  apply (f_equal list_ascii_of_string) in He.
  rewrite !list_ascii_of_string_of_list_ascii in He.
  revert l2 H2 He. induction l1 as [|x l1 IH]; intros [|y l2] H2 He;
    try discriminate He; [reflexivity|].
  apply Forall_cons in H1 as [Hx H1]. apply Forall_cons in H2 as [Hy H2].
  injection He as E Erest.
  apply (f_equal N_of_ascii) in E. rewrite !N_ascii_embedding in E by assumption.
  rewrite E, (IH H1 l2 H2 Erest). reflexivity.
Qed.

End WaveformFacts.

(** X24. The waveform sent with a frame is a lossless encoding of the
    buffer: [pushAudioFrame] sends the base64 text of the buffer's bytes,
    whose length is four characters for every three bytes begun, and two
    buffers of 32-bit samples with the same waveform are the same
    buffer. *)
Theorem waveform_lossless :
  (forall buffer stored nano now ack rate w,
      session w = Some stored ->
      exists frame,
        remote_log (exec (pushAudioFrame buffer rate nano now ack) w)
        = remote_log w ++ [SubmitAudioCall (session_id (metadata stored)) frame]
        /\ waveform_base64 frame = waveform buffer)
  /\ (forall buffer,
        String.length (waveform buffer) = 4 * ((4 * length buffer + 2) / 3))
  /\ (forall b1 b2,
        Forall (fun bits => (bits < 2 ^ 32)%N) b1 ->
        Forall (fun bits => (bits < 2 ^ 32)%N) b2 ->
        waveform b1 = waveform b2 -> b1 = b2).
Proof.
  split; [|split].
  - intros buffer stored nano now ack rate w Hs.
    unfold pushAudioFrame, pushAudioFrame_of. provider_unfold. rewrite Hs. simpl.
    destruct ack; simpl; eexists; (split; [reflexivity|]); reflexivity.
  - intros buffer. unfold waveform.
    rewrite WaveformFacts.btoa_length, WaveformFacts.binary_of_spec,
      WaveformFacts.string_of_list_length, length_map,
      WaveformFacts.Uint8Array_of_length.
    reflexivity.
  - intros b1 b2 H1 H2 He. unfold waveform in He.
    apply WaveformFacts.btoa_inj in He.
    apply WaveformFacts.binary_of_inj in He;
      [|apply WaveformFacts.Uint8Array_of_bytes..].
    by apply WaveformFacts.Uint8Array_of_inj.
Qed.

Lemma waveform_lossless_witness :
  waveform [1065353216%N] = "AACAPw=="
  /\ String.length (waveform [1065353216%N]) = 8
  /\ waveform [1065353216%N] <> waveform [3212836864%N].
Proof.
  destruct waveform_lossless as (_ & Hlen & Hinj).
  split; [reflexivity|]. split; [exact (Hlen [1065353216%N])|].
  intros He. apply Hinj in He; [discriminate He|repeat constructor..].
Defined.


(** * Further properties of the provider and of the sections *)

(** X25. The provider only listens: on every trace, no socket it opened
    has been sent anything, and every pending timer is a one-shot timer
    of 1500 ms, the reconnect delay; it sets no interval. *)
Theorem provider_receive_only (baseUrl : URL)
  (JSON_parse : string -> outcome JsonValue) (ls : list Label) :
  let w := run baseUrl JSON_parse ls initial_world in
  (forall id s, sockets w !! id = Some s -> ws_sent s = [])
  /\ (forall id t,
        timers w !! id = Some t ->
        timer_kind t = Timeout /\ timer_delay t = 1500%Z).
Proof.
  intros w.
  assert (Hs : silent initial_world).
  { intros id s Hl. simpl in Hl. rewrite lookup_empty in Hl. discriminate Hl. }
  assert (Ht : only_reconnects initial_world).
  { intros id t Hl. simpl in Hl. rewrite lookup_empty in Hl. discriminate Hl. }
  exact (run_silent baseUrl JSON_parse ls initial_world Hs Ht).
Qed.

(** X26. The click handlers of the render and generate buttons never
    throw. A failed remote call is reported twice, once by the hook and
    once more by the handler, with the same message; a call without a
    session is reported once, by the handler; a successful call shows the
    hook's success toast only. *)
Theorem triggers_report (session : option SessionState) :
  (forall text profile dynamics nano answer h,
      let call := Triggers.triggerRender session text profile dynamics nano answer in
      result call h = Returned tt
      /\ VoiceRenderer.toasts (exec call h)
         = VoiceRenderer.toasts h
           ++ match session, answer with
              | None, _ => [ToastError "Session must be active to render voice"]
              | Some _, Returned _ => [ToastSuccess "Voice render complete"]
              | Some _, Thrown (Error message) =>
                  [ToastError message; ToastError message]
              end)
  /\ (forall prompt modes nano answer h,
      let call := Triggers.triggerGeneration session prompt modes nano answer in
      result call h = Returned tt
      /\ Generation.toasts (exec call h)
         = Generation.toasts h
           ++ match session, answer with
              | None, _ => [ToastError "Session must be active to generate content"]
              | Some _, Returned _ =>
                  [ToastSuccess "Imagination engine synthesized new material"]
              | Some _, Thrown (Error message) =>
                  [ToastError message; ToastError message]
              end).
Proof.
  split.
  - intros text profile dynamics nano answer h call. subst call.
    destruct h as [kept flag sent shown].
    destruct session as [stored|]; [|split; reflexivity].
    destruct answer as [audio|[message]]; cbn;
      rewrite <- ?app_assoc; split; reflexivity.
  - intros prompt modes nano answer h call. subst call.
    destruct h as [kept flag sent shown].
    destruct session as [stored|]; [|split; reflexivity].
    destruct answer as [response|[message]]; cbn;
      rewrite <- ?app_assoc; split; reflexivity.
Qed.

(** X27. The [disabled] prop of a [Button] wins over its [loading] prop:
    when [disabled] is passed, the button is disabled exactly when the
    value passed is [true], and [loading] disables the button only when no
    [disabled] prop is passed. So the render and generate buttons, which
    pass [disabled={!session}], are disabled exactly when there is no
    session, also while a call is in flight; and a click then sends
    another request. *)
Theorem button_disabled_wins (loading : option bool) :
  (forall value,
      Button.is_disabled loading (Button.passed value) = Button.truthy value)
  /\ Button.is_disabled loading Button.absent = Button.truthy loading
  /\ (forall session h,
        Triggers.render_button_disabled session h = Triggers.no_session session)
  /\ (forall session h,
        Triggers.generate_button_disabled session h = Triggers.no_session session)
  /\ (forall stored prompt modes nano answer h,
        Generation.isGenerating h = true ->
        Triggers.generate_button_disabled (Some stored) h = false
        /\ length
             (Generation.requests
                (exec (Triggers.triggerGeneration (Some stored) prompt modes
                         nano answer) h))
           = S (length (Generation.requests h))).
Proof.
  split; [reflexivity|]. split; [by destruct loading as [[]|]|].
  split; [reflexivity|]. split; [reflexivity|].
  intros stored prompt modes nano answer h Hg. split; [reflexivity|].
  destruct h as [kept flag sent shown].
  destruct answer as [response|[message]]; cbn; rewrite length_app; simpl; lia.
Qed.

Lemma button_disabled_wins_witness :
  Triggers.generate_button_disabled (Some (Sample.opened "s1"))
    {| Generation.bundle := None; Generation.isGenerating := true;
       Generation.requests := []; Generation.toasts := [] |}
  = false.
Proof.
  exact (proj1 (proj2 (proj2 (proj2 (proj2 (button_disabled_wins (Some true)))))
           (Sample.opened "s1") "prompt" [Generation.lyric] "n1"
           (Thrown (Error "busy"))
           {| Generation.bundle := None; Generation.isGenerating := true;
              Generation.requests := []; Generation.toasts := [] |}
           eq_refl)).
Defined.


(** X28. Uploading a file never throws and always clears the file input,
    so the same file can be chosen again. Without a session or without a
    file nothing is sent; otherwise one frame is submitted once the file
    is decoded, under the stored session's id and with the decoded sample
    rate. The last frame shown is replaced only by a frame the remote
    service acknowledged; a failure to decode or to submit is reported in
    one toast and leaves the last frame as it was. *)
Theorem upload_outcomes (file : option (outcome AudioUpload.Decoded))
  (nano : string) (now : number) (ack : outcome AudioFrame)
  (p : AudioUpload.Panel) :
  let call := AudioUpload.onFileChange file nano now ack in
  let p' := exec call p in
  let w := AudioUpload.provider p in
  let w' := AudioUpload.provider p' in
  result call p = Returned tt
  /\ AudioUpload.input_value p' = ""
  /\ session w' = session w
  /\ events w' = events w
  /\ match session w, file with
     | None, _ =>
         remote_log w' = remote_log w
         /\ AudioUpload.lastFrame p' = AudioUpload.lastFrame p
         /\ toasts w'
            = toasts w ++ [ToastError "Start a session before uploading audio."]
     | Some _, None =>
         remote_log w' = remote_log w
         /\ AudioUpload.lastFrame p' = AudioUpload.lastFrame p
         /\ toasts w' = toasts w
     | Some _, Some (Thrown (Error message)) =>
         remote_log w' = remote_log w
         /\ AudioUpload.lastFrame p' = AudioUpload.lastFrame p
         /\ toasts w' = toasts w ++ [ToastError message]
     | Some stored, Some (Returned decoded) =>
         (exists frame,
             remote_log w'
             = remote_log w
               ++ [SubmitAudioCall (session_id (metadata stored)) frame]
             /\ sample_rate frame = AudioUpload.decoded_sampleRate decoded
             /\ waveform_base64 frame
                = waveform (AudioUpload.channelData decoded))
         /\ match ack with
            | Returned acknowledged =>
                AudioUpload.lastFrame p' = Some acknowledged
                /\ toasts w' = toasts w ++ [ToastSuccess "Audio frame ingested"]
            | Thrown (Error message) =>
                AudioUpload.lastFrame p' = AudioUpload.lastFrame p
                /\ toasts w' = toasts w ++ [ToastError message]
            end
     end.
Proof.
  intros call p' w w'. subst call p' w w'.
  destruct p as [shown value world].
  unfold AudioUpload.onFileChange, AudioUpload.on_provider. provider_unfold.
  simpl. destruct (session world) as [stored|] eqn:Hs; simpl.
  - destruct file as [[decoded|[message]]|]; simpl.
    + destruct ack as [acknowledged|[message]]; simpl; rewrite ?Hs;
        (split; [reflexivity|]); (split; [reflexivity|]);
        (split; [reflexivity|]); (split; [reflexivity|]);
        (split; [eexists; repeat split; reflexivity|]);
        split; reflexivity.
    + rewrite Hs. repeat split; reflexivity.
    + rewrite Hs. repeat split; reflexivity.
  - rewrite Hs. repeat split; reflexivity.
Qed.
